(** * The DigitalTwin metamodel resolver and its diagnostics

    A shallow embedding of [DigitalTwinMetaModelParser] (the graph resolver:
    memoised queries over an edge list, under a document [@context]) and of
    [DigitalTwinDiagnostic] (the recursive validator of a parsed JSON
    document), followed by the properties established about them.

    Conventions of the embedding.
    - A JavaScript string is a [string]; each [ascii] stands for one UTF-16
      code unit (the model covers the code units below 256).  [===] on
      strings is [=], the default [sort] order is [String.leb].
    - [null] and [undefined] are [None].
    - An array that can be stored in a cache and handed out again carries the
      identity of its allocation ([Arr]); [===] on arrays compares it.
    - The plain objects used as maps ([cache.*]) are [gmap]s; keys are taken
      outside the member names of [Object.prototype].
    - Recursion that the source does not bound takes a [fuel]; running out of
      it is the outcome [OutOfFuel], distinct from a thrown [TypeError]. *)

From Stdlib Require Import ZArith Lia Ascii.
From stdpp Require Import base strings list gmap sorting pretty.

Open Scope string_scope.
Open Scope list_scope.
Open Scope nat_scope.

(** ** JavaScript strings *)

Module Js.

(** [s.startsWith(p)], also [s.indexOf(p) === 0]. *)
Definition startsWith (s p : string) : bool := String.prefix p s.

(** [s.substr(n)]. *)
Fixpoint substr (s : string) (n : nat) : string :=
  match n, s with
  | O, _ => s
  | S n', String _ s' => substr s' n'
  | S _, EmptyString => EmptyString
  end.

(** [s.indexOf(c) !== -1] for a one-character [c]. *)
Fixpoint includesChar (c : Ascii.ascii) (s : string) : bool :=
  match s with
  | EmptyString => false
  | String a s' => if Ascii.eqb a c then true else includesChar c s'
  end.

(** [s.split(c)]: the segments between the occurrences of [c]; never
    empty. *)
Fixpoint split (c : Ascii.ascii) (s : string) : list string :=
  match s with
  | EmptyString => [EmptyString]
  | String a s' =>
      if Ascii.eqb a c then EmptyString :: split c s'
      else match split c s' with
           | seg :: rest => String a seg :: rest
           | [] => [String a EmptyString]
           end
  end.

(** [a.pop()] on a non-empty array: its last element. *)
Definition pop (l : list string) : string := List.last l EmptyString.

(** [s1.endsWith(s2)], the test of a regular expression [/...$/] made of
    literal characters. *)
Definition endsWith (s suffix : string) : bool :=
  String.eqb (substr s (String.length s - String.length suffix)) suffix.

(** One code unit of [s.toLowerCase()]: [A-Z] and the upper-case letters of
    Latin-1 (U+00C0..U+00DE but U+00D7). *)
Definition lowerChar (a : Ascii.ascii) : Ascii.ascii :=
  let n := Ascii.nat_of_ascii a in
  if (Nat.leb 65 n && Nat.leb n 90) || (Nat.leb 192 n && Nat.leb n 222 && negb (Nat.eqb n 215))
  then Ascii.ascii_of_nat (n + 32) else a.

Fixpoint toLowerCase (s : string) : string :=
  match s with
  | EmptyString => EmptyString
  | String a s' => String (lowerChar a) (toLowerCase s')
  end.

(** [a.join(sep)]. *)
Definition join (sep : string) (l : list string) : string := String.concat sep l.

(** Truthiness of a string: [!!s]. *)
Definition truthy (s : string) : bool := negb (String.eqb s EmptyString).

(** [a.indexOf(x) !== -1] and [a.indexOf(x)] on an array of strings. *)
Definition includes (x : string) (l : list string) : bool :=
  existsb (String.eqb x) l.

Fixpoint indexOf (x : string) (l : list string) : option nat :=
  match l with
  | [] => None
  | y :: l' => if String.eqb y x then Some 0 else S <$> indexOf x l'
  end.

(** The order of the default [Array.prototype.sort] on strings: code unit
    by code unit. *)
Definition le (a b : string) : Prop := Is_true (String.leb a b).

#[global] Instance le_dec a b : Decision (le a b) := _.

(** [a.sort()] on an array of strings.  The specification leaves the
    algorithm open; the order being total, the result is the one sorted
    arrangement of the elements. *)
Definition sort (l : list string) : list string := merge_sort le l.

(** lodash [uniq]: the first occurrence of every element, in order. *)
Fixpoint uniqAcc (seen l : list string) : list string :=
  match l with
  | [] => []
  | x :: l' =>
      if includes x seen then uniqAcc seen l' else x :: uniqAcc (x :: seen) l'
  end.

Definition uniq (l : list string) : list string := uniqAcc [] l.

(** The character [\n]. *)
Definition newline : string := String (Ascii.ascii_of_nat 10) EmptyString.

(** Numbers.  [Number(text)] is followed on decimal literals (a sign, digits
    with an optional fraction, an optional exponent), which is what the text
    of a number token is: [Dec m e] stands for [m * 10^e], any other text
    gives [NaN].  The value is kept exact where the code has a binary64.
    On the question asked of it (whether it is an integer) the two agree as
    long as the literal has no more than 15 significant digits and does not
    underflow; beyond that the binary64 can be an integer where the exact
    value is none ([1e-400] is read as 0, [9007199254740993.5] as
    9007199254740994), never the other way round: there the model counts as
    not an integer a number that the code takes for one. *)
Inductive number := NaN | Dec (m e : Z).

Definition digitOf (a : Ascii.ascii) : option Z :=
  let n := Ascii.nat_of_ascii a in
  if Nat.leb 48 n && Nat.leb n 57 then Some (Z.of_nat (n - 48)) else None.

(** The longest prefix of digits, read onto [acc]: the value, the number of
    digits read and the rest. *)
Fixpoint digits (acc : Z) (count : nat) (s : string) : Z * nat * string :=
  match s with
  | EmptyString => (acc, count, s)
  | String a s' =>
      match digitOf a with
      | Some d => digits (10 * acc + d) (S count) s'
      | None => (acc, count, s)
      end
  end.

Definition exponent (s : string) : option Z :=
  match s with
  | EmptyString => Some 0%Z
  | String a s' =>
      if Ascii.eqb a "e" || Ascii.eqb a "E" then
        let '(negative, s'') :=
          match s' with
          | String b t =>
              if Ascii.eqb b "-" then (true, t)
              else if Ascii.eqb b "+" then (false, t) else (false, s')
          | EmptyString => (false, s')
          end in
        match digits 0 0 s'' with
        | (v, S _, EmptyString) => Some (if negative then (- v)%Z else v)
        | _ => None
        end
      else None
  end.

Definition Number (text : string) : number :=
  let '(negative, s) :=
    match text with
    | String a t =>
        if Ascii.eqb a "-" then (true, t)
        else if Ascii.eqb a "+" then (false, t) else (false, text)
    | EmptyString => (false, text)
    end in
  if String.eqb text EmptyString then Dec 0 0 else
  let '(int, intDigits, s) := digits 0 0 s in
  let '(mantissa, fracDigits, s) :=
    match s with
    | String a t => if Ascii.eqb a "." then digits int 0 t else (int, 0, s)
    | EmptyString => (int, 0, s)
    end in
  if Nat.eqb (intDigits + fracDigits) 0 then NaN else
  match exponent s with
  | Some e => Dec (if negative then - mantissa else mantissa) (e - Z.of_nat fracDigits)
  | None => NaN
  end.

(** [Math.floor(value) !== value]. *)
Definition notInteger (value : number) : bool :=
  match value with
  | NaN => true
  | Dec m e => if (0 <=? e)%Z then false else negb (m mod 10 ^ (- e) =? 0)%Z
  end.

End Js.

(** ** The language codes of internationalised properties *)

Definition LANGUAGE_CODES : list string :=
  ["af"; "af-ZA"; "ar"; "ar-AE"; "ar-BH"; "ar-DZ"; "ar-EG"; "ar-IQ"; "ar-JO";
   "ar-KW"; "ar-LB"; "ar-LY"; "ar-MA"; "ar-OM"; "ar-QA"; "ar-SA"; "ar-SY";
   "ar-TN"; "ar-YE"; "az"; "az-AZ"; "az-AZ"; "be"; "be-BY"; "bg"; "bg-BG";
   "bs-BA"; "ca"; "ca-ES"; "cs"; "cs-CZ"; "cy"; "cy-GB"; "da"; "da-DK"; "de";
   "de-AT"; "de-CH"; "de-DE"; "de-LI"; "de-LU"; "dv"; "dv-MV"; "el"; "el-GR";
   "en"; "en-AU"; "en-BZ"; "en-CA"; "en-CB"; "en-GB"; "en-IE"; "en-JM";
   "en-NZ"; "en-PH"; "en-TT"; "en-US"; "en-ZA"; "en-ZW"; "eo"; "es"; "es-AR";
   "es-BO"; "es-CL"; "es-CO"; "es-CR"; "es-DO"; "es-EC"; "es-ES"; "es-ES";
   "es-GT"; "es-HN"; "es-MX"; "es-NI"; "es-PA"; "es-PE"; "es-PR"; "es-PY";
   "es-SV"; "es-UY"; "es-VE"; "et"; "et-EE"; "eu"; "eu-ES"; "fa"; "fa-IR";
   "fi"; "fi-FI"; "fo"; "fo-FO"; "fr"; "fr-BE"; "fr-CA"; "fr-CH"; "fr-FR";
   "fr-LU"; "fr-MC"; "gl"; "gl-ES"; "gu"; "gu-IN"; "he"; "he-IL"; "hi";
   "hi-IN"; "hr"; "hr-BA"; "hr-HR"; "hu"; "hu-HU"; "hy"; "hy-AM"; "id";
   "id-ID"; "is"; "is-IS"; "it"; "it-CH"; "it-IT"; "ja"; "ja-JP"; "ka";
   "ka-GE"; "kk"; "kk-KZ"; "kn"; "kn-IN"; "ko"; "ko-KR"; "kok"; "kok-IN";
   "ky"; "ky-KG"; "lt"; "lt-LT"; "lv"; "lv-LV"; "mi"; "mi-NZ"; "mk"; "mk-MK";
   "mn"; "mn-MN"; "mr"; "mr-IN"; "ms"; "ms-BN"; "ms-MY"; "mt"; "mt-MT"; "nb";
   "nb-NO"; "nl"; "nl-BE"; "nl-NL"; "nn-NO"; "ns"; "ns-ZA"; "pa"; "pa-IN";
   "pl"; "pl-PL"; "ps"; "ps-AR"; "pt"; "pt-BR"; "pt-PT"; "qu"; "qu-BO";
   "qu-EC"; "qu-PE"; "ro"; "ro-RO"; "ru"; "ru-RU"; "sa"; "sa-IN"; "se";
   "se-FI"; "se-FI"; "se-FI"; "se-NO"; "se-NO"; "se-NO"; "se-SE"; "se-SE";
   "se-SE"; "sk"; "sk-SK"; "sl"; "sl-SI"; "sq"; "sq-AL"; "sr-BA"; "sr-BA";
   "sr-SP"; "sr-SP"; "sv"; "sv-FI"; "sv-SE"; "sw"; "sw-KE"; "syr"; "syr-SY";
   "ta"; "ta-IN"; "te"; "te-IN"; "th"; "th-TH"; "tl"; "tl-PH"; "tn"; "tn-ZA";
   "tr"; "tr-TR"; "tt"; "tt-RU"; "ts"; "uk"; "uk-UA"; "ur"; "ur-PK"; "uz";
   "uz-UZ"; "uz-UZ"; "vi"; "vi-VN"; "xh"; "xh-ZA"; "zh"; "zh-CN"; "zh-HK";
   "zh-MO"; "zh-SG"; "zh-TW"; "zu"; "zu-ZA"].

(** ** The metamodel graph *)

Record GraphNode := { Id : string; Value : option string }.

Record GraphEdge := { SourceNode : GraphNode; TargetNode : GraphNode; Label : string }.

Record DigitalTwinMetaModelGraph := { Nodes : list GraphNode; Edges : list GraphEdge }.

Module LABEL.
Definition DOMAIN := "http://www.w3.org/2000/01/rdf-schema#domain".
Definition LABEL := "http://www.w3.org/2000/01/rdf-schema#label".
Definition SUBCLASS := "http://www.w3.org/2000/01/rdf-schema#subClassOf".
Definition RANGE := "http://www.w3.org/2000/01/rdf-schema#range".
Definition TYPE := "http://www.w3.org/1999/02/22-rdf-syntax-ns#type".
Definition COMMENT := "http://www.w3.org/2000/01/rdf-schema#comment".
End LABEL.

(** ** The document context *)

(** Modelled from the spec: the type [DigitalTwinMetaModelContext] is declared
    in a module that is not among the sources.  By the spec the context is
    "a mapping from short name (string) to either a literal suffix string or
    an object [{ '@id': string, '@container'?: '@language' }], plus a required
    [@vocab] base-URI string".  [vocab] is [dtContext['@context']['@vocab']];
    [entries] lists the own keys of [dtContext['@context']] with their values
    in the order of [Object.keys], the key [@vocab] (with the value
    [CtxString vocab]) among them, which is what [wfContext] says. *)
Inductive ContextValue :=
| CtxString (s : string)
| CtxObject (id : string) (container : option string).

Record DigitalTwinMetaModelContext :=
  { vocab : string; entries : list (string * ContextValue) }.

Definition wfContext (ctx : DigitalTwinMetaModelContext) : Prop :=
  NoDup (map fst (entries ctx)) ∧
  (("@vocab", CtxString (vocab ctx)) ∈ entries ctx).

(** [context[key]] for an own key. *)
Fixpoint ctxGet (es : list (string * ContextValue)) (key : string) : option ContextValue :=
  match es with
  | [] => None
  | (k, v) :: es' => if String.eqb k key then Some v else ctxGet es' key
  end.

(** [typeof item === 'string' ? item : item['@id']]. *)
Definition pathOf (item : ContextValue) : string :=
  match item with
  | CtxString s => s
  | CtxObject id _ => id
  end.

(** [/^@/.test(shortName)]. *)
Definition isKeyword (shortName : string) : bool := Js.startsWith shortName "@".

(** ** The resolver's state: caches and allocation *)

(** An array together with the identity of its allocation.  The resolver
    never writes to an array once it is cached or returned, so the contents
    travel with the reference. *)
Record Arr (A : Type) := mkArr { ref : nat; items : list A }.
Arguments mkArr {A} ref items.
Arguments ref {A} _.
Arguments items {A} _.

Record TypedProperty := { label : string; required : bool; type : string }.

(** The caches that the modelled queries read or write ([IdFromLabel] and
    [CommnetFromId] belong to code that they do not call). *)
Record Cache := mkCache {
  PropertyNameFromId : gmap string string;
  TypesFromId : gmap string (Arr string);
  ValueTypesFromId : gmap string (Arr string);
  StringValuesFromId : gmap string (Arr string);
  PropertiesFromId : gmap string (Arr string);
  TypedPropertiesFromId : gmap string (Arr TypedProperty);
  ShortNameFromLabel : gmap string (option string);
}.

(** A parser instance, apart from its graph: the caches and the number of
    arrays allocated so far.  Reference [0] is the module-level array
    [LANGUAGE_CODES]. *)
Record Resolver := mkResolver { cache : Cache; allocated : nat }.

Definition emptyCache : Cache := mkCache ∅ ∅ ∅ ∅ ∅ ∅ ∅.

(** [new DigitalTwinMetaModelParser(graph)]. *)
Definition newResolver : Resolver := mkResolver emptyCache 1.

Inductive Outcome (A : Type) :=
| Ok (a : A) (r : Resolver)
| TypeError
| OutOfFuel.
Arguments Ok {A} a r.
Arguments TypeError {A}.
Arguments OutOfFuel {A}.

Definition M (A : Type) : Type := Resolver → Outcome A.

Definition ret {A} (a : A) : M A := λ r, Ok a r.

Definition bind {A B} (m : M A) (k : A → M B) : M B :=
  λ r, match m r with
       | Ok a r' => k a r'
       | TypeError => TypeError
       | OutOfFuel => OutOfFuel
       end.

Notation "x <- m ;; k" := (bind m (λ x, k))
  (at level 100, m at next level, right associativity).
Notation "m ;;; k" := (bind m (λ _, k))
  (at level 100, right associativity).

(** A computation that returns, whatever the state: it neither throws nor
    runs out of fuel. *)
Definition returns {A} (m : M A) : Prop := ∀ r, ∃ a r', m r = Ok a r'.

(** A computation that keeps a property of the state whenever it returns. *)
Definition keeps {A} (P : Resolver → Prop) (m : M A) : Prop :=
  ∀ r a r', P r → m r = Ok a r' → P r'.

Definition throw {A} : M A := λ _, TypeError.
Definition outOfFuel {A} : M A := λ _, OutOfFuel.

(** Reading a cache. *)
Definition cached {V} (field : Cache → gmap string V) (key : string) : M (option V) :=
  λ r, Ok (field (cache r) !! key) r.

Definition modifyCache (f : Cache → Cache) : M unit :=
  λ r, Ok tt (mkResolver (f (cache r)) (allocated r)).

(** Writing a cache: [this.cache.X[key] = v]. *)
Definition setPropertyNameFromId (key v : string) : M unit :=
  modifyCache (λ c, mkCache (<[key:=v]> (PropertyNameFromId c)) (TypesFromId c)
    (ValueTypesFromId c) (StringValuesFromId c) (PropertiesFromId c)
    (TypedPropertiesFromId c) (ShortNameFromLabel c)).

Definition setTypesFromId (key : string) (v : Arr string) : M unit :=
  modifyCache (λ c, mkCache (PropertyNameFromId c) (<[key:=v]> (TypesFromId c))
    (ValueTypesFromId c) (StringValuesFromId c) (PropertiesFromId c)
    (TypedPropertiesFromId c) (ShortNameFromLabel c)).

Definition setValueTypesFromId (key : string) (v : Arr string) : M unit :=
  modifyCache (λ c, mkCache (PropertyNameFromId c) (TypesFromId c)
    (<[key:=v]> (ValueTypesFromId c)) (StringValuesFromId c) (PropertiesFromId c)
    (TypedPropertiesFromId c) (ShortNameFromLabel c)).

Definition setStringValuesFromId (key : string) (v : Arr string) : M unit :=
  modifyCache (λ c, mkCache (PropertyNameFromId c) (TypesFromId c)
    (ValueTypesFromId c) (<[key:=v]> (StringValuesFromId c)) (PropertiesFromId c)
    (TypedPropertiesFromId c) (ShortNameFromLabel c)).

Definition setPropertiesFromId (key : string) (v : Arr string) : M unit :=
  modifyCache (λ c, mkCache (PropertyNameFromId c) (TypesFromId c)
    (ValueTypesFromId c) (StringValuesFromId c) (<[key:=v]> (PropertiesFromId c))
    (TypedPropertiesFromId c) (ShortNameFromLabel c)).

Definition setTypedPropertiesFromId (key : string) (v : Arr TypedProperty) : M unit :=
  modifyCache (λ c, mkCache (PropertyNameFromId c) (TypesFromId c)
    (ValueTypesFromId c) (StringValuesFromId c) (PropertiesFromId c)
    (<[key:=v]> (TypedPropertiesFromId c)) (ShortNameFromLabel c)).

Definition setShortNameFromLabel (key : string) (v : option string) : M unit :=
  modifyCache (λ c, mkCache (PropertyNameFromId c) (TypesFromId c)
    (ValueTypesFromId c) (StringValuesFromId c) (PropertiesFromId c)
    (TypedPropertiesFromId c) (<[key:=v]> (ShortNameFromLabel c))).

(** A new array: an array literal, or the result of [concat], [uniq] or
    [map].  A local array is given its identity when it escapes (is cached
    or returned); until then only its contents are followed. *)
Definition alloc {A} (l : list A) : M (Arr A) :=
  λ r, Ok (mkArr (allocated r) l) (mkResolver (cache r) (S (allocated r))).

(** [for (const x of l) { acc = body(acc, x) }]. *)
Fixpoint forEach {A B} (l : list A) (acc : B) (body : B → A → M B) : M B :=
  match l with
  | [] => ret acc
  | x :: l' => acc' <- body acc x ;; forEach l' acc' body
  end.

(** ** DigitalTwinMetaModelParser *)

(** The module-level array [LANGUAGE_CODES]. *)
Definition LANGUAGE_CODES_array : Arr string := mkArr 0 LANGUAGE_CODES.

Definition getIdFromShortName (dtContext : DigitalTwinMetaModelContext)
    (shortName : string) : option string :=
  match ctxGet (entries dtContext) shortName with
  | Some shortNameValue => Some (vocab dtContext +:+ pathOf shortNameValue)
  | None => None
  end.

Definition getIdFromLabel (dtContext : DigitalTwinMetaModelContext)
    (label : string) : string :=
  vocab dtContext +:+ label.

Definition getIdFromType (dtContext : DigitalTwinMetaModelContext)
    (type : string) : string :=
  let label :=
    match ctxGet (entries dtContext) type with
    | Some (CtxString value) => value
    | Some (CtxObject id _) => id
    | None => ""
    end in
  let label := if Js.truthy label then label else type in
  getIdFromLabel dtContext label.

(** The loop of [getPropertyNameFromId]: the first key whose path, after the
    vocabulary, is [id]. *)
Definition findPropertyName (dtContext : DigitalTwinMetaModelContext)
    (id : string) : option string :=
  fst <$> List.find (λ kv, String.eqb (vocab dtContext +:+ pathOf (snd kv)) id)
                    (entries dtContext).

Definition getPropertyNameFromId (dtContext : DigitalTwinMetaModelContext)
    (id : string) : M string :=
  hit <- cached PropertyNameFromId id ;;
  match hit with
  | Some key =>
      if Js.truthy key then ret key
      else match findPropertyName dtContext id with
           | Some key => setPropertyNameFromId id key ;;; ret key
           | None => ret id
           end
  | None =>
      match findPropertyName dtContext id with
      | Some key => setPropertyNameFromId id key ;;; ret key
      | None => ret id
      end
  end.

Definition getLabelFromId (dtContext : DigitalTwinMetaModelContext)
    (id : string) : string :=
  let label :=
    if Js.startsWith id (vocab dtContext)
    then Js.substr id (String.length (vocab dtContext)) else "" in
  if Js.truthy label then label else id.

Definition getShortNameFromLabel (dtContext : DigitalTwinMetaModelContext)
    (label : string) : M (option string) :=
  hit <- cached ShortNameFromLabel label ;;
  match hit with
  | Some shortName => ret shortName
  | None =>
      match List.find (λ kv, String.eqb (pathOf (snd kv)) label) (entries dtContext) with
      | Some (key, _) => setShortNameFromLabel label (Some key) ;;; ret (Some key)
      | None =>
          if negb (Js.includesChar "/"%char label)
          then setShortNameFromLabel label (Some label) ;;; ret (Some label)
          else setShortNameFromLabel label None ;;; ret None
      end
  end.

Definition isArrayFromShortName (shortName : string) : bool :=
  Js.includes shortName ["contents"; "schemas"; "fields"; "enumValues"; "implements"].

Definition getShortNameFromId (dtContext : DigitalTwinMetaModelContext)
    (id : string) : string :=
  match List.find (λ kv, negb (isKeyword (fst kv)) &&
                         String.eqb id (vocab dtContext +:+ pathOf (snd kv)))
                  (entries dtContext) with
  | Some (shortName, _) => shortName
  | None =>
      if Js.startsWith id "http://www.w3.org" then Js.pop (Js.split "/"%char id)
      else if Js.startsWith id (vocab dtContext)
           then Js.substr id (String.length (vocab dtContext))
           else id
  end.

Definition isInternationalizationFromId (dtContext : DigitalTwinMetaModelContext)
    (id : string) : bool :=
  match List.find (λ kv, negb (isKeyword (fst kv)) &&
                         match snd kv with
                         | CtxString _ => false
                         | CtxObject _id _ => String.eqb id (vocab dtContext +:+ _id)
                         end)
                  (entries dtContext) with
  | Some (_, CtxObject _ (Some container)) => String.eqb container "@language"
  | _ => false
  end.

(** The [switch] of [getValueTypesFromId]. *)
Definition valueTypeOf (value : string) : list string :=
  if String.eqb value "XMLSchema#boolean" then ["boolean"]
  else if String.eqb value "XMLSchema#int" then ["int"]
  else if String.eqb value "XMLSchema#long" then ["long"]
  else if String.eqb value "XMLSchema#float" then ["float"]
  else if String.eqb value "XMLSchema#double" then ["double"]
  else if String.eqb value "XMLSchema#string" then ["string"]
  else [].

(** The regular expressions of [getStringValuePattern]. *)
Inductive Pattern := urnPattern | namePattern.

Definition isWordChar (a : Ascii.ascii) : bool :=
  let n := Ascii.nat_of_ascii a in
  (Nat.leb 97 n && Nat.leb n 122) || (Nat.leb 65 n && Nat.leb n 90) ||
  (Nat.leb 48 n && Nat.leb n 57) || Nat.eqb n 95.

Definition isDigit (a : Ascii.ascii) : bool :=
  let n := Ascii.nat_of_ascii a in Nat.leb 48 n && Nat.leb n 57.

Fixpoint allChars (p : Ascii.ascii → bool) (s : string) : bool :=
  match s with
  | EmptyString => true
  | String a s' => p a && allChars p s'
  end.

(** [/^[a-zA-Z0-9_]+$/]. *)
Definition isWord (s : string) : bool := Js.truthy s && allChars isWordChar s.

(** [/^\d+$/]. *)
Definition isNumber (s : string) : bool := Js.truthy s && allChars isDigit s.

(** [/^urn:([a-zA-Z0-9_]+:)+[a-zA-Z0-9_]+:\d+$/]: no class of the expression
    contains the colon, so a match is a division at the colons into [urn],
    one word or more, a word and a number. *)
Definition isUrn (s : string) : bool :=
  match Js.split ":"%char s with
  | urn :: segments =>
      String.eqb urn "urn" && Nat.leb 3 (length segments) &&
      forallb isWord (removelast segments) && isNumber (Js.pop segments)
  | [] => false
  end.

(** [pattern.test(s)]. *)
Definition test (pattern : Pattern) (s : string) : bool :=
  match pattern with
  | urnPattern => isUrn s
  | namePattern => isWord s
  end.

(** [pattern.toString()]. *)
Definition patternToString (pattern : Pattern) : string :=
  match pattern with
  | urnPattern => "/^urn:([a-zA-Z0-9_]+:)+[a-zA-Z0-9_]+:\d+$/"
  | namePattern => "/^[a-zA-Z0-9_]+$/"
  end.

Definition getStringValuePattern (key : string) : option Pattern :=
  if String.eqb key "@id" then Some urnPattern
  else if String.eqb key "name" then Some namePattern
  else if String.eqb key "schema" then Some urnPattern
  else None.

Definition getStringValueLengthRange (key : string) : option (nat * nat) :=
  if String.eqb key "@id" then Some (0, 256)
  else if String.eqb key "schema" then Some (0, 256)
  else None.

(** The case labels of [getRequiredPropertiesFromType]. *)
Definition requiredPropertiesTable : list (string * list string) :=
  [ ("Interface", ["@id"; "@type"; "@context"]);
    ("Telemetry", ["@type"; "name"; "schema"]);
    ("Property", ["@type"; "name"; "schema"]);
    ("Command", ["@type"; "name"]);
    ("Array", ["@type"; "elementSchema"]);
    ("Enum", ["@type"; "enumValues"]);
    ("EnumValue", ["name"]);
    ("Map", ["@type"; "mapKey"; "mapValue"]);
    ("MapKey", ["name"; "schema"]);
    ("MapValue", ["name"; "schema"]);
    ("Object", ["@type"; "fields"]);
    ("SchemaField", ["name"; "schema"]);
    ("Boolean", ["@type"]);
    ("Bytes", ["@type"]);
    ("Date", ["@type"]);
    ("DateTime", ["@type"]);
    ("Duration", ["@type"]);
    ("Float", ["@type"]);
    ("Integer", ["@type"]);
    ("Long", ["@type"]);
    ("String", ["@type"]);
    ("Time", ["@type"]);
    ("CapabilityModel", ["@id"; "@type"; "@context"; "implements"]);
    ("InterfaceInstance", ["name"; "schema"]) ].

(** The [switch]: the first case whose label is [type], [default] after the
    last. *)
Fixpoint switch (cases : list (string * list string)) (type : string) : list string :=
  match cases with
  | [] => []
  | (case, result) :: cases' =>
      if String.eqb type case then result else switch cases' type
  end.

Definition getRequiredPropertiesFromType (type : string) : list string :=
  switch requiredPropertiesTable type.

Section Parser.

(** [this.graph]. *)
Variable graph : DigitalTwinMetaModelGraph.

Definition isDomainOf (edge : GraphEdge) (id : string) : bool :=
  String.eqb (Id (TargetNode edge)) id && String.eqb (Label edge) LABEL.DOMAIN.

Definition isSubClassFrom (edge : GraphEdge) (id : string) : bool :=
  String.eqb (Id (SourceNode edge)) id && String.eqb (Label edge) LABEL.SUBCLASS.

Definition isRangeFrom (edge : GraphEdge) (id : string) : bool :=
  String.eqb (Id (SourceNode edge)) id && String.eqb (Label edge) LABEL.RANGE.

Definition isSubClassTo (edge : GraphEdge) (id : string) : bool :=
  String.eqb (Id (TargetNode edge)) id && String.eqb (Label edge) LABEL.SUBCLASS.

Definition isTypeTo (edge : GraphEdge) (id : string) : bool :=
  String.eqb (Id (TargetNode edge)) id && String.eqb (Label edge) LABEL.TYPE.

Fixpoint getPropertiesFromId (fuel : nat) (dtContext : DigitalTwinMetaModelContext)
    (id : string) : M (Arr string) :=
  hit <- cached PropertiesFromId id ;;
  match hit with
  | Some keys => ret keys
  | None =>
      match fuel with
      | O => outOfFuel
      | S fuel' =>
          properties <-
            (if isInternationalizationFromId dtContext id
             then ret (items LANGUAGE_CODES_array)
             else forEach (Edges graph) [] (λ properties edge,
                    if isDomainOf edge id then
                      name <- getPropertyNameFromId dtContext (Id (SourceNode edge)) ;;
                      ret (properties ++ [name])
                    else if isSubClassFrom edge id then
                      super <- getPropertiesFromId fuel' dtContext (Id (TargetNode edge)) ;;
                      ret (properties ++ items super)
                    else ret properties)) ;;
          keys <- alloc (Js.sort (Js.uniq properties)) ;;
          setPropertiesFromId id keys ;;;
          ret keys
      end
  end.

Fixpoint getTypesFromId (fuel : nat) (dtContext : DigitalTwinMetaModelContext)
    (id : string) : M (Arr string) :=
  hit <- cached TypesFromId id ;;
  match hit with
  | Some types => ret types
  | None =>
      match fuel with
      | O => outOfFuel
      | S fuel' =>
          types <- forEach (Edges graph) [] (λ types edge,
            types <-
              (if isRangeFrom edge id then
                 range <- getTypesFromId fuel' dtContext (Id (TargetNode edge)) ;;
                 ret (types ++ items range)
               else ret types) ;;
            if isSubClassTo edge id then
              sub <- getTypesFromId fuel' dtContext (Id (SourceNode edge)) ;;
              ret (types ++ items sub)
            else ret types) ;;
          types <-
            (if Nat.eqb (length types) 0 then
               shortName <- getShortNameFromLabel dtContext (getLabelFromId dtContext id) ;;
               match shortName with
               | Some shortName =>
                   ret (if Js.truthy shortName then types ++ [shortName] else types)
               | None => ret types
               end
             else ret types) ;;
          types <- alloc (Js.sort (Js.uniq types)) ;;
          setTypesFromId id types ;;;
          ret types
      end
  end.

Fixpoint getStringValuesFromId (fuel : nat) (dtContext : DigitalTwinMetaModelContext)
    (id : string) : M (Arr string) :=
  hit <- cached StringValuesFromId id ;;
  match hit with
  | Some values => ret values
  | None =>
      match fuel with
      | O => outOfFuel
      | S fuel' =>
          found <- forEach (Edges graph) ([], false) (λ acc edge,
            let values := fst acc in
            let hasProperty := if isDomainOf edge id then true else snd acc in
            values <-
              (if isRangeFrom edge id then
                 range <- getStringValuesFromId fuel' dtContext (Id (TargetNode edge)) ;;
                 ret (values ++ items range)
               else ret values) ;;
            values <-
              (if isSubClassTo edge id then
                 sub <- getStringValuesFromId fuel' dtContext (Id (SourceNode edge)) ;;
                 ret (values ++ items sub)
               else ret values) ;;
            values <-
              (if isTypeTo edge id then
                 inst <- getStringValuesFromId fuel' dtContext (Id (SourceNode edge)) ;;
                 ret (values ++ items inst)
               else ret values) ;;
            ret (values, hasProperty)) ;;
          let values := fst found in
          let hasProperty := snd found in
          if Nat.eqb (length values) 0 then
            if hasProperty then
              stored <- alloc [] ;;
              setStringValuesFromId id stored ;;;
              alloc []
            else
              let shortName := getShortNameFromId dtContext id in
              values <- alloc (if Js.truthy shortName then values ++ [shortName] else values) ;;
              setStringValuesFromId id values ;;;
              ret values
          else
            values <- alloc values ;;
            setStringValuesFromId id values ;;;
            ret values
      end
  end.

Definition getStringValuesFromShortName (fuel : nat)
    (dtContext : DigitalTwinMetaModelContext) (shortName : string) : M (Arr string) :=
  match getIdFromShortName dtContext shortName with
  | Some id =>
      if String.eqb id "http://azureiot.com/v1/classes/InterfaceInstance/schema"
      then alloc ["XMLSchema#string"]
      else if negb (Js.truthy id) then alloc []
      else getStringValuesFromId fuel dtContext id
  | None => alloc []
  end.

Definition getValueTypesFromId (fuel : nat) (dtContext : DigitalTwinMetaModelContext)
    (id : string) : M (Arr string) :=
  if negb (Js.truthy id) then alloc []
  else
    hit <- cached ValueTypesFromId id ;;
    match hit with
    | Some valueTypes => ret valueTypes
    | None =>
        values <- getStringValuesFromId fuel dtContext id ;;
        valueTypes <- alloc (flat_map valueTypeOf (items values)) ;;
        setValueTypesFromId id valueTypes ;;;
        ret valueTypes
    end.

Definition getTypedPropertiesFromId (fuel : nat)
    (dtContext : DigitalTwinMetaModelContext) (id : string) : M (Arr TypedProperty) :=
  hit <- cached TypedPropertiesFromId id ;;
  match hit with
  | Some results => ret results
  | None =>
      if isInternationalizationFromId dtContext id then
        results <- alloc (map (λ code, {| label := code; required := false;
                                          type := "string" |})
                              (items LANGUAGE_CODES_array)) ;;
        setTypedPropertiesFromId id results ;;;
        ret results
      else
        keys <- getPropertiesFromId fuel dtContext id ;;
        let type := getShortNameFromId dtContext id in
        let getRequiredProperties :=
          if Js.truthy type then getRequiredPropertiesFromType type else [] in
        results <- forEach (items keys) [] (λ results key,
          match getIdFromShortName dtContext key with
          | Some id =>
              if Js.truthy id then
                type <-
                  (if isArrayFromShortName key then ret "array"
                   else valueTypes <- getValueTypesFromId fuel dtContext id ;;
                        ret (hd "" (items valueTypes))) ;;
                ret (results ++ [{| label := key;
                                    required := Js.includes key getRequiredProperties;
                                    type := type |}])
              else ret results
          | None => ret results
          end) ;;
        results <- alloc results ;;
        setTypedPropertiesFromId id results ;;;
        ret results
  end.

Definition getTypedPropertiesFromType (fuel : nat)
    (dtContext : DigitalTwinMetaModelContext) (type : string) : M (Arr TypedProperty) :=
  let id := getIdFromType dtContext type in
  if negb (Js.truthy id) then alloc []
  else getTypedPropertiesFromId fuel dtContext id.

End Parser.

(** ** The parsed document *)

(** Modelled from the spec: the module [./JSON] (parser, value classes and
    spans) is not among the sources.  The spec has the document parsed "into
    a JSON value tree with source-offset spans attached to every node and
    property-name token"; the classes are modelled by what the diagnostics
    read of them: [span], [valueKind] (the constructor), [toFriendlyString],
    [elements], and for objects [properties], [propertyNames], [hasProperty]
    and [getPropertyValue], taken over a property map in which a later
    property replaces an earlier one of the same name. *)
Module Json.

Record Span := { startIndex : nat; endIndex : nat }.

Record Name := { nameSpan : Span; nameText : string }.

#[local] Unset Elimination Schemes.
Inductive Value :=
| ObjectValue (span : Span) (properties : list (Name * Value))
| ArrayValue (span : Span) (elements : list Value)
| StringValue (span : Span) (text : string)
| NumberValue (span : Span) (text : string)
| BooleanValue (span : Span) (b : bool)
| NullValue (span : Span).
#[local] Set Elimination Schemes.

Definition span (v : Value) : Span :=
  match v with
  | ObjectValue s _ | ArrayValue s _ | StringValue s _ | NumberValue s _
  | BooleanValue s _ | NullValue s => s
  end.

Definition toFriendlyString (v : Value) : string :=
  match v with
  | ObjectValue _ _ => "(object)"
  | ArrayValue _ _ => "(array)"
  | StringValue _ text => text
  | NumberValue _ text => text
  | BooleanValue _ b => if b then "true" else "false"
  | NullValue _ => "null"
  end.

Definition elements (v : Value) : list Value :=
  match v with
  | ArrayValue _ es => es
  | _ => []
  end.

Definition properties (v : Value) : list (Name * Value) :=
  match v with
  | ObjectValue _ ps => ps
  | _ => []
  end.

Definition propertyNames (v : Value) : list string :=
  Js.uniq (map (λ p, nameText (fst p)) (properties v)).

Fixpoint lookupLast (ps : list (Name * Value)) (propertyName : string) : option Value :=
  match ps with
  | [] => None
  | (n, v) :: ps' =>
      match lookupLast ps' propertyName with
      | Some v' => Some v'
      | None => if String.eqb (nameText n) propertyName then Some v else None
      end
  end.

Definition getPropertyValue (v : Value) (propertyName : string) : option Value :=
  lookupLast (properties v) propertyName.

Definition hasProperty (v : Value) (propertyName : string) : bool :=
  match getPropertyValue v propertyName with
  | Some _ => true
  | None => false
  end.

(** The depth of the tree below a value. *)
Fixpoint height (v : Value) : nat :=
  match v with
  | ObjectValue _ ps => S (list_max (map (λ p, height (snd p)) ps))
  | ArrayValue _ es => S (list_max (map height es))
  | _ => 0
  end.

(** The result of [parse]: [value] is missing when the text holds no
    value. *)
Record ParseResult := { value : option Value }.

End Json.

(** What the diagnostics read of a [vscode.TextDocument]. *)
Record TextDocument := { fsPath : string; fileName : string; getText : string }.

Record Issue := { startIndex : nat; endIndex : nat; message : string }.

(** The result of [getType]: a string or an array of strings ([null] is
    [None]). *)
Inductive TypeResult :=
| OneType (type : string)
| ManyTypes (types : list string).

(** ** DigitalTwinDiagnostic *)

Section Diagnostic.

Variable graph : DigitalTwinMetaModelGraph.

(** The constants of [../constants] and [./DigitalTwinConstants], which are
    not among the sources. *)
Variables (ContextUris_interface ContextUris_capabilityModel
           ContextUris_iotModel : string).
Variables (ModelType_Interface ModelType_CapabilityModel : string).
Variable DTDLKeywords_inlineInterfaceKeyName : string.

(** [Json.parse], from the module that is not among the sources; [None] is
    a falsy result. *)
Variable parse : string → option Json.ParseResult.

(** [!!jsonKey] for the optional parameter. *)
Definition given (jsonKey : option string) : bool :=
  match jsonKey with
  | Some key => Js.truthy key
  | None => false
  end.

Definition keyIs (jsonKey : option string) (name : string) : bool :=
  match jsonKey with
  | Some key => String.eqb key name
  | None => false
  end.

Definition _isValidStringValue (value : string) (range : list string)
    (caseInsensitive : bool) : bool :=
  let value := if caseInsensitive then Js.toLowerCase value else value in
  existsb (λ testValue,
             String.eqb (if caseInsensitive then Js.toLowerCase testValue else testValue)
                        value)
          range.

(** [/\.interface\.json$/.test(path) ? ModelType.Interface : ModelType.CapabilityModel]. *)
Definition documentTypeOf (path : string) : string :=
  if Js.endsWith path ".interface.json"
  then ModelType_Interface else ModelType_CapabilityModel.

(** The lines that [getType] and [getInvalidTypeIssues] both have: the types
    valid for the value of [jsonKey], or for the document when there is no
    key.  [None] stands for their [return null]. *)
Definition typesFor (fuel : nat) (dtContext : DigitalTwinMetaModelContext)
    (document : TextDocument) (jsonKey : option string) : M (option (list string)) :=
  if given jsonKey then
    match getIdFromShortName dtContext (default "" jsonKey) with
    | Some id =>
        if Js.truthy id
        then types <- getTypesFromId graph fuel dtContext id ;; ret (Some (items types))
        else ret None
    | None => ret None
    end
  else ret (Some [documentTypeOf (fsPath document)]).

Definition getType (fuel : nat) (dtContext : DigitalTwinMetaModelContext)
    (document : TextDocument) (jsonValue : Json.Value) (jsonKey : option string)
    : M (option TypeResult) :=
  let inferred : M (option TypeResult) :=
    types <- typesFor fuel dtContext document jsonKey ;;
    match types with
    | Some [type] => ret (Some (OneType type))
    | _ => ret None
    end in
  if Json.hasProperty jsonValue "@type" then
    match Json.getPropertyValue jsonValue "@type" with
    | Some typeValue =>
        match typeValue with
        | Json.StringValue _ _ => ret (Some (OneType (Json.toFriendlyString typeValue)))
        | Json.ArrayValue _ elements =>
            ret (Some (ManyTypes (map Json.toFriendlyString elements)))
        | _ => inferred
        end
    | None => throw
    end
  else inferred.

Definition getStringPatternIssues (document : TextDocument) (jsonValue : Json.Value)
    (jsonKey : string) : list Issue :=
  let startIndex := Json.startIndex (Json.span jsonValue) in
  let endIndex := Json.endIndex (Json.span jsonValue) in
  let patternIssues :=
    match getStringValuePattern jsonKey with
    | Some pattern =>
        if negb (test pattern (Json.toFriendlyString jsonValue)) then
          let ruleMessage :=
            if String.eqb jsonKey "@id" || String.eqb jsonKey "schema" then
              "The id should be a simple URN which is a multipart string sparated by colons. It must start with the string " +:+
              String (Ascii.ascii_of_nat 34) "urn" +:+ String (Ascii.ascii_of_nat 34)
              ". Each segment may only contain the characters a-z, A-Z, 0-9, and underscore."
            else if String.eqb jsonKey "name" then
              "The name should only contain the characters a-z, A-Z, 0-9, and underscore."
            else patternToString pattern in
          [{| startIndex := startIndex; endIndex := endIndex;
              message := "Invalid value. Valid value must match this: " +:+ ruleMessage |}]
        else []
    | None => []
    end in
  let lengthIssues :=
    match getStringValueLengthRange jsonKey with
    | Some (low, high) =>
        let n := String.length (Json.toFriendlyString jsonValue) in
        if Nat.ltb n low || Nat.ltb high n then
          [{| startIndex := startIndex; endIndex := endIndex;
              message := "Invalid value. Valid value must has length between " +:+
                         Js.join " and " [pretty low; pretty high] +:+ "." |}]
        else []
    | None => []
    end in
  patternIssues ++ lengthIssues.

Definition getStringIssues (fuel : nat) (dtContext : DigitalTwinMetaModelContext)
    (document : TextDocument) (jsonValue : Json.Value) (isInlineInterface : bool)
    (jsonKey : option string) : M (list Issue) :=
  if negb (given jsonKey) then ret []
  else
    let key := default "" jsonKey in
    found <-
      (if String.eqb key "@context" then
         let contextUri :=
           if isInlineInterface then ContextUris_interface
           else if Js.endsWith (fileName document) ".interface.json"
                then ContextUris_interface else ContextUris_capabilityModel in
         ret ([contextUri; ContextUris_iotModel], true)
       else if String.eqb key "@id" then ret (["XMLSchema#string"], true)
       else values <- getStringValuesFromShortName graph fuel dtContext key ;;
            ret (items values, false)) ;;
    let values := fst found in
    let caseInsensitive := snd found in
    if Nat.eqb (length values) 0 then ret []
    else if Js.includes "XMLSchema#string" values then
      ret (getStringPatternIssues document jsonValue key)
    else if negb (_isValidStringValue (Json.toFriendlyString jsonValue) values
                                      caseInsensitive) then
      ret [{| startIndex := Json.startIndex (Json.span jsonValue);
              endIndex := Json.endIndex (Json.span jsonValue);
              message := "Invalid value. Valid values:" +:+ Js.newline +:+
                         Js.join Js.newline values |}]
    else ret [].

(** The accumulator pairs [issues] with [names]. *)
Definition getArrayElementNameIssues (jsonValue : Json.Value)
    (isInlineInterface : bool) : M (list Issue) :=
  found <- forEach (Json.elements jsonValue) ([], []) (λ acc elementValue,
    let issues : list Issue := fst acc in
    let names : list string := snd acc in
    match elementValue with
    | Json.ObjectValue _ _ =>
        if Json.hasProperty elementValue "name" then
          match Json.getPropertyValue elementValue "name" with
          | Some nameValue =>
              match nameValue with
              | Json.StringValue _ _ =>
                  let name := Json.toFriendlyString nameValue in
                  if Js.includes name names then
                    ret (issues ++
                         [{| startIndex := Json.startIndex (Json.span nameValue);
                             endIndex := Json.endIndex (Json.span nameValue);
                             message := name +:+
                               " has already been assigned to another item." |}],
                         names)
                  else ret (issues, names ++ [name])
              | _ => ret acc
              end
          | None => throw
          end
        else ret acc
    | _ => ret acc
    end) ;;
  ret (fst found).

Definition getMissingRequiredPropertiesIssues (jsonValue : Json.Value)
    (type : string) (isInlineInterface : bool) : M (list Issue) :=
  let requiredProperties := getRequiredPropertiesFromType type in
  let missingRequiredProperties :=
    List.filter (λ requiredProperty,
                   negb (Json.hasProperty jsonValue requiredProperty) &&
                   negb (isInlineInterface && String.eqb requiredProperty "@context"))
                requiredProperties in
  let issues :=
    if negb (Nat.eqb (length missingRequiredProperties) 0) then
      [{| startIndex := Json.startIndex (Json.span jsonValue);
          endIndex := Json.startIndex (Json.span jsonValue);
          message := "Missing required properties:" +:+ Js.newline +:+
                     Js.join Js.newline missingRequiredProperties |}]
    else [] in
  forEach (Json.propertyNames jsonValue) issues (λ issues propertyName,
    if negb (Js.includes propertyName requiredProperties) then ret issues
    else match Json.getPropertyValue jsonValue propertyName with
         | Some propertyValue =>
             match propertyValue with
             | Json.ArrayValue span [] =>
                 ret (issues ++ [{| startIndex := Json.startIndex span;
                                    endIndex := Json.startIndex span;
                                    message := propertyName +:+ " cannot be empty." |}])
             | _ => ret issues
             end
         | None => throw
         end).

(** The labels known for one type: [getTypedPropertiesFromType(...).map(...)]
    followed by the required properties. *)
Definition expectedProperties (fuel : nat) (dtContext : DigitalTwinMetaModelContext)
    (type : string) : M (list string) :=
  typed <- getTypedPropertiesFromType graph fuel dtContext type ;;
  ret (map label (items typed) ++ getRequiredPropertiesFromType type).

(** [0, 1, ...] beside the elements: [for (let i = 0; i < a.length; i++)]. *)
Definition indexed {A} (l : list A) : list (nat * A) := zip (seq 0 (length l)) l.

Definition getUnexpectedPropertiesIssues (fuel : nat)
    (dtContext : DigitalTwinMetaModelContext) (jsonValue : Json.Value)
    (type : TypeResult) : M (list Issue) :=
  properties <-
    match type with
    | ManyTypes types =>
        forEach types [] (λ properties currentType,
          current <- expectedProperties fuel dtContext currentType ;;
          ret (properties ++ current))
    | OneType type => expectedProperties fuel dtContext type
    end ;;
  let properties := Js.uniq properties in
  forEach (indexed (Json.propertyNames jsonValue)) [] (λ issues entry,
    let i := fst entry in
    let property := snd entry in
    if negb (String.eqb property "@type") && negb (String.eqb property "@id") &&
       negb (Js.includes property properties) then
      match Json.properties jsonValue !! i with
      | Some (name, _) =>
          ret (issues ++ [{| startIndex := Json.startIndex (Json.nameSpan name);
                             endIndex := Json.endIndex (Json.nameSpan name);
                             message := property +:+ " is unexpected." |}])
      | None => throw
      end
    else ret issues).

Definition getInvalidTypeIssues (fuel : nat) (dtContext : DigitalTwinMetaModelContext)
    (document : TextDocument) (jsonValue : Json.Value) (jsonKey : option string)
    : M (option (list Issue)) :=
  valid <- typesFor fuel dtContext document jsonKey ;;
  match valid with
  | None => ret None
  | Some types =>
      type <- getType fuel dtContext document jsonValue jsonKey ;;
      match type with
      | Some (OneType type) =>
          if negb (Js.includes type types) then
            match Json.getPropertyValue jsonValue "@type" with
            | Some typeValue =>
                ret (Some [{| startIndex := Json.startIndex (Json.span typeValue);
                              endIndex := Json.endIndex (Json.span typeValue);
                              message := "Invalid type. Valid types:" +:+ Js.newline +:+
                                         Js.join Js.newline types |}])
            | None => throw
            end
          else ret None
      | Some (ManyTypes type) =>
          match Json.getPropertyValue jsonValue "@type" with
          | Some typeValue =>
              let startIndex := Json.startIndex (Json.span typeValue) in
              let endIndex := Json.endIndex (Json.span typeValue) in
              let issues :=
                if keyIs jsonKey "contents" then
                  let found :=
                    foldl (λ acc currentType,
                             let issues : list Issue := fst acc in
                             let requiredType : string := snd acc in
                             if Js.includes currentType types then
                               ((if Js.truthy requiredType then
                                   issues ++
                                   [{| startIndex := startIndex; endIndex := endIndex;
                                       message := "Conflict type: " +:+ requiredType +:+
                                                  " and " +:+ currentType +:+ "." |}]
                                 else issues), currentType)
                             else acc)
                          ([], "") type in
                  if negb (Js.truthy (snd found)) then
                    fst found ++
                    [{| startIndex := startIndex; endIndex := endIndex;
                        message := "Missing required type. One of types below is required:" +:+
                                   Js.newline +:+ Js.join "," types |}]
                  else fst found
                else [] in
              issues <- forEach (indexed type) issues (λ issues entry,
                let index := fst entry in
                let currentType := snd entry in
                match Json.elements typeValue !! index with
                | Some currentTypeObject =>
                    let startIndex := Json.startIndex (Json.span currentTypeObject) in
                    let endIndex := Json.endIndex (Json.span currentTypeObject) in
                    if negb (Js.includes currentType types) &&
                       negb (keyIs jsonKey "contents") then
                      ret (issues ++
                           [{| startIndex := startIndex; endIndex := endIndex;
                               message := "Invalid type. Valid types:" +:+ Js.newline +:+
                                          Js.join Js.newline types |}])
                    else if negb (bool_decide (Js.indexOf currentType type = Some index)) then
                      ret (issues ++
                           [{| startIndex := startIndex; endIndex := endIndex;
                               message := currentType +:+ " has already been added before." |}])
                    else ret issues
                | None => throw
                end) ;;
              if negb (Nat.eqb (length issues) 0) then ret (Some issues) else ret None
          | None => throw
          end
      | None => ret None
      end
  end.

(** The three mutually recursive passes over the value tree, and the part
    of [getObjectIssues] that follows the type checks. *)
Fixpoint getJsonValueIssues (fuel : nat) (dtContext : DigitalTwinMetaModelContext)
    (document : TextDocument) (jsonValue : Json.Value) (isInlineInterface : bool)
    (jsonKey : option string) {struct fuel} : M (list Issue) :=
  match fuel with
  | O => outOfFuel
  | S fuel' =>
      match jsonValue with
      | Json.ObjectValue _ _ =>
          getObjectIssues fuel' dtContext document jsonValue isInlineInterface jsonKey
      | Json.ArrayValue _ _ =>
          arrayIssues <- getArrayIssues fuel' dtContext document jsonValue
                                        isInlineInterface jsonKey ;;
          arrayElementNameIssues <- getArrayElementNameIssues jsonValue isInlineInterface ;;
          ret ([] ++ arrayIssues ++ arrayElementNameIssues)
      | Json.StringValue _ _ =>
          getStringIssues fuel' dtContext document jsonValue isInlineInterface jsonKey
      | _ => ret []
      end
  end

with getArrayIssues (fuel : nat) (dtContext : DigitalTwinMetaModelContext)
    (document : TextDocument) (jsonValue : Json.Value) (isInlineInterface : bool)
    (jsonKey : option string) {struct fuel} : M (list Issue) :=
  match fuel with
  | O => outOfFuel
  | S fuel' =>
      forEach (Json.elements jsonValue) [] (λ issues elementValue,
        elementIssues <- getJsonValueIssues fuel' dtContext document elementValue
                                            isInlineInterface jsonKey ;;
        ret (issues ++ elementIssues))
  end

with getObjectIssues (fuel : nat) (dtContext : DigitalTwinMetaModelContext)
    (document : TextDocument) (jsonValue : Json.Value) (isInlineInterface : bool)
    (jsonKey : option string) {struct fuel} : M (list Issue) :=
  match fuel with
  | O => outOfFuel
  | S fuel' =>
      typeIssues <- getInvalidTypeIssues fuel' dtContext document jsonValue jsonKey ;;
      match typeIssues with
      | Some typeIssues => ret typeIssues
      | None =>
          type <- getType fuel' dtContext document jsonValue jsonKey ;;
          let missingType :=
            ret [{| startIndex := Json.startIndex (Json.span jsonValue);
                    endIndex := Json.endIndex (Json.span jsonValue);
                    message := "@type is missing" |}] in
          let checked (type : TypeResult) :=
            issues <-
              match type with
              | ManyTypes types =>
                  forEach types [] (λ issues currentType,
                    missingRequiredPropertiesIssues <-
                      getMissingRequiredPropertiesIssues jsonValue currentType
                                                         isInlineInterface ;;
                    ret (issues ++ missingRequiredPropertiesIssues))
              | OneType type =>
                  getMissingRequiredPropertiesIssues jsonValue type isInlineInterface
              end ;;
            unexpectedPropertiesIssues <-
              getUnexpectedPropertiesIssues fuel' dtContext jsonValue type ;;
            forEach (Json.propertyNames jsonValue) (issues ++ unexpectedPropertiesIssues)
              (λ issues propertyName,
                 let _propertyName :=
                   if isInlineInterface then propertyName
                   else if keyIs jsonKey "implements" && String.eqb propertyName "schema"
                        then DTDLKeywords_inlineInterfaceKeyName else propertyName in
                 let _isInlineInterface :=
                   if isInlineInterface then isInlineInterface
                   else keyIs jsonKey "implements" && String.eqb propertyName "schema" in
                 match Json.getPropertyValue jsonValue propertyName with
                 | Some propertyValue =>
                     childIssues <- getJsonValueIssues fuel' dtContext document propertyValue
                                                       _isInlineInterface (Some _propertyName) ;;
                     ret (issues ++ childIssues)
                 | None => throw
                 end) in
          match type with
          | None => missingType
          | Some (OneType type) =>
              if Js.truthy type then checked (OneType type) else missingType
          | Some (ManyTypes types) => checked (ManyTypes types)
          end
      end
  end.

Fixpoint getTypeIssues (fuel : nat) (dtContext : DigitalTwinMetaModelContext)
    (document : TextDocument) (jsonValue : Json.Value) (jsonKey : option string)
    (isArrayElement : bool) : M (list Issue) :=
  match fuel with
  | O => outOfFuel
  | S fuel' =>
      (* [validTypes] is left out: it only feeds the check that the source
         has commented out. *)
      resolved <-
        (if negb (given jsonKey) then ret (Some ["object"])
         else if negb isArrayElement && isArrayFromShortName (default "" jsonKey)
              then ret (Some ["array"])
              else match getIdFromShortName dtContext (default "" jsonKey) with
                   | Some id =>
                       if Js.truthy id then
                         valueTypes <- getValueTypesFromId graph fuel' dtContext id ;;
                         ret (Some (items valueTypes))
                       else ret None
                   | None => ret None
                   end) ;;
      match resolved with
      | None => ret []
      | Some rawValueTypes =>
          match jsonValue with
          | Json.ArrayValue _ elements =>
              forEach elements [] (λ issues element,
                elementIssues <- getTypeIssues fuel' dtContext document element jsonKey true ;;
                ret (issues ++ elementIssues))
          | Json.ObjectValue _ _ =>
              forEach (Json.propertyNames jsonValue) [] (λ issues key,
                match Json.getPropertyValue jsonValue key with
                | Some value =>
                    valueIssues <- getTypeIssues fuel' dtContext document value
                                                 (Some key) false ;;
                    ret (issues ++ valueIssues)
                | None => throw
                end)
          | Json.NumberValue _ _ =>
              if negb (Js.includes "float" rawValueTypes) &&
                 negb (Js.includes "double" rawValueTypes) then
                let value := Js.Number (Json.toFriendlyString jsonValue) in
                if Js.notInteger value then
                  ret [{| startIndex := Json.startIndex (Json.span jsonValue);
                          endIndex := Json.endIndex (Json.span jsonValue);
                          message := "Invalid value. Valid value is " +:+
                                     Js.join ", " rawValueTypes +:+ "." |}]
                else ret []
              else ret []
          | _ => ret []
          end
      end
  end.

Definition getIssues (fuel : nat) (dtContext : DigitalTwinMetaModelContext)
    (document : TextDocument) : M (list Issue) :=
  match parse (getText document) with
  | Some json =>
      match Json.value json with
      | Some value =>
          issues <- getJsonValueIssues fuel dtContext document value false None ;;
          typeIssues <- getTypeIssues fuel dtContext document value None false ;;
          ret (issues ++ typeIssues)
      | None => ret []
      end
  | None => ret []
  end.

End Diagnostic.


(** ** The property query as a function of the graph and the context *)

(** Modelled after the words of the specification, for comparison with the
    memoised [getPropertiesFromId]: "collect all edges where
    [targetNode.id === id] and [label === domain] -- convert each such source
    node id to a property short name.  Additionally, for every edge where
    [sourceNode.id === id] and [label === subClassOf], recursively union in
    the properties of the superclass target.  Result deduplicated, sorted";
    the language codes stand in for a language container.  No cache: [fuel]
    bounds the depth of the recursion. *)
Module Spec.
Section Spec.

Variable graph : DigitalTwinMetaModelGraph.
Variable dtContext : DigitalTwinMetaModelContext.

(** "scans all context entries, finds the one whose resolved full id equals
    [id]; returns the id itself if none match". *)
Definition propertyNameFromId (id : string) : string :=
  default id (findPropertyName dtContext id).

Fixpoint gather (super : string → option (list string)) (id : string)
    (edges : list GraphEdge) (properties : list string) : option (list string) :=
  match edges with
  | [] => Some properties
  | edge :: edges' =>
      if isDomainOf edge id then
        gather super id edges' (properties ++ [propertyNameFromId (Id (SourceNode edge))])
      else if isSubClassFrom edge id then
        match super (Id (TargetNode edge)) with
        | Some inherited => gather super id edges' (properties ++ inherited)
        | None => None
        end
      else gather super id edges' properties
  end.

Fixpoint propertiesFromId (fuel : nat) (id : string) : option (list string) :=
  match fuel with
  | O => None
  | S fuel' =>
      if isInternationalizationFromId dtContext id
      then Some (Js.sort (Js.uniq LANGUAGE_CODES))
      else match gather (propertiesFromId fuel') id (Edges graph) [] with
           | Some properties => Some (Js.sort (Js.uniq properties))
           | None => None
           end
  end.

End Spec.
End Spec.

(** ** Caches that agree with the graph and the context

    What holds of the caches of a parser that has only been queried under
    the one context: a new parser has it, and the queries keep it. *)

Definition sortedUnique (l : list string) : Prop :=
  StronglySorted Js.le l ∧ NoDup l.

Definition languageProperty (code : string) : TypedProperty :=
  {| label := code; required := false; type := "string" |}.

Record coherent (graph : DigitalTwinMetaModelGraph)
    (dtContext : DigitalTwinMetaModelContext) (r : Resolver) : Prop :=
  { coherent_names : ∀ id key,
      PropertyNameFromId (cache r) !! id = Some key →
      findPropertyName dtContext id = Some key;
    coherent_properties : ∀ id keys,
      PropertiesFromId (cache r) !! id = Some keys →
      ∃ fuel, Spec.propertiesFromId graph dtContext fuel id = Some (items keys);
    coherent_types : ∀ id types,
      TypesFromId (cache r) !! id = Some types → sortedUnique (items types);
    coherent_typed : ∀ id results,
      TypedPropertiesFromId (cache r) !! id = Some results →
      isInternationalizationFromId dtContext id = true →
      items results = map languageProperty LANGUAGE_CODES }.


(** ** Graphs on which the traversals come to an end

    A traversal calls itself along edges: [getPropertiesFromId] from the
    source of a [subClassOf] edge to its target; [getTypesFromId] from the
    source of a [range] edge to its target and from the target of a
    [subClassOf] edge to its source; [getStringValuesFromId] as
    [getTypesFromId], and from the target of a [type] edge to its source.
    A ranking of the ids that every such call lowers shows that the edges
    followed contain no cycle. *)

Definition ranksProperties (graph : DigitalTwinMetaModelGraph) (rank : string → nat) : Prop :=
  Forall (λ edge, Label edge = LABEL.SUBCLASS →
                  rank (Id (TargetNode edge)) < rank (Id (SourceNode edge)))
         (Edges graph).

Definition ranksTypes (graph : DigitalTwinMetaModelGraph) (rank : string → nat) : Prop :=
  Forall (λ edge, (Label edge = LABEL.RANGE →
                   rank (Id (TargetNode edge)) < rank (Id (SourceNode edge))) ∧
                  (Label edge = LABEL.SUBCLASS →
                   rank (Id (SourceNode edge)) < rank (Id (TargetNode edge))))
         (Edges graph).

Definition ranksStringValues (graph : DigitalTwinMetaModelGraph) (rank : string → nat) : Prop :=
  Forall (λ edge, (Label edge = LABEL.RANGE →
                   rank (Id (TargetNode edge)) < rank (Id (SourceNode edge))) ∧
                  (Label edge = LABEL.SUBCLASS →
                   rank (Id (SourceNode edge)) < rank (Id (TargetNode edge))) ∧
                  (Label edge = LABEL.TYPE →
                   rank (Id (SourceNode edge)) < rank (Id (TargetNode edge))))
         (Edges graph).

(** [edge] says that [sub] is a subclass of [super]. *)
Definition subClassOf (edge : GraphEdge) (sub super : string) : Prop :=
  Id (SourceNode edge) = sub ∧ Label edge = LABEL.SUBCLASS ∧ Id (TargetNode edge) = super.


(** ** Sample inputs *)

Module Sample.

Definition node (id : string) : GraphNode := {| Id := id; Value := None |}.

Definition edge (source label target : string) : GraphEdge :=
  {| SourceNode := node source; TargetNode := node target; Label := label |}.

Definition xsd (name : string) : string := "http://www.w3.org/2001/XMLSchema#" +:+ name.

(** A small metamodel: [Telemetry] below [Capability], properties of both,
    and the value types of three properties. *)
Definition graph : DigitalTwinMetaModelGraph :=
  {| Nodes := [];
     Edges :=
       [ edge "v/Telemetry" LABEL.SUBCLASS "v/Capability";
         edge "v/Capability" LABEL.SUBCLASS "v/Entity";
         edge "v/name" LABEL.DOMAIN "v/Entity";
         edge "v/comment" LABEL.DOMAIN "v/Capability";
         edge "v/count" LABEL.DOMAIN "v/Telemetry";
         edge "v/ratio" LABEL.DOMAIN "v/Telemetry";
         edge "v/unit" LABEL.DOMAIN "v/Telemetry";
         edge "v/name" LABEL.RANGE (xsd "string");
         edge "v/count" LABEL.RANGE (xsd "int");
         edge "v/ratio" LABEL.RANGE (xsd "float");
         edge "v/unit" LABEL.RANGE "v/Unit";
         edge "v/unit" LABEL.RANGE "v/Unit";
         edge "v/kelvin" LABEL.TYPE "v/Unit";
         edge "v/celsius" LABEL.TYPE "v/Unit";
         edge "v/displayName" LABEL.DOMAIN "v/Entity" ] |}.

Definition context : DigitalTwinMetaModelContext :=
  {| vocab := "v/";
     entries :=
       [ ("@vocab", CtxString "v/");
         ("Telemetry", CtxString "Telemetry");
         ("Capability", CtxString "Capability");
         ("name", CtxString "name");
         ("comment", CtxString "comment");
         ("count", CtxString "count");
         ("ratio", CtxString "ratio");
         ("unit", CtxString "unit");
         ("schema", CtxString "schema");
         ("displayName", CtxObject "displayName" (Some "@language")) ] |}.

(** A metamodel in which the language container is declared below a class. *)
Definition localized : DigitalTwinMetaModelGraph :=
  {| Nodes := [];
     Edges :=
       [ edge "v/displayName" LABEL.SUBCLASS "v/Capability";
         edge "v/Capability" LABEL.SUBCLASS "v/Entity";
         edge "v/name" LABEL.DOMAIN "v/Entity";
         edge "v/comment" LABEL.DOMAIN "v/Capability" ] |}.

(** A graph with a class below itself. *)
Definition cyclic : DigitalTwinMetaModelGraph :=
  {| Nodes := []; Edges := [ edge "v/Telemetry" LABEL.SUBCLASS "v/Telemetry" ] |}.

(** A context that sends a short name to the schema of an interface
    instance. *)
Definition instanceContext : DigitalTwinMetaModelContext :=
  {| vocab := "http://azureiot.com/v1/classes/";
     entries :=
       [ ("@vocab", CtxString "http://azureiot.com/v1/classes/");
         ("schema", CtxString "InterfaceInstance/schema") ] |}.

Definition span (a b : nat) : Json.Span := {| Json.startIndex := a; Json.endIndex := b |}.

Definition name (a b : nat) (text : string) : Json.Name :=
  {| Json.nameSpan := span a b; Json.nameText := text |}.

(** The ranks of the ids of [graph]: properties above what they range over,
    classes above their subclasses and their instances. *)
Definition rank (id : string) : nat :=
  if String.eqb id "v/Entity" then 3
  else if String.eqb id "v/Capability" then 2
  else if String.eqb id "v/Telemetry" then 1
  else if String.eqb id "v/Unit" then 1
  else if String.eqb id "v/unit" then 2
  else if String.eqb id "v/name" then 1
  else if String.eqb id "v/count" then 1
  else if String.eqb id "v/ratio" then 1
  else 0.

Definition document : TextDocument :=
  {| fsPath := "/models/thermostat.interface.json";
     fileName := "/models/thermostat.interface.json";
     getText := "{" |}.

(** [[{"name": "temp"}, {"name": "temp"}]]. *)
Definition twoTemps : Json.Value :=
  Json.ArrayValue (span 0 34)
    [ Json.ObjectValue (span 1 16) [ (name 2 7 "name", Json.StringValue (span 10 15) "temp") ];
      Json.ObjectValue (span 19 33) [ (name 20 25 "name", Json.StringValue (span 28 33) "temp") ] ].

(** [{"@type": "Telemetry", "name": "temp", "count": 3.5}]. *)
Definition thermostat : Json.Value :=
  Json.ObjectValue (span 0 52)
    [ (name 1 8 "@type", Json.StringValue (span 10 21) "Telemetry");
      (name 23 29 "name", Json.StringValue (span 31 37) "temp");
      (name 39 46 "count", Json.NumberValue (span 48 51) "3.5") ].

(** A parser that reads [thermostat] in any text. *)
Definition parsed (text : string) : option Json.ParseResult :=
  Some {| Json.value := Some thermostat |}.

End Sample.

(** ** The queries of the parser that the diagnostics do not call *)

(** [getCommentFromId] reads and writes [cache.CommnetFromId] and nothing
    else, and no other method touches that cache: it is threaded through on
    its own.  The result [None] is [undefined]. *)
Definition getCommentFromId (graph : DigitalTwinMetaModelGraph) (id : string)
    (CommnetFromId : gmap string string) : option string * gmap string string :=
  match CommnetFromId !! id with
  | Some comment => (Some comment, CommnetFromId)
  | None =>
      match List.find (λ edge, String.eqb (Id (SourceNode edge)) id &&
                               String.eqb (Label edge) LABEL.COMMENT)
                      (Edges graph) with
      | Some edge =>
          (Value (TargetNode edge),
           <[id := match Value (TargetNode edge) with
                   | Some value => if Js.truthy value then value else ""
                   | None => ""
                   end]> CommnetFromId)
      | None => (None, <[id := ""]> CommnetFromId)
      end
  end.

Definition getPropertiesFromType (graph : DigitalTwinMetaModelGraph) (fuel : nat)
    (dtContext : DigitalTwinMetaModelContext) (type : string) : M (Arr string) :=
  let id := getIdFromType dtContext type in
  if negb (Js.truthy id) then alloc []
  else getPropertiesFromId graph fuel dtContext id.

(** ** Notions used to state what the queries and the checks do *)

(** The caches of [r'] hold what those of [r] hold: every entry that a query
    would take as a hit is still there, with the same array.  (An empty
    string in [PropertyNameFromId] is not a hit, see
    [getPropertyNameFromId].) *)
Record extends (r r' : Resolver) : Prop :=
  { extends_names : ∀ id key,
      PropertyNameFromId (cache r) !! id = Some key → Js.truthy key = true →
      PropertyNameFromId (cache r') !! id = Some key;
    extends_types : TypesFromId (cache r) ⊆ TypesFromId (cache r');
    extends_valueTypes : ValueTypesFromId (cache r) ⊆ ValueTypesFromId (cache r');
    extends_stringValues : StringValuesFromId (cache r) ⊆ StringValuesFromId (cache r');
    extends_properties : PropertiesFromId (cache r) ⊆ PropertiesFromId (cache r');
    extends_typed : TypedPropertiesFromId (cache r) ⊆ TypedPropertiesFromId (cache r');
    extends_shortNames : ShortNameFromLabel (cache r) ⊆ ShortNameFromLabel (cache r');
    extends_allocated : allocated r ≤ allocated r' }.

(** A computation that, when it returns, has only added to the caches. *)
Definition grows {A} (m : M A) : Prop := ∀ r a r', m r = Ok a r' → extends r r'.

(** The names that [getValueTypesFromId] gives to the XSD types. *)
Definition primitiveTypes : list string :=
  ["boolean"; "int"; "long"; "float"; "double"; "string"].

(** Every cached list of value types is made of these names. *)
Definition primitiveValueTypes (r : Resolver) : Prop :=
  ∀ id valueTypes,
    ValueTypesFromId (cache r) !! id = Some valueTypes →
    Forall (λ t, t ∈ primitiveTypes) (items valueTypes).

(** [value] is a node of the tree of [document]. *)
Inductive within (value : Json.Value) : Json.Value → Prop :=
| within_here : within value value
| within_element span elements element :
    element ∈ elements → within value element →
    within value (Json.ArrayValue span elements)
| within_property span properties property :
    property ∈ properties → within value (snd property) →
    within value (Json.ObjectValue span properties).

(** The name of an array element, as [getArrayElementNameIssues] reads it:
    the text of the property [name] of an object, when it is a string. *)
Definition elementName (element : Json.Value) : option string :=
  match element with
  | Json.ObjectValue _ _ =>
      match Json.getPropertyValue element "name" with
      | Some (Json.StringValue _ text) => Some text
      | _ => None
      end
  | _ => None
  end.

(** ** More sample inputs *)

Module Sample2.

(** A metamodel with comments: one with a text, one whose node has no
    value. *)
Definition commented : DigitalTwinMetaModelGraph :=
  {| Nodes := [];
     Edges :=
       [ {| SourceNode := Sample.node "v/Telemetry";
            TargetNode := {| Id := "_:c1"; Value := Some "A stream of values." |};
            Label := LABEL.COMMENT |};
         {| SourceNode := Sample.node "v/Command";
            TargetNode := Sample.node "_:c2";
            Label := LABEL.COMMENT |};
         Sample.edge "v/Telemetry" LABEL.SUBCLASS "v/Capability" ] |}.

(** [[{"name": "a"}, {"name": "b"}, {"name": "a"}, 7, {"name": "a"}]]. *)
Definition named (a b : nat) (text : string) : Json.Value :=
  Json.ObjectValue (Sample.span a b)
    [ (Sample.name (a + 1) (a + 7) "name", Json.StringValue (Sample.span (a + 9) (b - 1)) text) ].

Definition names : Json.Value :=
  Json.ArrayValue (Sample.span 0 64)
    [ named 1 14 "a"; named 16 29 "b"; named 31 44 "a";
      Json.NumberValue (Sample.span 46 47) "7"; named 49 62 "a" ].

(** [{"@type": "Telemetry", "name": "temp", "schema": [], "color": 1}]. *)
Definition telemetry : Json.Value :=
  Json.ObjectValue (Sample.span 0 62)
    [ (Sample.name 1 8 "@type", Json.StringValue (Sample.span 10 21) "Telemetry");
      (Sample.name 23 29 "name", Json.StringValue (Sample.span 31 37) "temp");
      (Sample.name 39 47 "schema", Json.ArrayValue (Sample.span 49 51) []);
      (Sample.name 53 60 "color", Json.NumberValue (Sample.span 62 63) "1") ].

(** The context of [Sample.context] for the ids of [Sample.localized], but
    with [displayName] as a plain entry: no language container. *)
Definition plain : DigitalTwinMetaModelContext :=
  {| vocab := "v/";
     entries :=
       [ ("@vocab", CtxString "v/");
         ("name", CtxString "name");
         ("comment", CtxString "comment");
         ("displayName", CtxString "displayName") ] |}.

(** A context with two object entries for one id, the language container
    second. *)
Definition twice : DigitalTwinMetaModelContext :=
  {| vocab := "v/";
     entries :=
       [ ("@vocab", CtxString "v/");
         ("title", CtxObject "displayName" None);
         ("displayName", CtxObject "displayName" (Some "@language")) ] |}.

(** A chain of classes, each the subclass of the next: [chain n] has [n]
    edges, from the first class [chainId 0] up to [chainId n]. *)
Fixpoint chainId (k : nat) : string :=
  String "c"%char (match k with O => "" | S k' => chainId k' end).

Definition chain (n : nat) : DigitalTwinMetaModelGraph :=
  {| Nodes := [];
     Edges := map (λ k, Sample.edge (chainId k) LABEL.SUBCLASS (chainId (S k)))
                  (seq 0 n) |}.

(** A context with a vocabulary and nothing else. *)
Definition bare : DigitalTwinMetaModelContext :=
  {| vocab := "v/"; entries := [ ("@vocab", CtxString "v/") ] |}.

End Sample2.

(** * Properties *)

Set Warnings "-clear-no-such-hyp".

(** ** The order of [sort] and the lists it returns *)

Lemma String_compare_refl (s : string) : String.compare s s = Eq.
Proof.
  induction s as [|a s IH]; simpl; [done|].
  unfold Ascii.compare. by rewrite N.compare_refl.
Qed.

Lemma String_leb_trans (a b c : string) :
  String.leb a b = true → String.leb b c = true → String.leb a c = true.
Proof.
  unfold String.leb. revert b c.
  induction a as [|x a IH]; intros [|y b] [|z c]; simpl; try done.
  unfold Ascii.compare.
  destruct (N.compare_spec (Ascii.N_of_ascii x) (Ascii.N_of_ascii y));
    destruct (N.compare_spec (Ascii.N_of_ascii y) (Ascii.N_of_ascii z));
    destruct (N.compare_spec (Ascii.N_of_ascii x) (Ascii.N_of_ascii z));
    try done; try lia; apply IH.
Qed.

#[global] Instance Js_le_trans : Transitive Js.le.
Proof.
  intros a b c Hab Hbc. unfold Js.le in *.
  apply Is_true_true. eapply String_leb_trans; by apply Is_true_true.
Qed.

#[global] Instance Js_le_total : Total Js.le.
Proof.
  intros a b. unfold Js.le.
  destruct (String.leb_total a b) as [H|H]; [left|right]; by apply Is_true_true.
Qed.

#[global] Instance Js_le_antisym : AntiSymm (=) Js.le.
Proof.
  intros a b Hab Hba. unfold Js.le in *.
  apply String.leb_antisym; by apply Is_true_true.
Qed.

Lemma Js_includes_elem (x : string) (l : list string) :
  Js.includes x l = true ↔ x ∈ l.
Proof.
  unfold Js.includes. rewrite existsb_exists. split.
  - intros (y & Hy & Heq). apply String.eqb_eq in Heq. subst.
    by apply list_elem_of_In.
  - intros H. exists x. split; [by apply list_elem_of_In | apply String.eqb_refl].
Qed.

Lemma Js_includes_false (x : string) (l : list string) :
  Js.includes x l = false ↔ x ∉ l.
Proof.
  rewrite <- Js_includes_elem. destruct (Js.includes x l); naive_solver.
Qed.

Lemma Js_uniqAcc_elem (seen l : list string) (x : string) :
  x ∈ Js.uniqAcc seen l ↔ x ∈ l ∧ x ∉ seen.
Proof.
  revert seen. induction l as [|y l IH]; intros seen; simpl.
  - set_solver.
  - destruct (Js.includes y seen) eqn:E.
    + apply Js_includes_elem in E. rewrite IH. set_solver.
    + apply Js_includes_false in E. rewrite elem_of_cons, IH.
      destruct (decide (x = y)); set_solver.
Qed.

Lemma Js_uniqAcc_NoDup (seen l : list string) : NoDup (Js.uniqAcc seen l).
Proof.
  revert seen. induction l as [|y l IH]; intros seen; simpl.
  - constructor.
  - destruct (Js.includes y seen); [apply IH|].
    constructor; [|apply IH]. rewrite Js_uniqAcc_elem. set_solver.
Qed.

Lemma Js_uniq_elem (l : list string) (x : string) : x ∈ Js.uniq l ↔ x ∈ l.
Proof. unfold Js.uniq. rewrite Js_uniqAcc_elem. set_solver. Qed.

Lemma Js_uniq_NoDup (l : list string) : NoDup (Js.uniq l).
Proof. apply Js_uniqAcc_NoDup. Qed.

Lemma Js_uniqAcc_length (seen l : list string) :
  (length (Js.uniqAcc seen l) ≤ length l)%nat.
Proof.
  revert seen. induction l as [|y l IH]; intros seen; simpl; [lia|].
  destruct (Js.includes y seen); simpl.
  - specialize (IH seen). lia.
  - specialize (IH (y :: seen)). lia.
Qed.

Lemma Js_sort_elem (l : list string) (x : string) : x ∈ Js.sort l ↔ x ∈ l.
Proof. unfold Js.sort. by rewrite merge_sort_Permutation. Qed.

Lemma Js_sort_sorted (l : list string) : StronglySorted Js.le (Js.sort l).
Proof. apply StronglySorted_merge_sort; apply _. Qed.

Lemma Js_sort_NoDup (l : list string) : NoDup l → NoDup (Js.sort l).
Proof. unfold Js.sort. by rewrite merge_sort_Permutation. Qed.

Lemma sortedUnique_sort_uniq (l : list string) : sortedUnique (Js.sort (Js.uniq l)).
Proof. split; [apply Js_sort_sorted | apply Js_sort_NoDup, Js_uniq_NoDup]. Qed.

Lemma sort_uniq_elem (l : list string) (x : string) :
  x ∈ Js.sort (Js.uniq l) ↔ x ∈ l.
Proof. by rewrite Js_sort_elem, Js_uniq_elem. Qed.

(** ** Reasoning about the monad *)

Lemma bind_Ok {A B} (m : M A) (k : A → M B) r b r' :
  bind m k r = Ok b r' ↔ ∃ a r1, m r = Ok a r1 ∧ k a r1 = Ok b r'.
Proof.
  unfold bind. destruct (m r) as [a r1| |]; split.
  - intros H. by exists a, r1.
  - by intros (a' & r1' & [= <- <-] & H).
  - done.
  - by intros (? & ? & ? & _).
  - done.
  - by intros (? & ? & ? & _).
Qed.

Lemma ret_Ok {A} (a b : A) r r' : ret a r = Ok b r' ↔ a = b ∧ r = r'.
Proof. unfold ret. split; [by intros [= -> ->] | by intros [-> ->]]. Qed.

Lemma returns_ret {A} (a : A) : returns (ret a).
Proof. intros r. by exists a, r. Qed.

Lemma returns_bind {A B} (m : M A) (k : A → M B) :
  returns m → (∀ a, returns (k a)) → returns (bind m k).
Proof.
  intros Hm Hk r. destruct (Hm r) as (a & r1 & Ha).
  destruct (Hk a r1) as (b & r2 & Hb).
  exists b, r2. unfold bind. by rewrite Ha.
Qed.

Lemma returns_forEach {A B} (l : list A) (body : B → A → M B) :
  (∀ acc x, x ∈ l → returns (body acc x)) → ∀ acc, returns (forEach l acc body).
Proof.
  induction l as [|x l IH]; intros Hbody acc; simpl.
  - apply returns_ret.
  - apply returns_bind.
    + apply Hbody. by left.
    + intros acc'. apply IH. intros acc'' y Hy. apply Hbody. by right.
Qed.

Lemma returns_cached {V} (field : Cache → gmap string V) key :
  returns (cached field key).
Proof. intros r. by eexists _, _. Qed.

Lemma returns_modifyCache f : returns (modifyCache f).
Proof. intros r. by eexists _, _. Qed.

Lemma returns_alloc {A} (l : list A) : returns (alloc l).
Proof. intros r. by eexists _, _. Qed.

(** One step of a loop. *)
Lemma forEach_cons {A B} (x : A) (l : list A) (acc : B) (body : B → A → M B) r :
  forEach (x :: l) acc body r =
    match body acc x r with
    | Ok acc' r' => forEach l acc' body r'
    | TypeError => TypeError
    | OutOfFuel => OutOfFuel
    end.
Proof. reflexivity. Qed.


(** ** The table of required properties *)

Lemma switch_default (cases : list (string * list string)) (type : string) :
  type ∉ map fst cases → switch cases type = [].
Proof.
  induction cases as [|[case result] cases IH]; simpl; [done|].
  intros Hnot. apply not_elem_of_cons in Hnot as [Hne Hnot].
  destruct (String.eqb_spec type case); [done | by apply IH].
Qed.

(** C6.  [getRequiredPropertiesFromType('Interface')] is exactly
    ['@id', '@type', '@context'], and a type name that is none of the case
    labels of the table gets the empty list. *)
Theorem getRequiredPropertiesFromType_table :
  getRequiredPropertiesFromType "Interface" = ["@id"; "@type"; "@context"] ∧
  ∀ type : string,
    type ∉ map fst requiredPropertiesTable →
    getRequiredPropertiesFromType type = [].
Proof.
  split; [reflexivity|].
  intros type Hnot. by apply switch_default.
Qed.

Lemma getRequiredPropertiesFromType_table_witness :
  ("Sensor" ∉ map fst requiredPropertiesTable) ∧
  getRequiredPropertiesFromType "Sensor" = [].
Proof.
  assert (H : "Sensor" ∉ map fst requiredPropertiesTable).
  { apply Js_includes_false. vm_compute. reflexivity. }
  split; [exact H|].
  exact (proj2 getRequiredPropertiesFromType_table "Sensor" H).
Defined.

(** ** The sample contexts are context objects *)

Example Sample_context_wf : wfContext Sample.context.
Proof.
  split; [apply (bool_decide_unpack _); vm_compute; exact I|].
  apply list_elem_of_In. simpl. tauto.
Qed.

Example Sample_instanceContext_wf : wfContext Sample.instanceContext.
Proof.
  split; [apply (bool_decide_unpack _); vm_compute; exact I|].
  apply list_elem_of_In. simpl. tauto.
Qed.

(** ** Shortcuts of [getStringValuesFromShortName] *)

(** C10.  Under every context, a short name that resolves to the schema of
    an interface instance gets exactly ['XMLSchema#string'], whatever the
    graph, the fuel and the caches (which stay as they are), so that
    [getStringIssues] hands its value to the pattern check; a short name that
    the context does not map gets the empty list. *)
Theorem getStringValuesFromShortName_shortcuts
    (graph : DigitalTwinMetaModelGraph) (fuel : nat)
    (dtContext : DigitalTwinMetaModelContext) (shortName : string) (r : Resolver) :
  (getIdFromShortName dtContext shortName =
     Some "http://azureiot.com/v1/classes/InterfaceInstance/schema" →
   getStringValuesFromShortName graph fuel dtContext shortName r =
     Ok (mkArr (allocated r) ["XMLSchema#string"])
        (mkResolver (cache r) (S (allocated r))) ∧
   ∀ uri1 uri2 uri3 document jsonValue isInlineInterface,
     Js.truthy shortName = true → shortName ≠ "@context" → shortName ≠ "@id" →
     getStringIssues graph uri1 uri2 uri3 fuel dtContext document jsonValue
                     isInlineInterface (Some shortName) r =
       Ok (getStringPatternIssues document jsonValue shortName)
          (mkResolver (cache r) (S (allocated r)))) ∧
  (getIdFromShortName dtContext shortName = None →
   getStringValuesFromShortName graph fuel dtContext shortName r =
     Ok (mkArr (allocated r) []) (mkResolver (cache r) (S (allocated r)))).
Proof.
  split.
  - intros Hid.
    assert (Hvalues : getStringValuesFromShortName graph fuel dtContext shortName r =
              Ok (mkArr (allocated r) ["XMLSchema#string"])
                 (mkResolver (cache r) (S (allocated r)))).
    { unfold getStringValuesFromShortName. rewrite Hid. reflexivity. }
    split; [exact Hvalues|].
    intros uri1 uri2 uri3 document jsonValue isInlineInterface Htruthy Hctx Hatid.
    unfold getStringIssues. simpl. rewrite Htruthy. simpl.
    apply String.eqb_neq in Hctx, Hatid. rewrite Hctx, Hatid.
    unfold bind at 1. unfold bind at 1. rewrite Hvalues. reflexivity.
  - intros Hid. unfold getStringValuesFromShortName. rewrite Hid. reflexivity.
Qed.

Lemma getStringValuesFromShortName_shortcuts_witness :
  items <$> (match getStringValuesFromShortName Sample.cyclic 0 Sample.instanceContext
                     "schema" newResolver with
             | Ok values _ => Some values
             | _ => None
             end) = Some ["XMLSchema#string"] ∧
  items <$> (match getStringValuesFromShortName Sample.cyclic 0 Sample.instanceContext
                     "interfaceId" newResolver with
             | Ok values _ => Some values
             | _ => None
             end) = Some [].
Proof.
  pose proof (getStringValuesFromShortName_shortcuts Sample.cyclic 0
                Sample.instanceContext "schema" newResolver) as [Hschema _].
  pose proof (getStringValuesFromShortName_shortcuts Sample.cyclic 0
                Sample.instanceContext "interfaceId" newResolver) as [_ Hnone].
  split.
  - destruct (Hschema ltac:(reflexivity)) as [-> _]. reflexivity.
  - rewrite (Hnone ltac:(reflexivity)). reflexivity.
Defined.

(** ** Names repeated among the elements of an array *)

Lemma getPropertyValue_object (v : Json.Value) (propertyName : string) (value : Json.Value) :
  Json.getPropertyValue v propertyName = Some value →
  ∃ span properties, v = Json.ObjectValue span properties.
Proof.
  destruct v; try discriminate. intros _. by eexists _, _.
Qed.

(** C7.  For an array of two objects whose [name] is the string "temp", the
    check of the element names returns exactly one issue, on the span of the
    second [name] value. *)
Theorem getArrayElementNameIssues_two_temps
    (span span1 span2 : Json.Span) (first second : Json.Value)
    (isInlineInterface : bool) (r : Resolver) :
  Json.getPropertyValue first "name" = Some (Json.StringValue span1 "temp") →
  Json.getPropertyValue second "name" = Some (Json.StringValue span2 "temp") →
  getArrayElementNameIssues (Json.ArrayValue span [first; second]) isInlineInterface r =
    Ok [{| startIndex := Json.startIndex span2;
           endIndex := Json.endIndex span2;
           message := "temp has already been assigned to another item." |}] r.
Proof.
  intros H1 H2.
  destruct (getPropertyValue_object _ _ _ H1) as (s1 & ps1 & ->).
  destruct (getPropertyValue_object _ _ _ H2) as (s2 & ps2 & ->).
  unfold getArrayElementNameIssues. simpl.
  unfold Json.hasProperty. rewrite H1, H2. reflexivity.
Qed.

Lemma getArrayElementNameIssues_two_temps_witness :
  getArrayElementNameIssues Sample.twoTemps false newResolver =
    Ok [{| startIndex := 28; endIndex := 33;
           message := "temp has already been assigned to another item." |}] newResolver.
Proof.
  apply (getArrayElementNameIssues_two_temps (Sample.span 0 34) (Sample.span 10 15)
           (Sample.span 28 33)); reflexivity.
Defined.

(** ** Numbers against the resolved value types *)

(** C8.  For a key that is not taken as an array and whose id resolves to
    the value types ['int'], the literal 3.5 gets exactly one issue from
    [getTypeIssues]; with ['float'] it gets none. *)
Theorem getTypeIssues_integrality
    (graph : DigitalTwinMetaModelGraph) (fuel : nat)
    (dtContext : DigitalTwinMetaModelContext) (document : TextDocument)
    (span : Json.Span) (jsonKey id : string) (isArrayElement : bool)
    (valueTypes : Arr string) (r r' : Resolver) :
  Js.truthy jsonKey = true →
  negb isArrayElement && isArrayFromShortName jsonKey = false →
  getIdFromShortName dtContext jsonKey = Some id →
  Js.truthy id = true →
  getValueTypesFromId graph fuel dtContext id r = Ok valueTypes r' →
  (items valueTypes = ["int"] →
   getTypeIssues graph (S fuel) dtContext document (Json.NumberValue span "3.5")
                 (Some jsonKey) isArrayElement r =
     Ok [{| startIndex := Json.startIndex span;
            endIndex := Json.endIndex span;
            message := "Invalid value. Valid value is int." |}] r') ∧
  (items valueTypes = ["float"] →
   getTypeIssues graph (S fuel) dtContext document (Json.NumberValue span "3.5")
                 (Some jsonKey) isArrayElement r = Ok [] r').
Proof.
  intros Hkey Harray Hid Htruthy Hvalues.
  split; intros Hitems; simpl; rewrite Hkey; simpl; rewrite Harray, Hid, Htruthy;
    unfold bind at 1; unfold bind at 1; rewrite Hvalues; simpl; rewrite Hitems;
    reflexivity.
Qed.

Lemma getTypeIssues_integrality_witness :
  (∃ r', getTypeIssues Sample.graph 3 Sample.context Sample.document
           (Json.NumberValue (Sample.span 10 13) "3.5") (Some "count") false newResolver =
         Ok [{| startIndex := 10; endIndex := 13;
                message := "Invalid value. Valid value is int." |}] r') ∧
  (∃ r', getTypeIssues Sample.graph 3 Sample.context Sample.document
           (Json.NumberValue (Sample.span 10 13) "3.5") (Some "ratio") false newResolver =
         Ok [] r').
Proof.
  split.
  - destruct (getValueTypesFromId Sample.graph 2 Sample.context "v/count" newResolver)
      as [valueTypes r'| |] eqn:Hvalues; [|vm_compute in Hvalues; discriminate..].
    exists r'.
    refine (proj1 (getTypeIssues_integrality Sample.graph 2 Sample.context Sample.document
             (Sample.span 10 13) "count" "v/count" false valueTypes newResolver r'
             _ _ _ _ Hvalues) _); try reflexivity.
    vm_compute in Hvalues. injection Hvalues as <- _. reflexivity.
  - destruct (getValueTypesFromId Sample.graph 2 Sample.context "v/ratio" newResolver)
      as [valueTypes r'| |] eqn:Hvalues; [|vm_compute in Hvalues; discriminate..].
    exists r'.
    refine (proj2 (getTypeIssues_integrality Sample.graph 2 Sample.context Sample.document
             (Sample.span 10 13) "ratio" "v/ratio" false valueTypes newResolver r'
             _ _ _ _ Hvalues) _); try reflexivity.
    vm_compute in Hvalues. injection Hvalues as <- _. reflexivity.
Defined.

(** ** Inversion of monadic computations *)

Lemma cached_Ok {V} (field : Cache → gmap string V) key (v : option V) r r' :
  cached field key r = Ok v r' ↔ v = field (cache r) !! key ∧ r' = r.
Proof. unfold cached. split; [by intros [= <- <-] | by intros [-> ->]]. Qed.

Lemma alloc_Ok {A} (l : list A) a r r' :
  alloc l r = Ok a r' ↔
  a = mkArr (allocated r) l ∧ r' = mkResolver (cache r) (S (allocated r)).
Proof. unfold alloc. split; [by intros [= <- <-] | by intros [-> ->]]. Qed.

Lemma modifyCache_Ok f u r r' :
  modifyCache f r = Ok u r' ↔ r' = mkResolver (f (cache r)) (allocated r).
Proof. unfold modifyCache. destruct u. split; [by intros [= <-] | by intros ->]. Qed.

Lemma bind_cached {V B} (field : Cache → gmap string V) key (k : option V → M B) r :
  bind (cached field key) k r = k (field (cache r) !! key) r.
Proof. reflexivity. Qed.

(** Takes apart the hypotheses that say that a sequence of steps returned. *)
Ltac monad_inv :=
  repeat (cbv beta in *;
    match goal with
    | H : bind _ _ _ = Ok _ _ |- _ =>
        let a := fresh "a" in let r := fresh "r" in
        let H1 := fresh "Hstep" in let H2 := fresh "Hrest" in
        apply bind_Ok in H as (a & r & H1 & H2)
    | H : ret _ _ = Ok _ _ |- _ => apply ret_Ok in H as [? ?]; subst
    | H : cached _ _ _ = Ok _ _ |- _ => apply cached_Ok in H as [? ?]; subst
    | H : alloc _ _ = Ok _ _ |- _ => apply alloc_Ok in H as [? ?]; subst
    | H : modifyCache _ _ = Ok _ _ |- _ => apply modifyCache_Ok in H; subst
    | H : throw _ = Ok _ _ |- _ => discriminate H
    | H : outOfFuel _ = Ok _ _ |- _ => discriminate H
    | H : TypeError = Ok _ _ |- _ => discriminate H
    | H : OutOfFuel = Ok _ _ |- _ => discriminate H
    end).

(** The equations of the recursive queries. *)
Lemma getPropertiesFromId_unfold graph fuel dtContext id :
  getPropertiesFromId graph fuel dtContext id =
  (hit <- cached PropertiesFromId id ;;
   match hit with
   | Some keys => ret keys
   | None =>
       match fuel with
       | O => outOfFuel
       | S fuel' =>
           properties <-
             (if isInternationalizationFromId dtContext id
              then ret (items LANGUAGE_CODES_array)
              else forEach (Edges graph) [] (λ properties edge,
                     if isDomainOf edge id then
                       name <- getPropertyNameFromId dtContext (Id (SourceNode edge)) ;;
                       ret (properties ++ [name])
                     else if isSubClassFrom edge id then
                       super <- getPropertiesFromId graph fuel' dtContext (Id (TargetNode edge)) ;;
                       ret (properties ++ items super)
                     else ret properties)) ;;
           keys <- alloc (Js.sort (Js.uniq properties)) ;;
           setPropertiesFromId id keys ;;;
           ret keys
       end
   end).
Proof. destruct fuel; reflexivity. Qed.

(** ** The specification function *)

Section SpecFacts.

Variable graph : DigitalTwinMetaModelGraph.
Variable dtContext : DigitalTwinMetaModelContext.

Abbreviation specProperties := (Spec.propertiesFromId graph dtContext).
Abbreviation specGather := (Spec.gather dtContext).

Lemma gather_mono (f g : string → option (list string)) id edges acc out :
  (∀ x l, f x = Some l → g x = Some l) →
  specGather f id edges acc = Some out → specGather g id edges acc = Some out.
Proof.
  intros Hfg. revert acc. induction edges as [|edge edges IH]; intros acc; simpl; [done|].
  destruct (isDomainOf edge id); [apply IH|].
  destruct (isSubClassFrom edge id); [|apply IH].
  destruct (f (Id (TargetNode edge))) as [l|] eqn:Hf; [|done].
  rewrite (Hfg _ _ Hf). apply IH.
Qed.

Lemma specProperties_S fuel id l :
  specProperties fuel id = Some l → specProperties (S fuel) id = Some l.
Proof.
  revert id l. induction fuel as [|fuel IH]; intros id l; [done|].
  intros H. simpl in H. change (specProperties (S (S fuel)) id) with
    (if isInternationalizationFromId dtContext id
     then Some (Js.sort (Js.uniq LANGUAGE_CODES))
     else match specGather (specProperties (S fuel)) id (Edges graph) [] with
          | Some properties => Some (Js.sort (Js.uniq properties))
          | None => None
          end).
  destruct (isInternationalizationFromId dtContext id); [done|].
  destruct (specGather (specProperties fuel) id (Edges graph) []) as [raw|] eqn:Hraw;
    [|done].
  by rewrite (gather_mono _ _ _ _ _ _ IH Hraw).
Qed.

Lemma specProperties_le fuel fuel' id l :
  (fuel ≤ fuel')%nat → specProperties fuel id = Some l → specProperties fuel' id = Some l.
Proof.
  induction 1 as [|fuel' _ IH]; [done|].
  intros H. by apply specProperties_S, IH.
Qed.

Lemma specProperties_functional fuel fuel' id l l' :
  specProperties fuel id = Some l → specProperties fuel' id = Some l' → l = l'.
Proof.
  intros H H'.
  apply (specProperties_le _ (fuel `max` fuel')) in H; [|lia].
  apply (specProperties_le _ (fuel `max` fuel')) in H'; [|lia].
  congruence.
Qed.

Lemma specProperties_sortedUnique fuel id l :
  specProperties fuel id = Some l → sortedUnique l.
Proof.
  destruct fuel as [|fuel]; [done|]. simpl.
  destruct (isInternationalizationFromId dtContext id).
  - intros [= <-]. apply sortedUnique_sort_uniq.
  - destruct (specGather _ _ _ _); [|done]. intros [= <-]. apply sortedUnique_sort_uniq.
Qed.

Lemma specProperties_language fuel id l :
  isInternationalizationFromId dtContext id = true →
  specProperties fuel id = Some l → l = Js.sort (Js.uniq LANGUAGE_CODES).
Proof.
  intros Hlang. destruct fuel as [|fuel]; [done|]. simpl. rewrite Hlang. by intros [= <-].
Qed.

(** What [gather] has collected: the accumulator, the names of the domain
    edges and the properties of the superclasses. *)
Lemma gather_acc f id edges acc out :
  specGather f id edges acc = Some out → acc ⊆ out.
Proof.
  revert acc. induction edges as [|edge edges IH]; intros acc; simpl.
  - by intros [= <-].
  - destruct (isDomainOf edge id).
    { intros H. apply IH in H. set_solver. }
    destruct (isSubClassFrom edge id); [|apply IH].
    destruct (f (Id (TargetNode edge))); [|done].
    intros H. apply IH in H. set_solver.
Qed.

Lemma gather_domain f id edges acc out edge :
  specGather f id edges acc = Some out →
  edge ∈ edges → isDomainOf edge id = true →
  Spec.propertyNameFromId dtContext (Id (SourceNode edge)) ∈ out.
Proof.
  revert acc. induction edges as [|edge' edges IH]; intros acc Hout Hin Hdom.
  - by apply elem_of_nil in Hin.
  - simpl in Hout. apply elem_of_cons in Hin as [<- | Hin].
    + rewrite Hdom in Hout. apply gather_acc in Hout. set_solver.
    + destruct (isDomainOf edge' id); [by eapply IH|].
      destruct (isSubClassFrom edge' id); [|by eapply IH].
      destruct (f (Id (TargetNode edge'))); [|done]. by eapply IH.
Qed.

Lemma gather_super f id edges acc out edge :
  specGather f id edges acc = Some out →
  edge ∈ edges → isDomainOf edge id = false → isSubClassFrom edge id = true →
  ∃ inherited, f (Id (TargetNode edge)) = Some inherited ∧ inherited ⊆ out.
Proof.
  revert acc. induction edges as [|edge' edges IH]; intros acc Hout Hin Hdom Hsub.
  - by apply elem_of_nil in Hin.
  - simpl in Hout. apply elem_of_cons in Hin as [<- | Hin].
    + rewrite Hdom, Hsub in Hout.
      destruct (f (Id (TargetNode edge))) as [inherited|]; [|done].
      exists inherited. split; [done|]. apply gather_acc in Hout. set_solver.
    + destruct (isDomainOf edge' id); [by eapply IH|].
      destruct (isSubClassFrom edge' id); [|by eapply IH].
      destruct (f (Id (TargetNode edge'))); [|done]. by eapply IH.
Qed.

(** An edge labelled [subClassOf] is not taken as a domain edge. *)
Lemma subClass_not_domain edge id id' :
  isSubClassFrom edge id = true → isDomainOf edge id' = false.
Proof.
  unfold isSubClassFrom, isDomainOf.
  intros [_ Hlabel%String.eqb_eq]%andb_true_iff. rewrite Hlabel.
  by rewrite andb_false_r.
Qed.

Lemma specProperties_super fuel id l edge :
  isInternationalizationFromId dtContext id = false →
  specProperties fuel id = Some l →
  edge ∈ Edges graph → isSubClassFrom edge id = true →
  ∃ fuel' inherited,
    specProperties fuel' (Id (TargetNode edge)) = Some inherited ∧ inherited ⊆ l.
Proof.
  intros Hlang H Hin Hsub. destruct fuel as [|fuel]; [done|].
  simpl in H. rewrite Hlang in H.
  destruct (specGather _ _ _ _) as [raw|] eqn:Hraw; [|done].
  injection H as <-.
  destruct (gather_super _ _ _ _ _ _ Hraw Hin (subClass_not_domain _ _ _ Hsub) Hsub)
    as (inherited & Hinh & Hsubset).
  exists fuel, inherited. split; [done|].
  intros x Hx. apply sort_uniq_elem. by apply Hsubset.
Qed.

Lemma specProperties_domain fuel id l edge :
  isInternationalizationFromId dtContext id = false →
  specProperties fuel id = Some l →
  edge ∈ Edges graph → isDomainOf edge id = true →
  Spec.propertyNameFromId dtContext (Id (SourceNode edge)) ∈ l.
Proof.
  intros Hlang H Hin Hdom. destruct fuel as [|fuel]; [done|].
  simpl in H. rewrite Hlang in H.
  destruct (specGather _ _ _ _) as [raw|] eqn:Hraw; [|done].
  injection H as <-. apply sort_uniq_elem. by eapply gather_domain.
Qed.

End SpecFacts.

(** ** Coherent caches *)

Section Coherence.

Variable graph : DigitalTwinMetaModelGraph.
Variable dtContext : DigitalTwinMetaModelContext.

Abbreviation coherent' := (coherent graph dtContext).

Lemma coherent_new : coherent' newResolver.
Proof. split; intros ? ?; simpl; by rewrite lookup_empty. Qed.

(** Coherence reads the caches only. *)
Lemma coherent_cache r r' : cache r' = cache r → coherent' r → coherent' r'.
Proof. intros Heq [H1 H2 H3 H4]. split; rewrite Heq; assumption. Qed.

Lemma coherent_setPropertyNameFromId r u r' id key :
  coherent' r → findPropertyName dtContext id = Some key →
  setPropertyNameFromId id key r = Ok u r' → coherent' r'.
Proof.
  intros [H1 H2 H3 H4] Hfind Hset. unfold setPropertyNameFromId in Hset. monad_inv.
  split; simpl; try assumption.
  intros id' key' Hlook. destruct (decide (id = id')) as [<-|Hne].
  - rewrite lookup_insert_eq in Hlook. congruence.
  - rewrite lookup_insert_ne in Hlook by done. by apply H1.
Qed.

Lemma coherent_setPropertiesFromId r u r' id keys fuel :
  coherent' r →
  Spec.propertiesFromId graph dtContext fuel id = Some (items keys) →
  setPropertiesFromId id keys r = Ok u r' → coherent' r'.
Proof.
  intros [H1 H2 H3 H4] Hspec Hset. unfold setPropertiesFromId in Hset. monad_inv.
  split; simpl; try assumption.
  intros id' keys' Hlook. destruct (decide (id = id')) as [<-|Hne].
  - rewrite lookup_insert_eq in Hlook. injection Hlook as <-. by exists fuel.
  - rewrite lookup_insert_ne in Hlook by done. by apply H2.
Qed.

Lemma coherent_setTypesFromId r u r' id types :
  coherent' r → sortedUnique (items types) →
  setTypesFromId id types r = Ok u r' → coherent' r'.
Proof.
  intros [H1 H2 H3 H4] Hsorted Hset. unfold setTypesFromId in Hset. monad_inv.
  split; simpl; try assumption.
  intros id' types' Hlook. destruct (decide (id = id')) as [<-|Hne].
  - rewrite lookup_insert_eq in Hlook. by injection Hlook as <-.
  - rewrite lookup_insert_ne in Hlook by done. by eapply H3.
Qed.

Lemma coherent_setTypedPropertiesFromId r u r' id results :
  coherent' r →
  (isInternationalizationFromId dtContext id = true →
   items results = map languageProperty LANGUAGE_CODES) →
  setTypedPropertiesFromId id results r = Ok u r' → coherent' r'.
Proof.
  intros [H1 H2 H3 H4] Hlang Hset. unfold setTypedPropertiesFromId in Hset. monad_inv.
  split; simpl; try assumption.
  intros id' results' Hlook. destruct (decide (id = id')) as [<-|Hne].
  - rewrite lookup_insert_eq in Hlook. by injection Hlook as <-.
  - rewrite lookup_insert_ne in Hlook by done. by eapply H4.
Qed.

Lemma coherent_setValueTypesFromId r u r' id v :
  coherent' r → setValueTypesFromId id v r = Ok u r' → coherent' r'.
Proof.
  intros [H1 H2 H3 H4] Hset. unfold setValueTypesFromId in Hset. monad_inv.
  by split.
Qed.

Lemma coherent_setStringValuesFromId r u r' id v :
  coherent' r → setStringValuesFromId id v r = Ok u r' → coherent' r'.
Proof.
  intros [H1 H2 H3 H4] Hset. unfold setStringValuesFromId in Hset. monad_inv.
  by split.
Qed.

Lemma coherent_setShortNameFromLabel r u r' label v :
  coherent' r → setShortNameFromLabel label v r = Ok u r' → coherent' r'.
Proof.
  intros [H1 H2 H3 H4] Hset. unfold setShortNameFromLabel in Hset. monad_inv.
  by split.
Qed.

Lemma coherent_alloc {A} (l : list A) r a r' :
  coherent' r → alloc l r = Ok a r' → coherent' r'.
Proof. intros Hc Halloc. monad_inv. by apply (coherent_cache r). Qed.

(** [getPropertyNameFromId] returns what the context determines, whatever
    it finds cached. *)
Lemma getPropertyNameFromId_coherent id r name r' :
  coherent' r →
  getPropertyNameFromId dtContext id r = Ok name r' →
  coherent' r' ∧ name = Spec.propertyNameFromId dtContext id.
Proof.
  intros Hc H. unfold getPropertyNameFromId in H. unfold Spec.propertyNameFromId.
  rewrite bind_cached in H.
  destruct (PropertyNameFromId (cache r) !! id) as [key|] eqn:Hhit.
  - pose proof (coherent_names _ _ _ Hc _ _ Hhit) as Hfind. rewrite Hfind in *.
    destruct (Js.truthy key).
    + apply ret_Ok in H as [<- <-]. done.
    + apply bind_Ok in H as (u & r1 & Hset & [<- <-]%ret_Ok).
      split; [|done]. by eapply coherent_setPropertyNameFromId.
  - destruct (findPropertyName dtContext id) as [key|] eqn:Hfind.
    + apply bind_Ok in H as (u & r1 & Hset & [<- <-]%ret_Ok).
      split; [|done]. by eapply coherent_setPropertyNameFromId.
    + apply ret_Ok in H as [<- <-]. done.
Qed.

(** The loop of [getPropertiesFromId] computes [Spec.gather], given that the
    recursive calls compute the specification. *)
Lemma getPropertiesFromId_loop fuel id :
  (∀ id' r keys r',
     coherent' r → getPropertiesFromId graph fuel dtContext id' r = Ok keys r' →
     coherent' r' ∧ ∃ n, Spec.propertiesFromId graph dtContext n id' = Some (items keys)) →
  ∀ edges acc r out r',
    coherent' r →
    forEach edges acc (λ properties edge,
      if isDomainOf edge id then
        name <- getPropertyNameFromId dtContext (Id (SourceNode edge)) ;;
        ret (properties ++ [name])
      else if isSubClassFrom edge id then
        super <- getPropertiesFromId graph fuel dtContext (Id (TargetNode edge)) ;;
        ret (properties ++ items super)
      else ret properties) r = Ok out r' →
    coherent' r' ∧
    ∃ n, Spec.gather dtContext (Spec.propertiesFromId graph dtContext n) id edges acc = Some out.
Proof.
  intros IHfuel. induction edges as [|edge edges IH]; intros acc r out r' Hc H; simpl in H.
  - apply ret_Ok in H as [<- <-]. split; [done|]. by exists 0.
  - apply bind_Ok in H as (acc1 & r1 & Hbody & Hrest). simpl.
    destruct (isDomainOf edge id).
    + apply bind_Ok in Hbody as (name & r2 & Hname & [<- <-]%ret_Ok).
      destruct (getPropertyNameFromId_coherent _ _ _ _ Hc Hname) as [Hc1 ->].
      by apply (IH _ _ _ _ Hc1).
    + destruct (isSubClassFrom edge id).
      * apply bind_Ok in Hbody as (super & r2 & Hsuper & [<- <-]%ret_Ok).
        destruct (IHfuel _ _ _ _ Hc Hsuper) as (Hc1 & n1 & Hspec).
        destruct (IH _ _ _ _ Hc1 Hrest) as (Hc2 & n2 & Hgather).
        split; [done|]. exists (n1 `max` n2).
        rewrite (specProperties_le _ _ n1 (n1 `max` n2) _ _ ltac:(lia) Hspec).
        eapply gather_mono; [|exact Hgather].
        intros x l. apply specProperties_le. lia.
      * apply ret_Ok in Hbody as [<- <-]. by apply (IH _ _ _ _ Hc).
Qed.

(** The memoised query refines the specification function: from coherent
    caches it returns what the function gives, and leaves the caches
    coherent. *)
Lemma getPropertiesFromId_coherent fuel id r keys r' :
  coherent' r →
  getPropertiesFromId graph fuel dtContext id r = Ok keys r' →
  coherent' r' ∧
  ∃ n, Spec.propertiesFromId graph dtContext n id = Some (items keys).
Proof.
  revert id r keys r'. induction fuel as [|fuel IH]; intros id r keys r' Hc H;
    rewrite getPropertiesFromId_unfold, bind_cached in H;
    (destruct (PropertiesFromId (cache r) !! id) as [hit|] eqn:Hhit;
     [apply ret_Ok in H as [<- <-]; split; [done|]; by eapply coherent_properties|]).
  - discriminate H.
  - apply bind_Ok in H as (properties & r1 & Hloop & H).
    apply bind_Ok in H as (keys' & r2 & Halloc & H).
    apply bind_Ok in H as (u & r3 & Hset & [<- <-]%ret_Ok).
    apply alloc_Ok in Halloc as [-> ->].
    assert (coherent' r1 ∧
            ∃ n, Spec.propertiesFromId graph dtContext n id =
                 Some (Js.sort (Js.uniq properties))) as (Hc1 & n & Hspec).
    { destruct (isInternationalizationFromId dtContext id) eqn:Hlang.
      - apply ret_Ok in Hloop as [<- <-]. split; [done|]. exists 1. simpl. by rewrite Hlang.
      - destruct (getPropertiesFromId_loop fuel id IH _ _ _ _ _ Hc Hloop)
          as (Hc1 & n & Hgather).
        split; [done|]. exists (S n). simpl. by rewrite Hlang, Hgather. }
    split; [|by exists n].
    refine (coherent_setPropertiesFromId _ _ _ _ (mkArr _ _) n _ Hspec Hset).
    by apply (coherent_cache r1).
Qed.

End Coherence.

(** ** Memoisation *)

Lemma getTypesFromId_unfold graph fuel dtContext id :
  getTypesFromId graph fuel dtContext id =
  (hit <- cached TypesFromId id ;;
   match hit with
   | Some types => ret types
   | None =>
       match fuel with
       | O => outOfFuel
       | S fuel' =>
           types <- forEach (Edges graph) [] (λ types edge,
             types <-
               (if isRangeFrom edge id then
                  range <- getTypesFromId graph fuel' dtContext (Id (TargetNode edge)) ;;
                  ret (types ++ items range)
                else ret types) ;;
             if isSubClassTo edge id then
               sub <- getTypesFromId graph fuel' dtContext (Id (SourceNode edge)) ;;
               ret (types ++ items sub)
             else ret types) ;;
           types <-
             (if Nat.eqb (length types) 0 then
                shortName <- getShortNameFromLabel dtContext (getLabelFromId dtContext id) ;;
                match shortName with
                | Some shortName =>
                    ret (if Js.truthy shortName then types ++ [shortName] else types)
                | None => ret types
                end
              else ret types) ;;
           types <- alloc (Js.sort (Js.uniq types)) ;;
           setTypesFromId id types ;;;
           ret types
       end
   end).
Proof. destruct fuel; reflexivity. Qed.

Lemma getStringValuesFromId_unfold graph fuel dtContext id :
  getStringValuesFromId graph fuel dtContext id =
  (hit <- cached StringValuesFromId id ;;
   match hit with
   | Some values => ret values
   | None =>
       match fuel with
       | O => outOfFuel
       | S fuel' =>
           found <- forEach (Edges graph) ([], false) (λ acc edge,
             let values := fst acc in
             let hasProperty := if isDomainOf edge id then true else snd acc in
             values <-
               (if isRangeFrom edge id then
                  range <- getStringValuesFromId graph fuel' dtContext (Id (TargetNode edge)) ;;
                  ret (values ++ items range)
                else ret values) ;;
             values <-
               (if isSubClassTo edge id then
                  sub <- getStringValuesFromId graph fuel' dtContext (Id (SourceNode edge)) ;;
                  ret (values ++ items sub)
                else ret values) ;;
             values <-
               (if isTypeTo edge id then
                  inst <- getStringValuesFromId graph fuel' dtContext (Id (SourceNode edge)) ;;
                  ret (values ++ items inst)
                else ret values) ;;
             ret (values, hasProperty)) ;;
           let values := fst found in
           let hasProperty := snd found in
           if Nat.eqb (length values) 0 then
             if hasProperty then
               stored <- alloc [] ;;
               setStringValuesFromId id stored ;;;
               alloc []
             else
               let shortName := getShortNameFromId dtContext id in
               values <- alloc (if Js.truthy shortName then values ++ [shortName] else values) ;;
               setStringValuesFromId id values ;;;
               ret values
           else
             values <- alloc values ;;
             setStringValuesFromId id values ;;;
             ret values
       end
   end).
Proof. destruct fuel; reflexivity. Qed.

Section Memo.

Variable graph : DigitalTwinMetaModelGraph.
Variable dtContext : DigitalTwinMetaModelContext.

(** What a query returns is what it leaves in its cache ... *)
Lemma getPropertiesFromId_stored fuel id r keys r' :
  getPropertiesFromId graph fuel dtContext id r = Ok keys r' →
  PropertiesFromId (cache r') !! id = Some keys.
Proof.
  rewrite getPropertiesFromId_unfold, bind_cached.
  destruct (PropertiesFromId (cache r) !! id) as [hit|] eqn:Hhit.
  - by intros [<- <-]%ret_Ok.
  - destruct fuel as [|fuel]; [done|]. intros H.
    apply bind_Ok in H as (properties & r1 & _ & H).
    apply bind_Ok in H as (keys' & r2 & _ & H).
    apply bind_Ok in H as (u & r3 & Hset & [<- <-]%ret_Ok).
    apply modifyCache_Ok in Hset as ->. simpl. apply lookup_insert_eq.
Qed.

Lemma getTypesFromId_stored fuel id r types r' :
  getTypesFromId graph fuel dtContext id r = Ok types r' →
  TypesFromId (cache r') !! id = Some types.
Proof.
  rewrite getTypesFromId_unfold, bind_cached.
  destruct (TypesFromId (cache r) !! id) as [hit|] eqn:Hhit.
  - by intros [<- <-]%ret_Ok.
  - destruct fuel as [|fuel]; [done|]. intros H.
    apply bind_Ok in H as (types1 & r1 & _ & H).
    apply bind_Ok in H as (types2 & r2 & _ & H).
    apply bind_Ok in H as (types3 & r3 & _ & H).
    apply bind_Ok in H as (u & r4 & Hset & [<- <-]%ret_Ok).
    apply modifyCache_Ok in Hset as ->. simpl. apply lookup_insert_eq.
Qed.

Lemma getStringValuesFromId_stored fuel id r values r' :
  getStringValuesFromId graph fuel dtContext id r = Ok values r' →
  ∃ stored, StringValuesFromId (cache r') !! id = Some stored ∧
            items stored = items values.
Proof.
  rewrite getStringValuesFromId_unfold, bind_cached.
  destruct (StringValuesFromId (cache r) !! id) as [hit|] eqn:Hhit.
  - intros [<- <-]%ret_Ok. by exists hit.
  - destruct fuel as [|fuel]; [done|]. intros H.
    apply bind_Ok in H as ([found hasProperty] & r1 & _ & H). simpl in H.
    destruct (Nat.eqb (length found) 0); [destruct hasProperty|].
    + apply bind_Ok in H as (stored & r2 & [-> ->]%alloc_Ok & H).
      apply bind_Ok in H as (u & r3 & Hset & [-> ->]%alloc_Ok).
      apply modifyCache_Ok in Hset as ->. simpl.
      eexists. split; [apply lookup_insert_eq | done].
    + apply bind_Ok in H as (stored & r2 & _ & H).
      apply bind_Ok in H as (u & r3 & Hset & [<- <-]%ret_Ok).
      apply modifyCache_Ok in Hset as ->. simpl.
      eexists. split; [apply lookup_insert_eq | done].
    + apply bind_Ok in H as (stored & r2 & _ & H).
      apply bind_Ok in H as (u & r3 & Hset & [<- <-]%ret_Ok).
      apply modifyCache_Ok in Hset as ->. simpl.
      eexists. split; [apply lookup_insert_eq | done].
Qed.

Lemma getTypedPropertiesFromId_stored fuel id r results r' :
  getTypedPropertiesFromId graph fuel dtContext id r = Ok results r' →
  TypedPropertiesFromId (cache r') !! id = Some results.
Proof.
  unfold getTypedPropertiesFromId. rewrite bind_cached.
  destruct (TypedPropertiesFromId (cache r) !! id) as [hit|] eqn:Hhit.
  - by intros [<- <-]%ret_Ok.
  - destruct (isInternationalizationFromId dtContext id); intros H.
    + apply bind_Ok in H as (results' & r1 & _ & H).
      apply bind_Ok in H as (u & r2 & Hset & [<- <-]%ret_Ok).
      apply modifyCache_Ok in Hset as ->. simpl. apply lookup_insert_eq.
    + apply bind_Ok in H as (keys & r1 & _ & H).
      apply bind_Ok in H as (results1 & r2 & _ & H).
      apply bind_Ok in H as (results' & r3 & _ & H).
      apply bind_Ok in H as (u & r4 & Hset & [<- <-]%ret_Ok).
      apply modifyCache_Ok in Hset as ->. simpl. apply lookup_insert_eq.
Qed.

(** ... and what is in the cache is returned as it is, with any fuel. *)
Lemma getPropertiesFromId_hit fuel id r keys :
  PropertiesFromId (cache r) !! id = Some keys →
  getPropertiesFromId graph fuel dtContext id r = Ok keys r.
Proof. intros H. by rewrite getPropertiesFromId_unfold, bind_cached, H. Qed.

Lemma getTypesFromId_hit fuel id r types :
  TypesFromId (cache r) !! id = Some types →
  getTypesFromId graph fuel dtContext id r = Ok types r.
Proof. intros H. by rewrite getTypesFromId_unfold, bind_cached, H. Qed.

Lemma getStringValuesFromId_hit fuel id r values :
  StringValuesFromId (cache r) !! id = Some values →
  getStringValuesFromId graph fuel dtContext id r = Ok values r.
Proof. intros H. by rewrite getStringValuesFromId_unfold, bind_cached, H. Qed.

Lemma getTypedPropertiesFromId_hit fuel id r results :
  TypedPropertiesFromId (cache r) !! id = Some results →
  getTypedPropertiesFromId graph fuel dtContext id r = Ok results r.
Proof. intros H. unfold getTypedPropertiesFromId. by rewrite bind_cached, H. Qed.

(** A property of the state that every step of a loop keeps is kept by the
    loop. *)
Lemma forEach_keeps {A B} (P : Resolver → Prop) (l : list A) (body : B → A → M B) :
  (∀ acc x r acc' r', x ∈ l → P r → body acc x r = Ok acc' r' → P r') →
  ∀ acc r out r', P r → forEach l acc body r = Ok out r' → P r'.
Proof.
  induction l as [|x l IH]; intros Hbody acc r out r' HP H; simpl in H.
  - by apply ret_Ok in H as [_ <-].
  - apply bind_Ok in H as (acc1 & r1 & Hstep & Hrest).
    eapply IH; [|eapply Hbody; [by left|exact HP|exact Hstep]|exact Hrest].
    intros acc2 y r2 acc3 r3 Hy. apply Hbody. by right.
Qed.

Lemma getShortNameFromLabel_coherent label r shortName r' :
  coherent graph dtContext r →
  getShortNameFromLabel dtContext label r = Ok shortName r' →
  coherent graph dtContext r'.
Proof.
  intros Hc. unfold getShortNameFromLabel. rewrite bind_cached.
  destruct (ShortNameFromLabel (cache r) !! label) as [hit|].
  - by intros [_ <-]%ret_Ok.
  - destruct (List.find _ _) as [[key item]|]; [|destruct (negb _)]; intros H;
      apply bind_Ok in H as (u & r1 & Hset & [_ <-]%ret_Ok);
      by eapply coherent_setShortNameFromLabel.
Qed.

Lemma getTypesFromId_coherent fuel id r types r' :
  coherent graph dtContext r →
  getTypesFromId graph fuel dtContext id r = Ok types r' →
  coherent graph dtContext r' ∧ sortedUnique (items types).
Proof.
  revert id r types r'. induction fuel as [|fuel IH]; intros id r types r' Hc H;
    rewrite getTypesFromId_unfold, bind_cached in H;
    (destruct (TypesFromId (cache r) !! id) as [hit|] eqn:Hhit;
     [apply ret_Ok in H as [<- <-]; split; [done|]; by eapply coherent_types|]).
  - discriminate H.
  - apply bind_Ok in H as (types1 & r1 & Hloop & H).
    apply bind_Ok in H as (types2 & r2 & Hlabel & H).
    apply bind_Ok in H as (types3 & r3 & [-> ->]%alloc_Ok & H).
    apply bind_Ok in H as (u & r4 & Hset & [<- <-]%ret_Ok).
    split; [|apply sortedUnique_sort_uniq].
    refine (coherent_setTypesFromId _ _ _ _ _ _ (mkArr _ _) _ _ Hset);
      [|apply sortedUnique_sort_uniq].
    apply (coherent_cache _ _ r2); [done|].
    assert (Hc1 : coherent graph dtContext r1).
    { refine (forEach_keeps (coherent graph dtContext) _ _ _ _ _ _ _ Hc Hloop).
      intros acc edge ra acc' rb _ Hca Hbody.
      apply bind_Ok in Hbody as (t1 & rc & Hrange & Hsub).
      assert (Hcc : coherent graph dtContext rc).
      { destruct (isRangeFrom edge id).
        - apply bind_Ok in Hrange as (range & rd & Hcall & [_ <-]%ret_Ok).
          by apply (IH _ _ _ _ Hca) in Hcall as [? _].
        - by apply ret_Ok in Hrange as [_ <-]. }
      destruct (isSubClassTo edge id).
      - apply bind_Ok in Hsub as (sub & rd & Hcall & [_ <-]%ret_Ok).
        by apply (IH _ _ _ _ Hcc) in Hcall as [? _].
      - by apply ret_Ok in Hsub as [_ <-]. }
    destruct (Nat.eqb (length types1) 0).
    + apply bind_Ok in Hlabel as (shortName & r5 & Hshort & Hpush).
      apply getShortNameFromLabel_coherent in Hshort; [|done].
      destruct shortName; by apply ret_Ok in Hpush as [_ <-].
    + by apply ret_Ok in Hlabel as [_ <-].
Qed.

End Memo.

(** ** Repeated queries *)

(** C1, as the code has it.  From coherent caches, a second call of
    [getPropertiesFromId], [getTypesFromId] or [getStringValuesFromId] for
    the same id returns the same list as the first; the lists of
    [getPropertiesFromId] and [getTypesFromId] are sorted and free of
    duplicates.  ([getStringValuesFromId] keeps its values in the order of
    the traversal.) *)
Theorem repeated_queries
    (graph : DigitalTwinMetaModelGraph) (dtContext : DigitalTwinMetaModelContext)
    (id : string) (fuel fuel' : nat) (r : Resolver) :
  coherent graph dtContext r →
  (∀ keys r1,
     getPropertiesFromId graph fuel dtContext id r = Ok keys r1 →
     getPropertiesFromId graph fuel' dtContext id r1 = Ok keys r1 ∧
     sortedUnique (items keys)) ∧
  (∀ types r1,
     getTypesFromId graph fuel dtContext id r = Ok types r1 →
     getTypesFromId graph fuel' dtContext id r1 = Ok types r1 ∧
     sortedUnique (items types)) ∧
  (∀ values r1,
     getStringValuesFromId graph fuel dtContext id r = Ok values r1 →
     ∃ values',
       getStringValuesFromId graph fuel' dtContext id r1 = Ok values' r1 ∧
       items values' = items values).
Proof.
  intros Hc. split; [|split].
  - intros keys r1 H. split.
    + by apply getPropertiesFromId_hit, (getPropertiesFromId_stored _ _ _ _ _ _ _ H).
    + destruct (getPropertiesFromId_coherent _ _ _ _ _ _ _ Hc H) as (_ & n & Hspec).
      by eapply specProperties_sortedUnique.
  - intros types r1 H. split.
    + by apply getTypesFromId_hit, (getTypesFromId_stored _ _ _ _ _ _ _ H).
    + by destruct (getTypesFromId_coherent _ _ _ _ _ _ _ Hc H).
  - intros values r1 H.
    destruct (getStringValuesFromId_stored _ _ _ _ _ _ _ H) as (stored & Hstored & Heq).
    exists stored. split; [|done]. by apply getStringValuesFromId_hit.
Qed.

Lemma repeated_queries_witness :
  ∃ keys r1,
    getPropertiesFromId Sample.graph 3 Sample.context "v/Telemetry" newResolver = Ok keys r1 ∧
    getPropertiesFromId Sample.graph 0 Sample.context "v/Telemetry" r1 = Ok keys r1 ∧
    sortedUnique (items keys).
Proof.
  destruct (getPropertiesFromId Sample.graph 3 Sample.context "v/Telemetry" newResolver)
    as [keys r1| |] eqn:H; [|vm_compute in H; discriminate..].
  exists keys, r1. split; [reflexivity|].
  exact (proj1 (repeated_queries Sample.graph Sample.context "v/Telemetry" 3 0 newResolver
                  (coherent_new _ _)) keys r1 H).
Defined.

(** The values of [unit] in the sample: the instances of [Unit] in the order
    of their edges, once for each of the two range edges. *)
Lemma repeated_queries_counterexample :
  ∃ values r1,
    getStringValuesFromId Sample.graph 3 Sample.context "v/unit" newResolver = Ok values r1 ∧
    items values = ["kelvin"; "celsius"; "kelvin"; "celsius"] ∧
    ¬ NoDup (items values) ∧ ¬ StronglySorted Js.le (items values).
Proof.
  destruct (getStringValuesFromId Sample.graph 3 Sample.context "v/unit" newResolver)
    as [values r1| |] eqn:H; [|vm_compute in H; discriminate..].
  assert (Hitems : items values = ["kelvin"; "celsius"; "kelvin"; "celsius"]).
  { vm_compute in H. by injection H as <- _. }
  exists values, r1. split; [reflexivity|]. clear H.
  split; [exact Hitems|]. rewrite Hitems. split.
  - intros Hnodup. apply NoDup_cons in Hnodup as [Hnotin _]. apply Hnotin. set_solver.
  - intros Hsorted. apply StronglySorted_cons in Hsorted as [Hall _].
    apply Forall_cons in Hall as [Hle _]. exact Hle.
Qed.

(** ** Language containers *)

(** C2, as the code has it.  For an id that the context marks as a language
    container (the first entry under a key that is no keyword whose value is
    an object with this id carries the container [@language]), from caches
    that agree with the graph and the context, and whatever the edges of the
    graph: [getPropertiesFromId] returns the language codes without their
    duplicates and sorted, and [getTypedPropertiesFromId] returns one entry
    for every element of [LANGUAGE_CODES], in its order, not required and of
    type 'string'. *)
Theorem language_container
    (graph : DigitalTwinMetaModelGraph) (dtContext : DigitalTwinMetaModelContext)
    (id : string) (fuel : nat) (r : Resolver) :
  coherent graph dtContext r →
  isInternationalizationFromId dtContext id = true →
  (∃ keys r1,
     getPropertiesFromId graph (S fuel) dtContext id r = Ok keys r1 ∧
     items keys = Js.sort (Js.uniq LANGUAGE_CODES) ∧
     ∀ code, code ∈ items keys ↔ code ∈ LANGUAGE_CODES) ∧
  (∃ results r1,
     getTypedPropertiesFromId graph fuel dtContext id r = Ok results r1 ∧
     items results = map languageProperty LANGUAGE_CODES ∧
     map label (items results) = LANGUAGE_CODES ∧
     Forall (λ p, required p = false ∧ type p = "string") (items results)).
Proof.
  intros Hc Hlang. split.
  - assert (∃ keys r1, getPropertiesFromId graph (S fuel) dtContext id r = Ok keys r1)
      as (keys & r1 & H).
    { rewrite getPropertiesFromId_unfold, bind_cached.
      destruct (PropertiesFromId (cache r) !! id); [by eexists _, _|].
      rewrite Hlang. by eexists _, _. }
    exists keys, r1. split; [done|].
    destruct (getPropertiesFromId_coherent _ _ _ _ _ _ _ Hc H) as (_ & n & Hspec).
    apply (specProperties_language _ _ _ _ _ Hlang) in Hspec.
    split; [done|]. intros code. rewrite Hspec. apply sort_uniq_elem.
  - assert (∃ results r1,
              getTypedPropertiesFromId graph fuel dtContext id r = Ok results r1 ∧
              items results = map languageProperty LANGUAGE_CODES)
      as (results & r1 & H & Hitems).
    { unfold getTypedPropertiesFromId. rewrite bind_cached.
      destruct (TypedPropertiesFromId (cache r) !! id) as [hit|] eqn:Hhit.
      - exists hit, r. split; [done|]. by eapply coherent_typed.
      - rewrite Hlang. by eexists _, _. }
    exists results, r1. split; [done|]. split; [done|]. rewrite Hitems. split.
    + rewrite map_map. apply map_id.
    + apply Forall_forall. intros p Hp. apply list_elem_of_In, in_map_iff in Hp.
      by destruct Hp as (code & <- & _).
Qed.

Lemma language_container_witness :
  ∃ keys r1,
    getPropertiesFromId Sample.localized 1 Sample.context "v/displayName" newResolver =
      Ok keys r1 ∧
    items keys = Js.sort (Js.uniq LANGUAGE_CODES).
Proof.
  destruct (language_container Sample.localized Sample.context "v/displayName" 0 newResolver
              (coherent_new _ _) ltac:(reflexivity))
    as [(keys & r1 & H & Hitems & _) _].
  by exists keys, r1.
Defined.

(** The list returned for the language container of the sample is not
    [LANGUAGE_CODES]: that has 239 elements, the list returned 228. *)
Lemma language_container_counterexample :
  isInternationalizationFromId Sample.context "v/displayName" = true ∧
  ∃ keys r1,
    getPropertiesFromId Sample.localized 1 Sample.context "v/displayName" newResolver =
      Ok keys r1 ∧
    items keys ≠ LANGUAGE_CODES ∧
    length (items keys) = 228 ∧ length LANGUAGE_CODES = 239.
Proof.
  split; [reflexivity|].
  destruct (getPropertiesFromId Sample.localized 1 Sample.context "v/displayName" newResolver)
    as [keys r1| |] eqn:H; [|vm_compute in H; discriminate..].
  assert (Hlength : length (items keys) = 228).
  { vm_compute in H. by injection H as <- _. }
  exists keys, r1. split; [reflexivity|]. clear H.
  split; [|split; [exact Hlength | reflexivity]].
  intros Heq. rewrite Heq in Hlength. vm_compute in Hlength. discriminate.
Qed.

(** The caches come first: what a query under a context without the
    container has left for the id is returned under the context with the
    container too. *)
Example language_container_cached_elsewhere :
  ∃ before r1 keys r2,
    getPropertiesFromId Sample.localized 3 Sample2.plain "v/displayName" newResolver =
      Ok before r1 ∧
    isInternationalizationFromId Sample.context "v/displayName" = true ∧
    getPropertiesFromId Sample.localized 3 Sample.context "v/displayName" r1 =
      Ok keys r2 ∧
    items keys = ["comment"; "name"].
Proof.
  destruct (getPropertiesFromId Sample.localized 3 Sample2.plain "v/displayName" newResolver)
    as [before r1| |] eqn:H1; [|vm_compute in H1; discriminate..].
  destruct (getPropertiesFromId Sample.localized 3 Sample.context "v/displayName" r1)
    as [keys r2| |] eqn:H2;
    vm_compute in H1; injection H1 as <- <-; vm_compute in H2; [|discriminate..].
  injection H2 as <- <-.
  eexists _, _, _, _. split; [reflexivity|]. split; [reflexivity|].
  split; [vm_compute; reflexivity | reflexivity].
Qed.

(** The first object entry with the id decides: a container in a later
    entry for the same id does not count, and the query follows the edges. *)
Example language_container_first_entry :
  ("displayName", CtxObject "displayName" (Some "@language")) ∈ entries Sample2.twice ∧
  isInternationalizationFromId Sample2.twice "v/displayName" = false ∧
  ∃ keys r1,
    getPropertiesFromId Sample.localized 3 Sample2.twice "v/displayName" newResolver =
      Ok keys r1 ∧
    items keys = ["v/comment"; "v/name"].
Proof.
  split; [set_solver|]. split; [reflexivity|].
  destruct (getPropertiesFromId Sample.localized 3 Sample2.twice "v/displayName" newResolver)
    as [keys r1| |] eqn:H; [|vm_compute in H; discriminate..].
  exists keys, r1. split; [reflexivity|].
  vm_compute in H. by injection H as <- _.
Qed.

(** ** Properties along [subClassOf] *)

Lemma subClassOf_isSubClassFrom edge sub super :
  subClassOf edge sub super → isSubClassFrom edge sub = true.
Proof.
  intros (Hs & Hl & _). unfold isSubClassFrom.
  by rewrite Hs, Hl, !String.eqb_refl.
Qed.

Lemma getPropertiesFromId_inherits graph dtContext fuel fuel' sub super edge r
    keys r1 inherited r2 :
  coherent graph dtContext r →
  edge ∈ Edges graph → subClassOf edge sub super →
  isInternationalizationFromId dtContext sub = false →
  getPropertiesFromId graph fuel dtContext sub r = Ok keys r1 →
  getPropertiesFromId graph fuel' dtContext super r1 = Ok inherited r2 →
  coherent graph dtContext r2 ∧ items inherited ⊆ items keys.
Proof.
  intros Hc Hin Hsub Hlang Hkeys Hinherited.
  destruct (getPropertiesFromId_coherent _ _ _ _ _ _ _ Hc Hkeys) as (Hc1 & n & Hspec).
  destruct (getPropertiesFromId_coherent _ _ _ _ _ _ _ Hc1 Hinherited)
    as (Hc2 & m & Hspec').
  split; [done|].
  destruct (specProperties_super _ _ _ _ _ _ Hlang Hspec Hin
              (subClassOf_isSubClassFrom _ _ _ Hsub)) as (k & l & Hl & Hsubset).
  destruct Hsub as (_ & _ & Htarget). rewrite Htarget in Hl.
  by rewrite (specProperties_functional _ _ _ _ _ _ _ Hspec' Hl).
Qed.

(** C3, as the code has it.  Let A be a subclass of B and B of C, none of
    them a language container for the context.  From coherent caches, when
    [getPropertiesFromId] returns for A and then for B, the properties of A
    include those of B, and these include the name of every property whose
    domain edge points at C. *)
Theorem getPropertiesFromId_subclass_chain
    (graph : DigitalTwinMetaModelGraph) (dtContext : DigitalTwinMetaModelContext)
    (A B C : string) (ab bc : GraphEdge) (fuel fuel' : nat)
    (r r1 r2 : Resolver) (ofA ofB : Arr string) :
  coherent graph dtContext r →
  ab ∈ Edges graph → subClassOf ab A B →
  bc ∈ Edges graph → subClassOf bc B C →
  isInternationalizationFromId dtContext A = false →
  isInternationalizationFromId dtContext B = false →
  isInternationalizationFromId dtContext C = false →
  getPropertiesFromId graph fuel dtContext A r = Ok ofA r1 →
  getPropertiesFromId graph fuel' dtContext B r1 = Ok ofB r2 →
  items ofB ⊆ items ofA ∧
  ∀ edge, edge ∈ Edges graph → isDomainOf edge C = true →
          Spec.propertyNameFromId dtContext (Id (SourceNode edge)) ∈ items ofB.
Proof.
  intros Hc Hab HAB Hbc HBC HlangA HlangB HlangC HA HB.
  destruct (getPropertiesFromId_inherits _ _ _ _ _ _ _ _ _ _ _ _ Hc Hab HAB HlangA HA HB)
    as [Hc2 Hsubset].
  split; [done|]. intros edge Hin Hdom.
  destruct (getPropertiesFromId_coherent _ _ _ _ _ _ _ Hc HA) as (Hc1 & _).
  destruct (getPropertiesFromId_coherent _ _ _ _ _ _ _ Hc1 HB) as (_ & m & HspecB).
  destruct (specProperties_super _ _ _ _ _ _ HlangB HspecB Hbc
              (subClassOf_isSubClassFrom _ _ _ HBC)) as (k & ofC & HspecC & HsubsetC).
  destruct HBC as (_ & _ & Htarget). rewrite Htarget in HspecC.
  apply HsubsetC. by eapply specProperties_domain.
Qed.

Lemma getPropertiesFromId_subclass_chain_witness :
  ∃ ofA r1 ofB r2,
    getPropertiesFromId Sample.graph 3 Sample.context "v/Telemetry" newResolver = Ok ofA r1 ∧
    getPropertiesFromId Sample.graph 3 Sample.context "v/Capability" r1 = Ok ofB r2 ∧
    items ofB ⊆ items ofA ∧
    "name" ∈ items ofB.
Proof.
  destruct (getPropertiesFromId Sample.graph 3 Sample.context "v/Telemetry" newResolver)
    as [ofA r1| |] eqn:HA; [|vm_compute in HA; discriminate..].
  destruct (getPropertiesFromId Sample.graph 3 Sample.context "v/Capability" r1)
    as [ofB r2| |] eqn:HB.
  2, 3: apply getPropertiesFromId_stored in HA as Hstored;
        rewrite getPropertiesFromId_unfold, bind_cached in HB;
        vm_compute in HA; injection HA as <- <-; vm_compute in HB; discriminate.
  exists ofA, r1, ofB, r2. split; [reflexivity|]. split; [exact HB|].
  pose proof (getPropertiesFromId_subclass_chain Sample.graph Sample.context
                "v/Telemetry" "v/Capability" "v/Entity"
                (Sample.edge "v/Telemetry" LABEL.SUBCLASS "v/Capability")
                (Sample.edge "v/Capability" LABEL.SUBCLASS "v/Entity")
                3 3 newResolver r1 r2 ofA ofB (coherent_new _ _)) as Hchain.
  destruct Hchain as [Hsubset Hdomain]; try reflexivity; try assumption.
  - apply list_elem_of_In. simpl. tauto.
  - split; [reflexivity|]. split; reflexivity.
  - apply list_elem_of_In. simpl. tauto.
  - split; [reflexivity|]. split; reflexivity.
  - split; [exact Hsubset|].
    apply (Hdomain (Sample.edge "v/name" LABEL.DOMAIN "v/Entity")); [|reflexivity].
    apply list_elem_of_In. simpl. tauto.
Defined.

(** In [Sample.localized] the language container is a subclass of
    [Capability]; its properties are the language codes and leave out
    [comment], a property of [Capability]. *)
Lemma getPropertiesFromId_subclass_chain_counterexample :
  ∃ ofA r1 ofB r2,
    Sample.edge "v/displayName" LABEL.SUBCLASS "v/Capability" ∈ Edges Sample.localized ∧
    Sample.edge "v/Capability" LABEL.SUBCLASS "v/Entity" ∈ Edges Sample.localized ∧
    getPropertiesFromId Sample.localized 3 Sample.context "v/displayName" newResolver =
      Ok ofA r1 ∧
    getPropertiesFromId Sample.localized 3 Sample.context "v/Capability" r1 = Ok ofB r2 ∧
    "comment" ∈ items ofB ∧ "comment" ∉ items ofA.
Proof.
  destruct (getPropertiesFromId Sample.localized 3 Sample.context "v/displayName" newResolver)
    as [ofA r1| |] eqn:HA; [|vm_compute in HA; discriminate..].
  destruct (getPropertiesFromId Sample.localized 3 Sample.context "v/Capability" r1)
    as [ofB r2| |] eqn:HB;
    vm_compute in HA; injection HA as <- <-; vm_compute in HB; [|discriminate..].
  injection HB as <- <-.
  eexists _, _, _, _. split; [apply list_elem_of_In; simpl; tauto|].
  split; [apply list_elem_of_In; simpl; tauto|].
  split; [reflexivity|]. split; [vm_compute; reflexivity|].
  split.
  - apply Js_includes_elem. vm_compute. reflexivity.
  - apply Js_includes_false. vm_compute. reflexivity.
Qed.

(** ** The identity of the arrays returned *)

(** C4 at its failing input.  [Telemetry] is the target of domain edges and
    has no values: the first call of [getStringValuesFromId] stores one empty
    array and returns another, the second call returns the stored one. *)
Theorem getStringValuesFromId_object_identity :
  ∃ first r1 second r2,
    getStringValuesFromId Sample.graph 3 Sample.context "v/Telemetry" newResolver =
      Ok first r1 ∧
    getStringValuesFromId Sample.graph 3 Sample.context "v/Telemetry" r1 = Ok second r2 ∧
    items first = [] ∧ items second = [] ∧ ref first ≠ ref second.
Proof.
  destruct (getStringValuesFromId Sample.graph 3 Sample.context "v/Telemetry" newResolver)
    as [first r1| |] eqn:H1; [|vm_compute in H1; discriminate..].
  destruct (getStringValuesFromId Sample.graph 3 Sample.context "v/Telemetry" r1)
    as [second r2| |] eqn:H2;
    vm_compute in H1; injection H1 as <- <-; vm_compute in H2; [|discriminate..].
  injection H2 as <- <-.
  eexists _, _, _, _. split; [reflexivity|]. split; [vm_compute; reflexivity|].
  simpl. repeat split; discriminate.
Qed.

(** The other return paths hand out the array that they stored: a second
    call of [getPropertiesFromId], [getTypesFromId] or
    [getTypedPropertiesFromId] returns the array of the first, and so does
    [getStringValuesFromId] whenever the first call returned an array with
    values. *)
Lemma memoised_same_array graph dtContext id fuel fuel' r :
  (∀ keys r1,
     getPropertiesFromId graph fuel dtContext id r = Ok keys r1 →
     getPropertiesFromId graph fuel' dtContext id r1 = Ok keys r1) ∧
  (∀ types r1,
     getTypesFromId graph fuel dtContext id r = Ok types r1 →
     getTypesFromId graph fuel' dtContext id r1 = Ok types r1) ∧
  (∀ results r1,
     getTypedPropertiesFromId graph fuel dtContext id r = Ok results r1 →
     getTypedPropertiesFromId graph fuel' dtContext id r1 = Ok results r1) ∧
  (∀ values r1,
     getStringValuesFromId graph fuel dtContext id r = Ok values r1 →
     items values ≠ [] →
     getStringValuesFromId graph fuel' dtContext id r1 = Ok values r1).
Proof.
  split; [|split; [|split]].
  - intros keys r1 H.
    by apply getPropertiesFromId_hit, (getPropertiesFromId_stored _ _ _ _ _ _ _ H).
  - intros types r1 H.
    by apply getTypesFromId_hit, (getTypesFromId_stored _ _ _ _ _ _ _ H).
  - intros results r1 H.
    by apply getTypedPropertiesFromId_hit, (getTypedPropertiesFromId_stored _ _ _ _ _ _ _ H).
  - intros values r1 H Hvalues. apply getStringValuesFromId_hit.
    revert H. rewrite getStringValuesFromId_unfold, bind_cached.
    destruct (StringValuesFromId (cache r) !! id) as [hit|] eqn:Hhit.
    { by intros [<- <-]%ret_Ok. }
    destruct fuel as [|fuel]; [done|]. intros H.
    apply bind_Ok in H as ([found hasProperty] & r2 & _ & H). simpl in H.
    destruct (Nat.eqb (length found) 0); [destruct hasProperty|].
    + apply bind_Ok in H as (stored & r3 & _ & H).
      apply bind_Ok in H as (u & r4 & _ & [-> ->]%alloc_Ok). done.
    + apply bind_Ok in H as (stored & r3 & _ & H).
      apply bind_Ok in H as (u & r4 & Hset & [<- <-]%ret_Ok).
      apply modifyCache_Ok in Hset as ->. simpl. apply lookup_insert_eq.
    + apply bind_Ok in H as (stored & r3 & _ & H).
      apply bind_Ok in H as (u & r4 & Hset & [<- <-]%ret_Ok).
      apply modifyCache_Ok in Hset as ->. simpl. apply lookup_insert_eq.
Qed.

(** ** Termination of the traversals *)

Section Termination.

Variable graph : DigitalTwinMetaModelGraph.
Variable dtContext : DigitalTwinMetaModelContext.

Lemma returns_if {A} (b : bool) (m1 m2 : M A) :
  returns m1 → returns m2 → returns (if b then m1 else m2).
Proof. by destruct b. Qed.

Lemma getPropertyNameFromId_returns id : returns (getPropertyNameFromId dtContext id).
Proof.
  intros r. unfold getPropertyNameFromId. rewrite bind_cached.
  destruct (PropertyNameFromId (cache r) !! id) as [key|];
    [destruct (Js.truthy key); [by eexists _, _|]|];
    destruct (findPropertyName dtContext id); by eexists _, _.
Qed.

Lemma getShortNameFromLabel_returns label : returns (getShortNameFromLabel dtContext label).
Proof.
  intros r. unfold getShortNameFromLabel. rewrite bind_cached.
  destruct (ShortNameFromLabel (cache r) !! label); [by eexists _, _|].
  destruct (List.find _ _) as [[key item]|]; [by eexists _, _|].
  destruct (negb _); by eexists _, _.
Qed.

Lemma isSubClassFrom_label edge id :
  isSubClassFrom edge id = true → Id (SourceNode edge) = id ∧ Label edge = LABEL.SUBCLASS.
Proof. unfold isSubClassFrom. by intros [?%String.eqb_eq ?%String.eqb_eq]%andb_true_iff. Qed.

Lemma isSubClassTo_label edge id :
  isSubClassTo edge id = true → Id (TargetNode edge) = id ∧ Label edge = LABEL.SUBCLASS.
Proof. unfold isSubClassTo. by intros [?%String.eqb_eq ?%String.eqb_eq]%andb_true_iff. Qed.

Lemma isRangeFrom_label edge id :
  isRangeFrom edge id = true → Id (SourceNode edge) = id ∧ Label edge = LABEL.RANGE.
Proof. unfold isRangeFrom. by intros [?%String.eqb_eq ?%String.eqb_eq]%andb_true_iff. Qed.

Lemma isTypeTo_label edge id :
  isTypeTo edge id = true → Id (TargetNode edge) = id ∧ Label edge = LABEL.TYPE.
Proof. unfold isTypeTo. by intros [?%String.eqb_eq ?%String.eqb_eq]%andb_true_iff. Qed.

(** With more fuel than the rank of the id, the query returns. *)
Lemma getPropertiesFromId_returns rank fuel id :
  ranksProperties graph rank → rank id < fuel →
  returns (getPropertiesFromId graph fuel dtContext id).
Proof.
  intros Hrank. revert id. induction fuel as [|fuel IH]; intros id Hlt; [lia|].
  intros r. rewrite getPropertiesFromId_unfold, bind_cached.
  destruct (PropertiesFromId (cache r) !! id); [by eexists _, _|].
  revert r. apply returns_bind; [|intros properties; by apply returns_bind;
    [apply returns_alloc | intros keys; apply returns_bind;
      [apply returns_modifyCache | intros _; apply returns_ret]]].
  apply returns_if; [apply returns_ret|].
  apply returns_forEach. intros acc edge Hin.
  destruct (isDomainOf edge id).
  { apply returns_bind; [apply getPropertyNameFromId_returns | intros; apply returns_ret]. }
  destruct (isSubClassFrom edge id) eqn:Hsub; [|apply returns_ret].
  apply returns_bind; [|intros; apply returns_ret].
  apply IH. apply isSubClassFrom_label in Hsub as [Hsource Hlabel].
  unfold ranksProperties in Hrank. rewrite Forall_forall in Hrank.
  specialize (Hrank edge Hin Hlabel). rewrite Hsource in Hrank. lia.
Qed.

Lemma getTypesFromId_returns rank fuel id :
  ranksTypes graph rank → rank id < fuel →
  returns (getTypesFromId graph fuel dtContext id).
Proof.
  intros Hrank. revert id. induction fuel as [|fuel IH]; intros id Hlt; [lia|].
  intros r. rewrite getTypesFromId_unfold, bind_cached.
  destruct (TypesFromId (cache r) !! id); [by eexists _, _|].
  unfold ranksTypes in Hrank. rewrite Forall_forall in Hrank.
  revert r. apply returns_bind.
  - apply returns_forEach. intros acc edge Hin.
    destruct (Hrank edge Hin) as [Hrange Hsub].
    apply returns_bind.
    + destruct (isRangeFrom edge id) eqn:Hr; [|apply returns_ret].
      apply returns_bind; [|intros; apply returns_ret].
      apply IH. apply isRangeFrom_label in Hr as [Hsource Hlabel].
      specialize (Hrange Hlabel). rewrite Hsource in Hrange. lia.
    + intros types. destruct (isSubClassTo edge id) eqn:Hs; [|apply returns_ret].
      apply returns_bind; [|intros; apply returns_ret].
      apply IH. apply isSubClassTo_label in Hs as [Htarget Hlabel].
      specialize (Hsub Hlabel). rewrite Htarget in Hsub. lia.
  - intros types. apply returns_bind.
    + apply returns_if; [|apply returns_ret].
      apply returns_bind; [apply getShortNameFromLabel_returns|].
      intros [shortName|]; apply returns_ret.
    + intros types'. apply returns_bind; [apply returns_alloc|].
      intros stored. apply returns_bind; [apply returns_modifyCache|].
      intros _. apply returns_ret.
Qed.

Lemma getStringValuesFromId_returns rank fuel id :
  ranksStringValues graph rank → rank id < fuel →
  returns (getStringValuesFromId graph fuel dtContext id).
Proof.
  intros Hrank. revert id. induction fuel as [|fuel IH]; intros id Hlt; [lia|].
  intros r. rewrite getStringValuesFromId_unfold, bind_cached.
  destruct (StringValuesFromId (cache r) !! id); [by eexists _, _|].
  unfold ranksStringValues in Hrank. rewrite Forall_forall in Hrank.
  revert r. apply returns_bind.
  - apply returns_forEach. intros acc edge Hin.
    destruct (Hrank edge Hin) as (Hrange & Hsub & Htype).
    cbv zeta. apply returns_bind; [|intros values; apply returns_bind;
      [|intros values'; apply returns_bind; [|intros; apply returns_ret]]].
    + destruct (isRangeFrom edge id) eqn:Hr; [|apply returns_ret].
      apply returns_bind; [|intros; apply returns_ret].
      apply IH. apply isRangeFrom_label in Hr as [Hsource Hlabel].
      specialize (Hrange Hlabel). rewrite Hsource in Hrange. lia.
    + destruct (isSubClassTo edge id) eqn:Hs; [|apply returns_ret].
      apply returns_bind; [|intros; apply returns_ret].
      apply IH. apply isSubClassTo_label in Hs as [Htarget Hlabel].
      specialize (Hsub Hlabel). rewrite Htarget in Hsub. lia.
    + destruct (isTypeTo edge id) eqn:Ht; [|apply returns_ret].
      apply returns_bind; [|intros; apply returns_ret].
      apply IH. apply isTypeTo_label in Ht as [Htarget Hlabel].
      specialize (Htype Hlabel). rewrite Htarget in Htype. lia.
  - intros [values hasProperty]. cbv zeta. simpl fst. simpl snd.
    destruct (Nat.eqb (length values) 0); [destruct hasProperty|].
    + apply returns_bind; [apply returns_alloc|]. intros stored.
      apply returns_bind; [apply returns_modifyCache|]. intros _. apply returns_alloc.
    + apply returns_bind; [apply returns_alloc|]. intros stored.
      apply returns_bind; [apply returns_modifyCache|]. intros _. apply returns_ret.
    + apply returns_bind; [apply returns_alloc|]. intros stored.
      apply returns_bind; [apply returns_modifyCache|]. intros _. apply returns_ret.
Qed.

End Termination.

(** ** Termination of the diagnostics *)

Lemma list_max_elem (l : list nat) (n : nat) : n ∈ l → n ≤ list_max l.
Proof.
  induction l as [|m l IH]; [by intros ?%elem_of_nil|].
  intros [->|Hin]%elem_of_cons; simpl; [lia|]. specialize (IH Hin). lia.
Qed.

Lemma Json_elements_height (v element : Json.Value) :
  element ∈ Json.elements v → Json.height element < Json.height v.
Proof.
  destruct v as [|span es| | | |]; simpl; try by intros ?%elem_of_nil.
  intros Hin. apply Nat.lt_succ_r, list_max_elem.
  apply list_elem_of_In, in_map, list_elem_of_In, Hin.
Qed.

Lemma Json_lookupLast_elem ps propertyName value :
  Json.lookupLast ps propertyName = Some value → ∃ name, (name, value) ∈ ps.
Proof.
  induction ps as [|[n v] ps IH]; simpl; [done|].
  destruct (Json.lookupLast ps propertyName) as [v'|].
  - intros [= ->]. destruct (IH eq_refl) as [name Hin]. exists name. by right.
  - destruct (String.eqb _ _); [|done]. intros [= ->]. exists n. by left.
Qed.

Lemma Json_getPropertyValue_height (v value : Json.Value) propertyName :
  Json.getPropertyValue v propertyName = Some value →
  Json.height value < Json.height v.
Proof.
  unfold Json.getPropertyValue. destruct v as [span ps| | | | |]; simpl; try done.
  intros [name Hin]%Json_lookupLast_elem. apply Nat.lt_succ_r, list_max_elem.
  apply list_elem_of_In, in_map_iff. exists (name, value).
  split; [done | by apply list_elem_of_In].
Qed.

Lemma Json_lookupLast_is_Some ps propertyName :
  propertyName ∈ map (λ p, Json.nameText (fst p)) ps →
  is_Some (Json.lookupLast ps propertyName).
Proof.
  induction ps as [|[n v] ps IH]; simpl; [by intros ?%elem_of_nil|].
  intros Hin. destruct (Json.lookupLast ps propertyName) as [v'|] eqn:Hlast; [done|].
  apply elem_of_cons in Hin as [->|Hin].
  - by rewrite String.eqb_refl.
  - destruct (IH Hin) as [? ?]. done.
Qed.

Lemma Json_propertyNames_value (v : Json.Value) propertyName :
  propertyName ∈ Json.propertyNames v →
  ∃ value, Json.getPropertyValue v propertyName = Some value.
Proof.
  unfold Json.propertyNames, Json.getPropertyValue. rewrite Js_uniq_elem.
  intros Hin. by apply Json_lookupLast_is_Some.
Qed.

Lemma Json_hasProperty_value (v : Json.Value) propertyName :
  Json.hasProperty v propertyName = true →
  ∃ value, Json.getPropertyValue v propertyName = Some value.
Proof.
  unfold Json.hasProperty. destruct (Json.getPropertyValue v propertyName); [|done].
  by eexists.
Qed.

Lemma Json_propertyNames_length (v : Json.Value) :
  length (Json.propertyNames v) ≤ length (Json.properties v).
Proof.
  unfold Json.propertyNames, Js.uniq.
  etrans; [apply Js_uniqAcc_length|]. by rewrite length_map.
Qed.

Lemma indexed_elem {A} (l : list A) (i : nat) (x : A) :
  (i, x) ∈ indexed l → l !! i = Some x.
Proof.
  unfold indexed. intros Hin. apply list_elem_of_lookup in Hin as [j Hj].
  apply lookup_zip_with_Some in Hj as (i' & x' & [= <- <-] & Hseq & Hx).
  apply lookup_seq in Hseq as [-> _]. done.
Qed.

Section Diagnostics.

Variable graph : DigitalTwinMetaModelGraph.
Variable dtContext : DigitalTwinMetaModelContext.
Variables (rank : string → nat) (bound : nat).
Hypothesis Hrank : ranksStringValues graph rank.
Hypothesis Hbound : ∀ id, rank id ≤ bound.

Lemma ranksStringValues_types : ranksTypes graph rank.
Proof.
  unfold ranksTypes, ranksStringValues in *.
  eapply Forall_impl; [exact Hrank|]. simpl. tauto.
Qed.

Lemma ranksStringValues_properties : ranksProperties graph (λ id, bound - rank id).
Proof.
  unfold ranksProperties, ranksStringValues in *.
  eapply Forall_impl; [exact Hrank|]. simpl. intros edge (_ & Hsub & _) Hlabel.
  specialize (Hsub Hlabel). pose proof (Hbound (Id (TargetNode edge))). lia.
Qed.

Lemma bounded_getPropertiesFromId fuel id :
  bound < fuel → returns (getPropertiesFromId graph fuel dtContext id).
Proof.
  intros Hlt. eapply getPropertiesFromId_returns; [apply ranksStringValues_properties|].
  simpl. lia.
Qed.

Lemma bounded_getTypesFromId fuel id :
  bound < fuel → returns (getTypesFromId graph fuel dtContext id).
Proof.
  intros Hlt. eapply getTypesFromId_returns; [apply ranksStringValues_types|].
  pose proof (Hbound id). lia.
Qed.

Lemma bounded_getStringValuesFromId fuel id :
  bound < fuel → returns (getStringValuesFromId graph fuel dtContext id).
Proof.
  intros Hlt. eapply getStringValuesFromId_returns; [exact Hrank|].
  pose proof (Hbound id). lia.
Qed.

Lemma bounded_getValueTypesFromId fuel id :
  bound < fuel → returns (getValueTypesFromId graph fuel dtContext id).
Proof.
  intros Hlt. unfold getValueTypesFromId.
  apply returns_if; [apply returns_alloc|].
  intros r. rewrite bind_cached.
  destruct (ValueTypesFromId (cache r) !! id); [by eexists _, _|].
  revert r. apply returns_bind; [by apply bounded_getStringValuesFromId|].
  intros values. apply returns_bind; [apply returns_alloc|].
  intros valueTypes. apply returns_bind; [apply returns_modifyCache|].
  intros _. apply returns_ret.
Qed.

Lemma bounded_getTypedPropertiesFromId fuel id :
  bound < fuel → returns (getTypedPropertiesFromId graph fuel dtContext id).
Proof.
  intros Hlt r. unfold getTypedPropertiesFromId. rewrite bind_cached.
  destruct (TypedPropertiesFromId (cache r) !! id); [by eexists _, _|].
  revert r. apply returns_if.
  - apply returns_bind; [apply returns_alloc|]. intros results.
    apply returns_bind; [apply returns_modifyCache|]. intros _. apply returns_ret.
  - apply returns_bind; [by apply bounded_getPropertiesFromId|]. intros keys.
    cbv zeta. apply returns_bind.
    + apply returns_forEach. intros results key _.
      destruct (getIdFromShortName dtContext key) as [id'|]; [|apply returns_ret].
      apply returns_if; [|apply returns_ret].
      apply returns_bind; [|intros; apply returns_ret].
      apply returns_if; [apply returns_ret|].
      apply returns_bind; [by apply bounded_getValueTypesFromId|].
      intros; apply returns_ret.
    + intros results. apply returns_bind; [apply returns_alloc|]. intros stored.
      apply returns_bind; [apply returns_modifyCache|]. intros _. apply returns_ret.
Qed.

Lemma bounded_getTypedPropertiesFromType fuel type :
  bound < fuel → returns (getTypedPropertiesFromType graph fuel dtContext type).
Proof.
  intros Hlt. unfold getTypedPropertiesFromType. cbv zeta.
  apply returns_if; [apply returns_alloc | by apply bounded_getTypedPropertiesFromId].
Qed.

Lemma bounded_getStringValuesFromShortName fuel shortName :
  bound < fuel → returns (getStringValuesFromShortName graph fuel dtContext shortName).
Proof.
  intros Hlt. unfold getStringValuesFromShortName.
  destruct (getIdFromShortName dtContext shortName) as [id|]; [|apply returns_alloc].
  apply returns_if; [apply returns_alloc|].
  apply returns_if; [apply returns_alloc | by apply bounded_getStringValuesFromId].
Qed.

End Diagnostics.

Section DiagnosticsReturn.

Variable graph : DigitalTwinMetaModelGraph.
Variables (uri1 uri2 uri3 interface capabilityModel inlineKey : string).
Variable dtContext : DigitalTwinMetaModelContext.
Variable document : TextDocument.
Variables (rank : string → nat) (bound : nat).
Hypothesis Hrank : ranksStringValues graph rank.
Hypothesis Hbound : ∀ id, rank id ≤ bound.

Abbreviation typesFor' := (typesFor graph interface capabilityModel).
Abbreviation getType' := (getType graph interface capabilityModel).
Abbreviation getInvalidTypeIssues' := (getInvalidTypeIssues graph interface capabilityModel).
Abbreviation getStringIssues' := (getStringIssues graph uri1 uri2 uri3).
Abbreviation getJsonValueIssues' :=
  (getJsonValueIssues graph uri1 uri2 uri3 interface capabilityModel inlineKey).
Abbreviation getArrayIssues' :=
  (getArrayIssues graph uri1 uri2 uri3 interface capabilityModel inlineKey).
Abbreviation getObjectIssues' :=
  (getObjectIssues graph uri1 uri2 uri3 interface capabilityModel inlineKey).

Lemma typesFor_returns fuel jsonKey :
  bound < fuel → returns (typesFor' fuel dtContext document jsonKey).
Proof.
  intros Hlt. unfold typesFor. apply returns_if; [|apply returns_ret].
  destruct (getIdFromShortName _ _) as [id|]; [|apply returns_ret].
  apply returns_if; [|apply returns_ret].
  apply returns_bind; [by eapply bounded_getTypesFromId | intros; apply returns_ret].
Qed.

(** The types found once are found again, from the cache. *)
Lemma typesFor_again fuel jsonKey r types r1 :
  typesFor' fuel dtContext document jsonKey r = Ok (Some types) r1 →
  typesFor' fuel dtContext document jsonKey r1 = Ok (Some types) r1.
Proof.
  unfold typesFor. destruct (given jsonKey); [|by intros [<- <-]%ret_Ok].
  destruct (getIdFromShortName _ _) as [id|]; [|by intros [? _]%ret_Ok].
  destruct (Js.truthy id); [|by intros [? _]%ret_Ok].
  intros (found & r2 & Hcall & [[= <-] <-]%ret_Ok)%bind_Ok.
  apply getTypesFromId_stored in Hcall.
  unfold bind. by rewrite (getTypesFromId_hit _ _ _ _ _ _ Hcall).
Qed.

Lemma getType_returns fuel jsonValue jsonKey :
  bound < fuel → returns (getType' fuel dtContext document jsonValue jsonKey).
Proof.
  intros Hlt. unfold getType. cbv zeta.
  assert (Hinferred : returns
            (types <- typesFor' fuel dtContext document jsonKey ;;
             match types with
             | Some [type] => ret (Some (OneType type))
             | _ => ret None
             end)).
  { apply returns_bind; [by apply typesFor_returns|].
    intros [[|type [|? ?]]|]; apply returns_ret. }
  destruct (Json.hasProperty jsonValue "@type") eqn:Hhas; [|done].
  destruct (Json_hasProperty_value _ _ Hhas) as [typeValue ->].
  destruct typeValue; try done; apply returns_ret.
Qed.

(** Where the type that [getType] returns comes from. *)
Lemma getType_shape fuel jsonValue jsonKey r type r' :
  getType' fuel dtContext document jsonValue jsonKey r = Ok type r' →
  match type with
  | Some (ManyTypes types) =>
      ∃ span elements,
        Json.getPropertyValue jsonValue "@type" = Some (Json.ArrayValue span elements) ∧
        types = map Json.toFriendlyString elements
  | Some (OneType type) =>
      is_Some (Json.getPropertyValue jsonValue "@type") ∨
      typesFor' fuel dtContext document jsonKey r = Ok (Some [type]) r'
  | None => True
  end.
Proof.
  unfold getType. cbv zeta.
  assert (Hinferred :
    (types <- typesFor' fuel dtContext document jsonKey ;;
     match types with
     | Some [type] => ret (Some (OneType type))
     | _ => ret None
     end) r = Ok type r' →
    match type with
    | Some (ManyTypes types) => False
    | Some (OneType type) =>
        typesFor' fuel dtContext document jsonKey r = Ok (Some [type]) r'
    | None => True
    end).
  { intros (types & r1 & Htypes & Hret)%bind_Ok.
    destruct types as [[|t [|? ?]]|]; apply ret_Ok in Hret as [<- <-]; done. }
  assert (Hinferred' :
    (types <- typesFor' fuel dtContext document jsonKey ;;
     match types with
     | Some [type] => ret (Some (OneType type))
     | _ => ret None
     end) r = Ok type r' →
    match type with
    | Some (ManyTypes types) =>
        ∃ span elements,
          Json.getPropertyValue jsonValue "@type" = Some (Json.ArrayValue span elements) ∧
          types = map Json.toFriendlyString elements
    | Some (OneType type) =>
        is_Some (Json.getPropertyValue jsonValue "@type") ∨
        typesFor' fuel dtContext document jsonKey r = Ok (Some [type]) r'
    | None => True
    end).
  { intros H. apply Hinferred in H. destruct type as [[?|?]|]; [by right|done|done]. }
  destruct (Json.hasProperty jsonValue "@type"); [|done].
  destruct (Json.getPropertyValue jsonValue "@type") as [typeValue|]; [|done].
  destruct typeValue; try done; intros [<- <-]%ret_Ok.
  - by eexists _, _.
  - left. by eexists.
Qed.

Lemma getStringIssues_returns fuel jsonValue isInlineInterface jsonKey :
  bound < fuel →
  returns (getStringIssues' fuel dtContext document jsonValue isInlineInterface jsonKey).
Proof.
  intros Hlt. unfold getStringIssues. apply returns_if; [apply returns_ret|].
  cbv zeta. apply returns_bind.
  - apply returns_if; [apply returns_ret|]. apply returns_if; [apply returns_ret|].
    apply returns_bind; [by eapply bounded_getStringValuesFromShortName|].
    intros; apply returns_ret.
  - intros found. repeat apply returns_if; apply returns_ret.
Qed.

Lemma getArrayElementNameIssues_returns jsonValue isInlineInterface :
  returns (getArrayElementNameIssues jsonValue isInlineInterface).
Proof.
  unfold getArrayElementNameIssues. apply returns_bind; [|intros; apply returns_ret].
  apply returns_forEach. intros acc elementValue _. cbv zeta.
  destruct elementValue; try apply returns_ret.
  destruct (Json.hasProperty _ "name") eqn:Hhas; [|apply returns_ret].
  destruct (Json_hasProperty_value _ _ Hhas) as [nameValue ->].
  destruct nameValue; try apply returns_ret.
  apply returns_if; apply returns_ret.
Qed.

Lemma getMissingRequiredPropertiesIssues_returns jsonValue type isInlineInterface :
  returns (getMissingRequiredPropertiesIssues jsonValue type isInlineInterface).
Proof.
  unfold getMissingRequiredPropertiesIssues. cbv zeta.
  apply returns_forEach. intros issues propertyName Hin.
  apply returns_if; [apply returns_ret|].
  destruct (Json_propertyNames_value _ _ Hin) as [propertyValue ->].
  destruct propertyValue as [|? [|? ?]| | | |]; apply returns_ret.
Qed.

Lemma getUnexpectedPropertiesIssues_returns fuel jsonValue type :
  bound < fuel →
  returns (getUnexpectedPropertiesIssues graph fuel dtContext jsonValue type).
Proof.
  intros Hlt. unfold getUnexpectedPropertiesIssues.
  assert (Hexpected : ∀ t, returns (expectedProperties graph fuel dtContext t)).
  { intros t. unfold expectedProperties.
    apply returns_bind; [by eapply bounded_getTypedPropertiesFromType|].
    intros; apply returns_ret. }
  apply returns_bind.
  - destruct type as [t|types]; [apply Hexpected|].
    apply returns_forEach. intros properties currentType _.
    apply returns_bind; [apply Hexpected | intros; apply returns_ret].
  - intros properties. cbv zeta. apply returns_forEach. intros issues [i property] Hin.
    simpl. apply returns_if; [|apply returns_ret].
    apply indexed_elem, lookup_lt_Some in Hin.
    pose proof (Json_propertyNames_length jsonValue) as Hlen.
    destruct (lookup_lt_is_Some_2 (Json.properties jsonValue) i ltac:(lia)) as [[name value] ->].
    apply returns_ret.
Qed.

Lemma getInvalidTypeIssues_returns fuel jsonValue jsonKey :
  bound < fuel →
  returns (getInvalidTypeIssues' fuel dtContext document jsonValue jsonKey).
Proof.
  intros Hlt r. unfold getInvalidTypeIssues.
  destruct (typesFor_returns fuel jsonKey Hlt r) as (valid & r1 & Hvalid).
  unfold bind at 1. rewrite Hvalid.
  destruct valid as [types|]; [|by eexists _, _].
  destruct (getType_returns fuel jsonValue jsonKey Hlt r1) as (type & r2 & Htype).
  unfold bind at 1. rewrite Htype.
  pose proof (getType_shape _ _ _ _ _ _ Htype) as Hshape.
  destruct type as [[t|ts]|]; [| |by eexists _, _].
  - destruct (negb (Js.includes t types)) eqn:Hincludes; [|by eexists _, _].
    destruct Hshape as [[typeValue ->]|Hinferred]; [by eexists _, _|].
    apply typesFor_again in Hvalid. rewrite Hvalid in Hinferred.
    injection Hinferred as -> _.
    simpl in Hincludes. by rewrite String.eqb_refl in Hincludes.
  - destruct Hshape as (span & elements & -> & ->). cbv zeta.
    clear Htype. revert r2. apply returns_bind.
    + apply returns_forEach. intros issues [index currentType] Hin. simpl fst. simpl snd.
      apply indexed_elem, lookup_lt_Some in Hin. rewrite length_map in Hin.
      change (Json.elements (Json.ArrayValue span elements)) with elements.
      destruct (lookup_lt_is_Some_2 elements index Hin) as [currentTypeObject ->].
      repeat apply returns_if; apply returns_ret.
    + intros issues. apply returns_if; apply returns_ret.
Qed.

Lemma getJsonValueIssues_S fuel jsonValue isInlineInterface jsonKey :
  getJsonValueIssues' (S fuel) dtContext document jsonValue isInlineInterface jsonKey =
  match jsonValue with
  | Json.ObjectValue _ _ =>
      getObjectIssues' fuel dtContext document jsonValue isInlineInterface jsonKey
  | Json.ArrayValue _ _ =>
      arrayIssues <- getArrayIssues' fuel dtContext document jsonValue
                                     isInlineInterface jsonKey ;;
      arrayElementNameIssues <- getArrayElementNameIssues jsonValue isInlineInterface ;;
      ret ([] ++ arrayIssues ++ arrayElementNameIssues)
  | Json.StringValue _ _ =>
      getStringIssues' fuel dtContext document jsonValue isInlineInterface jsonKey
  | _ => ret []
  end.
Proof. reflexivity. Qed.

Lemma getObjectIssues_S fuel jsonValue isInlineInterface jsonKey :
  getObjectIssues' (S fuel) dtContext document jsonValue isInlineInterface jsonKey =
  (typeIssues <- getInvalidTypeIssues' fuel dtContext document jsonValue jsonKey ;;
   match typeIssues with
   | Some typeIssues => ret typeIssues
   | None =>
       type <- getType' fuel dtContext document jsonValue jsonKey ;;
       let missingType :=
         ret [{| startIndex := Json.startIndex (Json.span jsonValue);
                 endIndex := Json.endIndex (Json.span jsonValue);
                 message := "@type is missing" |}] in
       let checked (type : TypeResult) :=
         issues <-
           match type with
           | ManyTypes types =>
               forEach types [] (λ issues currentType,
                 missingRequiredPropertiesIssues <-
                   getMissingRequiredPropertiesIssues jsonValue currentType
                                                      isInlineInterface ;;
                 ret (issues ++ missingRequiredPropertiesIssues))
           | OneType type =>
               getMissingRequiredPropertiesIssues jsonValue type isInlineInterface
           end ;;
         unexpectedPropertiesIssues <-
           getUnexpectedPropertiesIssues graph fuel dtContext jsonValue type ;;
         forEach (Json.propertyNames jsonValue) (issues ++ unexpectedPropertiesIssues)
           (λ issues propertyName,
              let _propertyName :=
                if isInlineInterface then propertyName
                else if keyIs jsonKey "implements" && String.eqb propertyName "schema"
                     then inlineKey else propertyName in
              let _isInlineInterface :=
                if isInlineInterface then isInlineInterface
                else keyIs jsonKey "implements" && String.eqb propertyName "schema" in
              match Json.getPropertyValue jsonValue propertyName with
              | Some propertyValue =>
                  childIssues <- getJsonValueIssues' fuel dtContext document propertyValue
                                                     _isInlineInterface (Some _propertyName) ;;
                  ret (issues ++ childIssues)
              | None => throw
              end) in
       match type with
       | None => missingType
       | Some (OneType type) =>
           if Js.truthy type then checked (OneType type) else missingType
       | Some (ManyTypes types) => checked (ManyTypes types)
       end
   end).
Proof. reflexivity. Qed.

Lemma getArrayIssues_S fuel jsonValue isInlineInterface jsonKey :
  getArrayIssues' (S fuel) dtContext document jsonValue isInlineInterface jsonKey =
  forEach (Json.elements jsonValue) []
    (λ issues elementValue,
       elementIssues <- getJsonValueIssues' fuel dtContext document elementValue
                          isInlineInterface jsonKey ;;
       ret (issues ++ elementIssues)).
Proof. reflexivity. Qed.

(** With fuel for the depth of the value and for the resolver, the first
    pass returns. *)
Lemma getJsonValueIssues_returns jsonValue :
  ∀ fuel isInlineInterface jsonKey,
    bound + 3 + 2 * Json.height jsonValue ≤ fuel →
    returns (getJsonValueIssues' fuel dtContext document jsonValue isInlineInterface jsonKey).
Proof.
  remember (Json.height jsonValue) as h eqn:Hh. revert jsonValue Hh.
  induction h as [h IH] using lt_wf_ind.
  intros jsonValue -> fuel isInlineInterface jsonKey Hfuel.
  destruct fuel as [|fuel]; [lia|]. rewrite getJsonValueIssues_S.
  destruct jsonValue as [span ps|span es|span text| | |]; try apply returns_ret.
  - (* an object *)
    destruct fuel as [|fuel]; [simpl in Hfuel; lia|].
    rewrite getObjectIssues_S.
    assert (Hresolver : bound < fuel) by lia.
    apply returns_bind; [by apply getInvalidTypeIssues_returns|].
    intros [typeIssues|]; [apply returns_ret|].
    apply returns_bind; [by apply getType_returns|].
    intros type. cbv zeta.
    assert (Hchecked : ∀ type : TypeResult, returns
      (issues <-
         match type with
         | ManyTypes types =>
             forEach types [] (λ issues currentType,
               missingRequiredPropertiesIssues <-
                 getMissingRequiredPropertiesIssues (Json.ObjectValue span ps)
                   currentType isInlineInterface ;;
               ret (issues ++ missingRequiredPropertiesIssues))
         | OneType type =>
             getMissingRequiredPropertiesIssues (Json.ObjectValue span ps) type
               isInlineInterface
         end ;;
       unexpectedPropertiesIssues <-
         getUnexpectedPropertiesIssues graph fuel dtContext (Json.ObjectValue span ps) type ;;
       forEach (Json.propertyNames (Json.ObjectValue span ps))
         (issues ++ unexpectedPropertiesIssues)
         (λ issues propertyName,
            match Json.getPropertyValue (Json.ObjectValue span ps) propertyName with
            | Some propertyValue =>
                childIssues <- getJsonValueIssues' fuel dtContext document propertyValue
                  (if isInlineInterface then isInlineInterface
                   else keyIs jsonKey "implements" && String.eqb propertyName "schema")
                  (Some (if isInlineInterface then propertyName
                         else if keyIs jsonKey "implements" && String.eqb propertyName "schema"
                              then inlineKey else propertyName)) ;;
                ret (issues ++ childIssues)
            | None => throw
            end))).
    { intros type'. apply returns_bind.
      - destruct type' as [t|types]; [apply getMissingRequiredPropertiesIssues_returns|].
        apply returns_forEach. intros issues currentType _.
        apply returns_bind; [apply getMissingRequiredPropertiesIssues_returns|].
        intros; apply returns_ret.
      - intros issues. apply returns_bind; [by eapply getUnexpectedPropertiesIssues_returns|].
        intros unexpected. apply returns_forEach. intros issues' propertyName Hin.
        destruct (Json_propertyNames_value _ _ Hin) as [propertyValue Hvalue].
        rewrite Hvalue. apply returns_bind; [|intros; apply returns_ret].
        pose proof (Json_getPropertyValue_height _ _ _ Hvalue) as Hheight.
        eapply (IH (Json.height propertyValue)); [exact Hheight|reflexivity|].
        simpl in Hfuel. simpl in Hheight. lia. }
    destruct type as [[t|types]|];
      [|exact (Hchecked (ManyTypes types))|apply returns_ret].
    apply returns_if; [exact (Hchecked (OneType t)) | apply returns_ret].
  - (* an array *)
    destruct fuel as [|fuel]; [simpl in Hfuel; lia|].
    apply returns_bind.
    + rewrite getArrayIssues_S.
      apply returns_forEach. intros issues elementValue Hin.
      apply returns_bind; [|intros; apply returns_ret].
      pose proof (Json_elements_height _ _ Hin) as Hheight.
      eapply (IH (Json.height elementValue)); [exact Hheight|reflexivity|].
      simpl in Hfuel. simpl in Hheight. lia.
    + intros arrayIssues.
      apply returns_bind; [apply getArrayElementNameIssues_returns|].
      intros; apply returns_ret.
  - (* a string *)
    apply getStringIssues_returns. lia.
Qed.

Lemma getTypeIssues_S fuel jsonValue jsonKey isArrayElement :
  getTypeIssues graph (S fuel) dtContext document jsonValue jsonKey isArrayElement =
  (resolved <-
     (if negb (given jsonKey) then ret (Some ["object"])
      else if negb isArrayElement && isArrayFromShortName (default "" jsonKey)
           then ret (Some ["array"])
           else match getIdFromShortName dtContext (default "" jsonKey) with
                | Some id =>
                    if Js.truthy id then
                      valueTypes <- getValueTypesFromId graph fuel dtContext id ;;
                      ret (Some (items valueTypes))
                    else ret None
                | None => ret None
                end) ;;
   match resolved with
   | None => ret []
   | Some rawValueTypes =>
       match jsonValue with
       | Json.ArrayValue _ elements =>
           forEach elements [] (λ issues element,
             elementIssues <- getTypeIssues graph fuel dtContext document element jsonKey true ;;
             ret (issues ++ elementIssues))
       | Json.ObjectValue _ _ =>
           forEach (Json.propertyNames jsonValue) [] (λ issues key,
             match Json.getPropertyValue jsonValue key with
             | Some value =>
                 valueIssues <- getTypeIssues graph fuel dtContext document value
                                              (Some key) false ;;
                 ret (issues ++ valueIssues)
             | None => throw
             end)
       | Json.NumberValue _ _ =>
           if negb (Js.includes "float" rawValueTypes) &&
              negb (Js.includes "double" rawValueTypes) then
             let value := Js.Number (Json.toFriendlyString jsonValue) in
             if Js.notInteger value then
               ret [{| startIndex := Json.startIndex (Json.span jsonValue);
                       endIndex := Json.endIndex (Json.span jsonValue);
                       message := "Invalid value. Valid value is " +:+
                                  Js.join ", " rawValueTypes +:+ "." |}]
             else ret []
           else ret []
       | _ => ret []
       end
   end).
Proof. reflexivity. Qed.

Lemma getTypeIssues_returns jsonValue :
  ∀ fuel jsonKey isArrayElement,
    bound + 2 + Json.height jsonValue ≤ fuel →
    returns (getTypeIssues graph fuel dtContext document jsonValue jsonKey isArrayElement).
Proof.
  remember (Json.height jsonValue) as h eqn:Hh. revert jsonValue Hh.
  induction h as [h IH] using lt_wf_ind.
  intros jsonValue -> fuel jsonKey isArrayElement Hfuel.
  destruct fuel as [|fuel]; [lia|]. rewrite getTypeIssues_S.
  apply returns_bind.
  - apply returns_if; [apply returns_ret|]. apply returns_if; [apply returns_ret|].
    destruct (getIdFromShortName _ _) as [id|]; [|apply returns_ret].
    apply returns_if; [|apply returns_ret].
    apply returns_bind; [|intros; apply returns_ret].
    eapply bounded_getValueTypesFromId; [exact Hrank|exact Hbound|lia].
  - intros [rawValueTypes|]; [|apply returns_ret].
    destruct jsonValue as [span ps|span es| |span text| |]; try apply returns_ret.
    + apply returns_forEach. intros issues key Hin.
      destruct (Json_propertyNames_value _ _ Hin) as [value Hvalue]. rewrite Hvalue.
      apply returns_bind; [|intros; apply returns_ret].
      pose proof (Json_getPropertyValue_height _ _ _ Hvalue) as Hheight.
      eapply (IH (Json.height value)); [exact Hheight|reflexivity|]. lia.
    + apply returns_forEach. intros issues element Hin.
      apply returns_bind; [|intros; apply returns_ret].
      pose proof (Json_elements_height (Json.ArrayValue span es) _ Hin) as Hheight.
      eapply (IH (Json.height element)); [exact Hheight|reflexivity|]. lia.
    + cbv zeta. repeat apply returns_if; apply returns_ret.
Qed.

(** The depth that a pass needs: that of the traversals and, twice, that of
    the document. *)
Lemma getIssues_returns (parse : string → option Json.ParseResult) fuel :
  (∀ json value, parse (getText document) = Some json → Json.value json = Some value →
                 bound + 3 + 2 * Json.height value ≤ fuel) →
  returns (getIssues graph uri1 uri2 uri3 interface capabilityModel inlineKey
                     parse fuel dtContext document).
Proof.
  intros Hfuel. unfold getIssues.
  destruct (parse (getText document)) as [[[value|]]|]; try apply returns_ret.
  specialize (Hfuel _ value eq_refl eq_refl). simpl Json.value.
  apply returns_bind; [by apply getJsonValueIssues_returns|].
  intros issues. apply returns_bind; [apply getTypeIssues_returns; lia|].
  intros; apply returns_ret.
Qed.

End DiagnosticsReturn.

(** ** The traversals on graphs without cycles *)

(** On [Sample.cyclic] the query for the class that is below itself calls
    itself with the caches as they were. *)
Lemma cyclic_runs_out fuel r :
  PropertiesFromId (cache r) !! "v/Telemetry" = None →
  getPropertiesFromId Sample.cyclic fuel Sample.context "v/Telemetry" r = OutOfFuel.
Proof.
  revert r. induction fuel as [|fuel IH]; intros r Hnone;
    rewrite getPropertiesFromId_unfold, bind_cached, Hnone; [reflexivity|].
  replace (isInternationalizationFromId Sample.context "v/Telemetry") with false
    by reflexivity.
  unfold bind at 1.
  replace (Edges Sample.cyclic)
    with [Sample.edge "v/Telemetry" LABEL.SUBCLASS "v/Telemetry"] by reflexivity.
  cbn [forEach].
  replace (isDomainOf (Sample.edge "v/Telemetry" LABEL.SUBCLASS "v/Telemetry") "v/Telemetry")
    with false by reflexivity.
  replace (isSubClassFrom (Sample.edge "v/Telemetry" LABEL.SUBCLASS "v/Telemetry")
             "v/Telemetry") with true by reflexivity.
  unfold bind at 1. unfold bind at 1.
  replace (Id (TargetNode (Sample.edge "v/Telemetry" LABEL.SUBCLASS "v/Telemetry")))
    with "v/Telemetry" by reflexivity.
  by rewrite (IH r Hnone).
Qed.


Lemma chainId_length (k : nat) : String.length (Sample2.chainId k) = S k.
Proof. induction k as [|k IH]; simpl; [done | by rewrite IH]. Qed.

Lemma chainId_eqb (j k : nat) :
  j ≠ k → String.eqb (Sample2.chainId j) (Sample2.chainId k) = false.
Proof.
  intros Hne. apply String.eqb_neq. intros Heq. apply Hne.
  apply (f_equal String.length) in Heq. rewrite !chainId_length in Heq. lia.
Qed.

Lemma chain_ranked (n : nat) :
  ranksProperties (Sample2.chain n) (λ id, S n - String.length id).
Proof.
  unfold ranksProperties, Sample2.chain. cbn [Edges].
  apply Forall_forall. intros edge Hin _.
  apply list_elem_of_fmap in Hin as (k & -> & Hk). apply elem_of_seq in Hk.
  change (Id (TargetNode (Sample.edge (Sample2.chainId k) LABEL.SUBCLASS
                                      (Sample2.chainId (S k)))))
    with (Sample2.chainId (S k)).
  change (Id (SourceNode (Sample.edge (Sample2.chainId k) LABEL.SUBCLASS
                                      (Sample2.chainId (S k)))))
    with (Sample2.chainId k).
  rewrite !chainId_length. lia.
Qed.

(** The query for a class of a chain descends along it, with the caches as
    they were, as far as the fuel reaches. *)
Lemma chain_runs_out (n fuel : nat) (r : Resolver) :
  PropertiesFromId (cache r) = ∅ →
  ∀ k, k + fuel ≤ n →
       getPropertiesFromId (Sample2.chain n) fuel Sample2.bare (Sample2.chainId k) r =
         OutOfFuel.
Proof.
  intros Hempty. induction fuel as [|fuel IH]; intros k Hk;
    rewrite getPropertiesFromId_unfold, bind_cached, Hempty, lookup_empty;
    [reflexivity|].
  replace (isInternationalizationFromId Sample2.bare (Sample2.chainId k)) with false
    by reflexivity.
  unfold bind at 1.
  match goal with |- context [forEach _ _ ?b] => set (body := b) end.
  assert (Hloop : ∀ (js : list nat) acc, k ∈ js →
            forEach (map (λ j, Sample.edge (Sample2.chainId j) LABEL.SUBCLASS
                                           (Sample2.chainId (S j))) js) acc body r =
              OutOfFuel).
  { induction js as [|j js IHjs]; intros acc Hin; [by apply elem_of_nil in Hin|].
    cbn [map]. rewrite forEach_cons. unfold body at 1.
    replace (isDomainOf (Sample.edge (Sample2.chainId j) LABEL.SUBCLASS
                                     (Sample2.chainId (S j))) (Sample2.chainId k))
      with false by (unfold isDomainOf; simpl; by rewrite andb_false_r).
    unfold isSubClassFrom. cbn [Id TargetNode SourceNode Label Sample.edge Sample.node].
    destruct (decide (j = k)) as [->|Hne].
    - rewrite !String.eqb_refl. change (true && true) with true. cbv beta iota.
      unfold bind. rewrite IH by lia. reflexivity.
    - rewrite (chainId_eqb j k Hne). change (false && _) with false. cbv beta iota.
      unfold ret at 1.
      apply IHjs. by apply elem_of_cons in Hin as [->|Hin]. }
  simpl Edges. rewrite Hloop; [reflexivity|]. apply elem_of_seq. lia.
Qed.



(** ** Coherence is kept by every query *)

Section Keeps.

Context {P : Resolver → Prop}.

Lemma keeps_ret {A} (a : A) : keeps P (ret a).
Proof. by intros r a' r' HP [_ <-]%ret_Ok. Qed.

Lemma keeps_bind {A B} (m : M A) (k : A → M B) :
  keeps P m → (∀ a, keeps P (k a)) → keeps P (bind m k).
Proof.
  intros Hm Hk r b r' HP (a & r1 & Ha & Hb)%bind_Ok.
  eapply Hk; [|exact Hb]. by eapply Hm.
Qed.

Lemma keeps_forEach {A B} (l : list A) (body : B → A → M B) :
  (∀ acc x, keeps P (body acc x)) → ∀ acc, keeps P (forEach l acc body).
Proof.
  intros Hbody. induction l as [|x l IH]; intros acc; simpl.
  - apply keeps_ret.
  - apply keeps_bind; [apply Hbody | apply IH].
Qed.

Lemma keeps_if {A} (b : bool) (m1 m2 : M A) :
  keeps P m1 → keeps P m2 → keeps P (if b then m1 else m2).
Proof. by destruct b. Qed.

Lemma keeps_throw {A} : keeps P (@throw A).
Proof. by intros r a r' _ H. Qed.

Lemma keeps_outOfFuel {A} : keeps P (@outOfFuel A).
Proof. by intros r a r' _ H. Qed.

End Keeps.

Section CoherenceKept.

Variable graph : DigitalTwinMetaModelGraph.
Variables (uri1 uri2 uri3 interface capabilityModel inlineKey : string).
Variable dtContext : DigitalTwinMetaModelContext.
Variable document : TextDocument.

Abbreviation kept := (keeps (coherent graph dtContext)).

Lemma kept_alloc {A} (l : list A) : kept (alloc l).
Proof. intros r a r' Hc H. by eapply coherent_alloc. Qed.

Lemma kept_getPropertiesFromId fuel id : kept (getPropertiesFromId graph fuel dtContext id).
Proof. intros r a r' Hc H. by destruct (getPropertiesFromId_coherent _ _ _ _ _ _ _ Hc H). Qed.

Lemma kept_getTypesFromId fuel id : kept (getTypesFromId graph fuel dtContext id).
Proof. intros r a r' Hc H. by destruct (getTypesFromId_coherent _ _ _ _ _ _ _ Hc H). Qed.

Lemma kept_getStringValuesFromId fuel id :
  kept (getStringValuesFromId graph fuel dtContext id).
Proof.
  revert id. induction fuel as [|fuel IH]; intros id r a r' Hc;
    rewrite getStringValuesFromId_unfold, bind_cached;
    (destruct (StringValuesFromId (cache r) !! id); [by intros [_ <-]%ret_Ok|]);
    [done|].
  revert Hc. generalize r a r'. change (kept
    (found <- forEach (Edges graph) ([], false) (λ acc edge,
       let values := fst acc in
       let hasProperty := if isDomainOf edge id then true else snd acc in
       values <-
         (if isRangeFrom edge id then
            range <- getStringValuesFromId graph fuel dtContext (Id (TargetNode edge)) ;;
            ret (values ++ items range)
          else ret values) ;;
       values <-
         (if isSubClassTo edge id then
            sub <- getStringValuesFromId graph fuel dtContext (Id (SourceNode edge)) ;;
            ret (values ++ items sub)
          else ret values) ;;
       values <-
         (if isTypeTo edge id then
            inst <- getStringValuesFromId graph fuel dtContext (Id (SourceNode edge)) ;;
            ret (values ++ items inst)
          else ret values) ;;
       ret (values, hasProperty)) ;;
     let values := fst found in
     let hasProperty := snd found in
     if Nat.eqb (length values) 0 then
       if hasProperty then
         stored <- alloc [] ;;
         setStringValuesFromId id stored ;;;
         alloc []
       else
         let shortName := getShortNameFromId dtContext id in
         values <- alloc (if Js.truthy shortName then values ++ [shortName] else values) ;;
         setStringValuesFromId id values ;;;
         ret values
     else
       values <- alloc values ;;
       setStringValuesFromId id values ;;;
       ret values)).
  assert (Hset : ∀ stored, kept (setStringValuesFromId id stored)).
  { intros stored r0 u r1 Hc H. by eapply coherent_setStringValuesFromId. }
  apply keeps_bind.
  - apply keeps_forEach. intros acc edge. cbv zeta.
    repeat (apply keeps_bind; [apply keeps_if;
      [apply keeps_bind; [apply IH | intros; apply keeps_ret] | apply keeps_ret]|intros ?]).
    apply keeps_ret.
  - intros found. cbv zeta. repeat apply keeps_if;
      (apply keeps_bind; [apply kept_alloc|]; intros ?;
       apply keeps_bind; [apply Hset|]; intros ?;
       first [apply kept_alloc | apply keeps_ret]).
Qed.

Lemma kept_getValueTypesFromId fuel id :
  kept (getValueTypesFromId graph fuel dtContext id).
Proof.
  unfold getValueTypesFromId. apply keeps_if; [apply kept_alloc|].
  intros r a r' Hc. rewrite bind_cached.
  destruct (ValueTypesFromId (cache r) !! id); [by intros [_ <-]%ret_Ok|].
  revert Hc. generalize r a r'. change (kept
    (values <- getStringValuesFromId graph fuel dtContext id ;;
     valueTypes <- alloc (flat_map valueTypeOf (items values)) ;;
     setValueTypesFromId id valueTypes ;;;
     ret valueTypes)).
  apply keeps_bind; [apply kept_getStringValuesFromId|]. intros values.
  apply keeps_bind; [apply kept_alloc|]. intros valueTypes.
  apply keeps_bind; [|intros; apply keeps_ret].
  intros r0 u r1 Hc H. by eapply coherent_setValueTypesFromId.
Qed.

Lemma kept_getTypedPropertiesFromId fuel id :
  kept (getTypedPropertiesFromId graph fuel dtContext id).
Proof.
  intros r a r' Hc. unfold getTypedPropertiesFromId. rewrite bind_cached.
  destruct (TypedPropertiesFromId (cache r) !! id); [by intros [_ <-]%ret_Ok|].
  destruct (isInternationalizationFromId dtContext id) eqn:Hlang.
  - intros (results & r1 & [-> ->]%alloc_Ok & (u & r2 & Hset & [_ <-]%ret_Ok)%bind_Ok)%bind_Ok.
    refine (coherent_setTypedPropertiesFromId _ _ _ _ _ _ _ _ _ Hset);
      [|intros _; reflexivity].
    by apply (coherent_cache _ _ r).
  - intros (keys & r1 & Hkeys & (results & r2 & Hloop & H)%bind_Ok)%bind_Ok.
    apply bind_Ok in H as (stored & r3 & Hstored & (u & r4 & Hset & [_ <-]%ret_Ok)%bind_Ok).
    refine (coherent_setTypedPropertiesFromId _ _ _ _ _ _ _ _ _ Hset);
      [|by rewrite Hlang].
    eapply kept_alloc; [|exact Hstored].
    refine (keeps_forEach (P:=coherent graph dtContext) _ _ _ _ _ _ _
              (kept_getPropertiesFromId _ _ _ _ _ Hc Hkeys) Hloop).
    intros results' key. destruct (getIdFromShortName dtContext key); [|apply keeps_ret].
    apply keeps_if; [|apply keeps_ret].
    apply keeps_bind; [|intros; apply keeps_ret].
    apply keeps_if; [apply keeps_ret|].
    apply keeps_bind; [apply kept_getValueTypesFromId | intros; apply keeps_ret].
Qed.

Lemma kept_getTypedPropertiesFromType fuel type :
  kept (getTypedPropertiesFromType graph fuel dtContext type).
Proof.
  unfold getTypedPropertiesFromType. cbv zeta.
  apply keeps_if; [apply kept_alloc | apply kept_getTypedPropertiesFromId].
Qed.

Lemma kept_getStringValuesFromShortName fuel shortName :
  kept (getStringValuesFromShortName graph fuel dtContext shortName).
Proof.
  unfold getStringValuesFromShortName.
  destruct (getIdFromShortName dtContext shortName); [|apply kept_alloc].
  repeat (apply keeps_if; [apply kept_alloc|]). apply kept_getStringValuesFromId.
Qed.

End CoherenceKept.

(** ** Names, labels and ids *)

Lemma String_prefix_app (p s : string) : String.prefix p (p +:+ s) = true.
Proof.
  induction p as [|a p IH]; simpl.
  - by destruct s.
  - destruct (ascii_dec a a); [exact IH | congruence].
Qed.

Lemma Js_substr_app (p s : string) : Js.substr (p +:+ s) (String.length p) = s.
Proof. induction p as [|a p IH]; simpl; [by destruct s | exact IH]. Qed.

Lemma Js_truthy_true (s : string) : Js.truthy s = true ↔ s ≠ "".
Proof.
  unfold Js.truthy. rewrite negb_true_iff. apply String.eqb_neq.
Qed.

Lemma ctxGet_elem es key item : ctxGet es key = Some item → (key, item) ∈ es.
Proof.
  induction es as [|[k v] es IH]; simpl; [done|].
  destruct (String.eqb k key) eqn:Hk.
  - intros [= ->]. apply String.eqb_eq in Hk as ->. by left.
  - intros H. right. by apply IH.
Qed.

Lemma ctxGet_NoDup es key item :
  NoDup (map fst es) → (key, item) ∈ es → ctxGet es key = Some item.
Proof.
  induction es as [|[k v] es IH]; simpl; intros Hnodup Hin.
  - by apply elem_of_nil in Hin.
  - apply NoDup_cons in Hnodup as [Hk Hnodup].
    apply elem_of_cons in Hin as [[= <- <-]|Hin].
    + by rewrite String.eqb_refl.
    + destruct (String.eqb k key) eqn:Heq; [|by apply IH].
      apply String.eqb_eq in Heq as ->. destruct Hk.
      apply list_elem_of_fmap. by exists (key, item).
Qed.

(** X1.  [getLabelFromId] undoes [getIdFromLabel] on every label that is not
    empty, whatever the vocabulary; so the label of the id that
    [getIdFromType] gives to a type name is the path that the context has
    for the name, or the name itself when the context has none. *)
Theorem getLabelFromId_getIdFromLabel
    (dtContext : DigitalTwinMetaModelContext) (label : string) :
  label ≠ "" →
  getLabelFromId dtContext (getIdFromLabel dtContext label) = label ∧
  getLabelFromId dtContext (getIdFromType dtContext label) =
    match ctxGet (entries dtContext) label with
    | Some item => if Js.truthy (pathOf item) then pathOf item else label
    | None => label
    end.
Proof.
  intros Hlabel.
  assert (Hround : ∀ l, l ≠ "" →
            getLabelFromId dtContext (getIdFromLabel dtContext l) = l).
  { intros l Hl. unfold getLabelFromId, getIdFromLabel, Js.startsWith.
    rewrite String_prefix_app, Js_substr_app.
    by apply Js_truthy_true in Hl as ->. }
  split; [by apply Hround|].
  unfold getIdFromType.
  destruct (ctxGet (entries dtContext) label) as [[value|id container]|]; simpl.
  - destruct (Js.truthy value) eqn:Hvalue; apply Hround; [|done].
    by apply Js_truthy_true.
  - destruct (Js.truthy id) eqn:Hid; apply Hround; [|done].
    by apply Js_truthy_true.
  - by apply Hround.
Qed.

Lemma getLabelFromId_getIdFromLabel_witness :
  "Telemetry" ≠ "" ∧
  getLabelFromId Sample.context (getIdFromLabel Sample.context "Telemetry") = "Telemetry" ∧
  getLabelFromId Sample.context (getIdFromType Sample.context "Telemetry") = "Telemetry".
Proof.
  split; [discriminate|].
  apply (getLabelFromId_getIdFromLabel Sample.context "Telemetry"). discriminate.
Defined.

(** X2.  Under a context without repeated keys, the id of a short name that
    is not a keyword leads back, by [getShortNameFromId], to a short name
    with the same id; it is the short name itself when no other one shares
    its id. *)
Theorem getShortNameFromId_getIdFromShortName
    (dtContext : DigitalTwinMetaModelContext) (shortName id : string) :
  NoDup (map fst (entries dtContext)) →
  isKeyword shortName = false →
  getIdFromShortName dtContext shortName = Some id →
  getIdFromShortName dtContext (getShortNameFromId dtContext id) = Some id ∧
  ((∀ other, isKeyword other = false →
             getIdFromShortName dtContext other = Some id → other = shortName) →
   getShortNameFromId dtContext id = shortName).
Proof.
  intros Hnodup Hkeyword Hid. unfold getIdFromShortName in Hid.
  destruct (ctxGet (entries dtContext) shortName) as [item|] eqn:Hget; [|done].
  injection Hid as <-. apply ctxGet_elem in Hget.
  unfold getShortNameFromId.
  destruct (List.find _ (entries dtContext)) as [[found item']|] eqn:Hfind.
  - apply find_some in Hfind as [Hin Htest]. simpl in Htest.
    apply andb_true_iff in Htest as [Hfound Heq].
    apply negb_true_iff in Hfound. apply String.eqb_eq in Heq.
    apply list_elem_of_In in Hin.
    assert (Hback : getIdFromShortName dtContext found =
                      Some (vocab dtContext +:+ pathOf item)).
    { unfold getIdFromShortName. rewrite (ctxGet_NoDup _ _ _ Hnodup Hin).
      by rewrite Heq. }
    split; [exact Hback|]. intros Honly. by apply Honly.
  - apply list_elem_of_In in Hget.
    pose proof (find_none _ _ Hfind _ Hget) as Htest. simpl in Htest.
    by rewrite Hkeyword, String.eqb_refl in Htest.
Qed.

Lemma getShortNameFromId_getIdFromShortName_witness :
  getIdFromShortName Sample.context (getShortNameFromId Sample.context "v/count") =
    Some "v/count" ∧
  getShortNameFromId Sample.context "v/count" = "count".
Proof.
  assert (Hnodup : NoDup (map fst (entries Sample.context))).
  { apply (bool_decide_unpack _). by vm_compute. }
  destruct (getShortNameFromId_getIdFromShortName Sample.context "count" "v/count"
              Hnodup eq_refl eq_refl) as [Hback Honly].
  split; [exact Hback|]. apply Honly. intros other Hkeyword Hother.
  unfold getIdFromShortName in Hother.
  destruct (ctxGet (entries Sample.context) other) as [item|] eqn:Hget; [|done].
  apply ctxGet_elem in Hget. injection Hother as Hother.
  simpl in Hget.
  repeat (apply elem_of_cons in Hget as [[= -> ->]|Hget];
          [vm_compute in Hother, Hkeyword; congruence|]).
  by apply elem_of_nil in Hget.
Defined.

(** X3.  From coherent caches and under a context without repeated keys,
    the name that [getPropertyNameFromId] returns for an id is a short name
    whose id it is; the id itself is returned only when no short name of the
    context has it. *)
Theorem getPropertyNameFromId_resolves
    (graph : DigitalTwinMetaModelGraph) (dtContext : DigitalTwinMetaModelContext)
    (id name : string) (r r' : Resolver) :
  coherent graph dtContext r →
  NoDup (map fst (entries dtContext)) →
  getPropertyNameFromId dtContext id r = Ok name r' →
  getIdFromShortName dtContext name = Some id ∨
  (name = id ∧ ∀ shortName, getIdFromShortName dtContext shortName ≠ Some id).
Proof.
  intros Hc Hnodup H.
  destruct (getPropertyNameFromId_coherent _ _ _ _ _ _ Hc H) as [_ ->].
  unfold Spec.propertyNameFromId, findPropertyName.
  destruct (List.find _ (entries dtContext)) as [[key item]|] eqn:Hfind; simpl.
  - left. apply find_some in Hfind as [Hin Heq]. simpl in Heq.
    apply String.eqb_eq in Heq. apply list_elem_of_In in Hin.
    unfold getIdFromShortName. rewrite (ctxGet_NoDup _ _ _ Hnodup Hin).
    by rewrite Heq.
  - right. split; [done|]. intros shortName Hid. unfold getIdFromShortName in Hid.
    destruct (ctxGet (entries dtContext) shortName) as [item|] eqn:Hget; [|done].
    injection Hid as Hid. apply ctxGet_elem, list_elem_of_In in Hget.
    pose proof (find_none _ _ Hfind _ Hget) as Htest. simpl in Htest.
    by rewrite Hid, String.eqb_refl in Htest.
Qed.

Lemma getPropertyNameFromId_resolves_witness :
  getIdFromShortName Sample.context "count" = Some "v/count" ∨
  ("count" = "v/count" ∧
   ∀ shortName, getIdFromShortName Sample.context shortName ≠ Some "v/count").
Proof.
  assert (Hnodup : NoDup (map fst (entries Sample.context))).
  { apply (bool_decide_unpack _). by vm_compute. }
  refine (getPropertyNameFromId_resolves Sample.graph Sample.context "v/count" "count"
            newResolver _ (coherent_new _ _) Hnodup _).
  reflexivity.
Defined.

(** X4.  Once [getCommentFromId] has been called for an id, every later
    call returns the string that the first call left in the cache and leaves
    the cache alone: the comment that the first call returned, and the empty
    string where the first call returned [undefined].  The entries of the
    other ids are not touched. *)
Theorem getCommentFromId_again
    (graph : DigitalTwinMetaModelGraph) (id : string)
    (CommnetFromId : gmap string string) :
  let first := getCommentFromId graph id CommnetFromId in
  getCommentFromId graph id first.2 = (Some (default "" first.1), first.2) ∧
  ∀ other, other ≠ id → first.2 !! other = CommnetFromId !! other.
Proof.
  unfold getCommentFromId.
  destruct (CommnetFromId !! id) as [comment|] eqn:Hhit; simpl.
  - by rewrite Hhit.
  - destruct (List.find _ (Edges graph)) as [edge|]; simpl.
    + rewrite lookup_insert_eq. split.
      * destruct (Value (TargetNode edge)) as [value|]; simpl; [|done].
        unfold Js.truthy. destruct (String.eqb value "") eqn:Hvalue; simpl; [|done].
        by apply String.eqb_eq in Hvalue as ->.
      * intros other Hother. by apply lookup_insert_ne.
    + rewrite lookup_insert_eq. split; [done|].
      intros other Hother. by apply lookup_insert_ne.
Qed.

Lemma getCommentFromId_again_witness :
  let first := getCommentFromId Sample2.commented "v/Command" ∅ in
  first.1 = None ∧
  getCommentFromId Sample2.commented "v/Command" first.2 = (Some "", first.2).
Proof.
  split; [reflexivity|].
  exact (proj1 (getCommentFromId_again Sample2.commented "v/Command" ∅)).
Defined.

(** ** What the checks of the diagnostics report *)

(** A property of the accumulator that every step of a loop keeps. *)
Lemma forEach_invariant {A B} (I : B → Prop) (l : list A) (body : B → A → M B) :
  (∀ acc x r acc' r', x ∈ l → I acc → body acc x r = Ok acc' r' → I acc') →
  ∀ acc r out r', I acc → forEach l acc body r = Ok out r' → I out.
Proof.
  induction l as [|x l IH]; intros Hbody acc r out r' HI H; simpl in H.
  - by apply ret_Ok in H as [<- _].
  - apply bind_Ok in H as (acc1 & r1 & Hstep & Hrest).
    eapply IH; [|eapply Hbody; [by left|exact HI|exact Hstep]|exact Hrest].
    intros acc2 y r2 acc3 r3 Hy. apply Hbody. by right.
Qed.

(** A loop whose steps compute without the state is a fold. *)
Lemma forEach_pure {A B} (l : list A) (body : B → A → M B) (step : B → A → B) r :
  (∀ acc x, x ∈ l → body acc x r = Ok (step acc x) r) →
  ∀ acc, forEach l acc body r = Ok (foldl step acc l) r.
Proof.
  induction l as [|x l IH]; intros Hbody acc; simpl; [done|].
  unfold bind. rewrite Hbody by by left. apply IH.
  intros acc' y Hy. apply Hbody. by right.
Qed.

Lemma Js_uniqAcc_seen (seen seen' l : list string) :
  (∀ x, x ∈ seen ↔ x ∈ seen') → Js.uniqAcc seen l = Js.uniqAcc seen' l.
Proof.
  revert seen seen'. induction l as [|y l IH]; intros seen seen' Hseen; simpl; [done|].
  assert (Js.includes y seen = Js.includes y seen') as ->.
  { destruct (Js.includes y seen') eqn:E.
    - apply Js_includes_elem. apply Js_includes_elem in E. by apply Hseen.
    - apply Js_includes_false. apply Js_includes_false in E. by rewrite Hseen. }
  destruct (Js.includes y seen'); [by apply IH|]. f_equal. apply IH.
  intros x. rewrite !elem_of_cons, Hseen. done.
Qed.

Lemma Js_uniqAcc_full (seen l : list string) :
  length (Js.uniqAcc seen l) = length l → Js.uniqAcc seen l = l.
Proof.
  revert seen. induction l as [|y l IH]; intros seen; simpl; [done|].
  destruct (Js.includes y seen); simpl.
  - pose proof (Js_uniqAcc_length seen l). lia.
  - intros [= Hlength]. f_equal. by apply IH.
Qed.

Lemma Js_uniqAcc_NoDup_id (seen l : list string) :
  NoDup l → (∀ x, x ∈ l → x ∉ seen) → Js.uniqAcc seen l = l.
Proof.
  revert seen. induction l as [|y l IH]; intros seen Hnodup Hseen; simpl; [done|].
  apply NoDup_cons in Hnodup as [Hy Hnodup].
  assert (Js.includes y seen = false) as ->.
  { apply Js_includes_false, Hseen. by left. }
  f_equal. apply IH; [done|]. intros x Hx [->|Hin]%elem_of_cons; [done|].
  revert Hin. apply Hseen. by right.
Qed.

Lemma Js_uniq_length_NoDup (l : list string) :
  length (Js.uniq l) = length l ↔ NoDup l.
Proof.
  split.
  - intros Hlength. rewrite <- (Js_uniqAcc_full [] l Hlength). apply Js_uniq_NoDup.
  - intros Hnodup. unfold Js.uniq. rewrite Js_uniqAcc_NoDup_id; [done|done|].
    intros x _. apply not_elem_of_nil.
Qed.

(** X5.  The check of the element names always returns, without a change
    of the state, one issue for every element whose name (the string under
    [name] of an object) an earlier element has: as many issues as names
    less the distinct ones, each of them about one of the names, and none
    exactly when the names are distinct. *)
Theorem getArrayElementNameIssues_repeats
    (jsonValue : Json.Value) (isInlineInterface : bool) (r : Resolver) :
  let names := omap elementName (Json.elements jsonValue) in
  ∃ issues,
    getArrayElementNameIssues jsonValue isInlineInterface r = Ok issues r ∧
    length issues = length names - length (Js.uniq names) ∧
    (issues = [] ↔ NoDup names) ∧
    Forall (λ issue, ∃ name,
              name ∈ names ∧
              message issue = name +:+ " has already been assigned to another item.")
           issues.
Proof.
  intros names. unfold getArrayElementNameIssues.
  match goal with |- context [forEach _ _ ?b] => set (body := b) end.
  pose (Q := λ (issue : Issue), ∃ name,
          name ∈ names ∧
          message issue = name +:+ " has already been assigned to another item.").
  assert (Hsome : ∀ element elements name, elementName element = Some name →
            omap elementName (element :: elements) = name :: omap elementName elements).
  { intros element elements name H.
    change (omap elementName (element :: elements))
      with (match elementName element with
            | Some y => y :: omap elementName elements
            | None => omap elementName elements
            end).
    by rewrite H. }
  assert (Hnone : ∀ element elements, elementName element = None →
            omap elementName (element :: elements) = omap elementName elements).
  { intros element elements H.
    change (omap elementName (element :: elements))
      with (match elementName element with
            | Some y => y :: omap elementName elements
            | None => omap elementName elements
            end).
    by rewrite H. }
  assert (Hloop : ∀ elements issues0 seen0, ∃ issues1 seen1,
            forEach elements (issues0, seen0) body r = Ok (issues1, seen1) r ∧
            length issues1 + length (Js.uniqAcc seen0 (omap elementName elements)) =
              length issues0 + length (omap elementName elements) ∧
            ((∀ name, name ∈ omap elementName elements → name ∈ names) →
             Forall Q issues0 → Forall Q issues1)).
  { induction elements as [|element elements IH]; intros issues0 seen0.
    - exists issues0, seen0. simpl. split; [done|]. split; [lia|done].
    - assert (Hskip : elementName element = None →
                body (issues0, seen0) element r = Ok (issues0, seen0) r →
                ∃ issues1 seen1,
                  forEach (element :: elements) (issues0, seen0) body r =
                    Ok (issues1, seen1) r ∧
                  length issues1 +
                    length (Js.uniqAcc seen0 (omap elementName (element :: elements))) =
                    length issues0 + length (omap elementName (element :: elements)) ∧
                  ((∀ name, name ∈ omap elementName (element :: elements) →
                            name ∈ names) →
                   Forall Q issues0 → Forall Q issues1)).
      { intros Hname Hstep.
        destruct (IH issues0 seen0) as (issues1 & seen1 & H1 & H2 & H3).
        exists issues1, seen1. rewrite forEach_cons, Hstep.
        by rewrite (Hnone _ _ Hname). }
      destruct element as [span ps| | | | |]; try (apply Hskip; reflexivity).
      destruct (Json.getPropertyValue (Json.ObjectValue span ps) "name")
        as [nameValue|] eqn:Hvalue.
      2:{ apply Hskip; [simpl; by rewrite Hvalue|].
          unfold body. simpl. unfold Json.hasProperty. by rewrite Hvalue. }
      destruct nameValue as [| |nameSpan text| | |];
        try (apply Hskip; [simpl; by rewrite Hvalue|];
             unfold body; simpl; unfold Json.hasProperty; by rewrite Hvalue).
      assert (Hname : elementName (Json.ObjectValue span ps) = Some text).
      { simpl. by rewrite Hvalue. }
      rewrite (Hsome _ _ _ Hname), forEach_cons.
      assert (Hstep : body (issues0, seen0) (Json.ObjectValue span ps) r =
                Ok (if Js.includes text seen0
                    then (issues0 ++
                          [{| startIndex := Json.startIndex nameSpan;
                              endIndex := Json.endIndex nameSpan;
                              message := text +:+
                                " has already been assigned to another item." |}],
                          seen0)
                    else (issues0, seen0 ++ [text])) r).
      { unfold body. simpl. unfold Json.hasProperty. rewrite Hvalue. simpl.
        by destruct (Js.includes text seen0). }
      rewrite Hstep. simpl Js.uniqAcc.
      destruct (Js.includes text seen0) eqn:Hseen.
      + destruct (IH (issues0 ++
                   [{| startIndex := Json.startIndex nameSpan;
                       endIndex := Json.endIndex nameSpan;
                       message := text +:+ " has already been assigned to another item." |}])
                   seen0) as (issues1 & seen1 & H1 & H2 & H3).
        exists issues1, seen1. split; [exact H1|]. split.
        * rewrite length_app in H2. simpl in H2. simpl. lia.
        * intros Hnames H0. apply H3.
          { intros name Hin. apply Hnames. by right. }
          apply Forall_app. split; [done|]. constructor; [|done].
          exists text. split; [apply Hnames; by left | done].
      + destruct (IH issues0 (seen0 ++ [text])) as (issues1 & seen1 & H1 & H2 & H3).
        exists issues1, seen1. split; [exact H1|]. split.
        * simpl.
          rewrite (Js_uniqAcc_seen (text :: seen0) (seen0 ++ [text])); [lia|].
          intros x. rewrite elem_of_cons, elem_of_app, list_elem_of_singleton. tauto.
        * intros Hnames H0. apply H3; [|done].
          intros name Hin. apply Hnames. by right. }
  destruct (Hloop (Json.elements jsonValue) [] []) as (issues & seen & Hrun & Hlength & HQ).
  exists issues. unfold bind. rewrite Hrun. simpl. fold names in Hlength, HQ.
  pose proof (Js_uniqAcc_length [] names) as Hle. simpl in Hlength.
  assert (Hcount : length issues = length names - length (Js.uniq names)).
  { unfold Js.uniq. lia. }
  split; [done|]. split; [done|]. split; [|by apply HQ].
  rewrite <- Js_uniq_length_NoDup. unfold Js.uniq in *. split.
  - intros ->. simpl in Hlength. lia.
  - intros Hsame. apply length_zero_iff_nil. lia.
Qed.

Lemma getArrayElementNameIssues_repeats_witness :
  ∃ issues,
    getArrayElementNameIssues Sample2.names false newResolver = Ok issues newResolver ∧
    length issues = 2.
Proof.
  destruct (getArrayElementNameIssues_repeats Sample2.names false newResolver)
    as (issues & Hrun & Hlength & _).
  exists issues. split; [exact Hrun|]. rewrite Hlength. reflexivity.
Defined.

Lemma Json_lookupLast_name ps propertyName value :
  Json.lookupLast ps propertyName = Some value →
  propertyName ∈ map (λ p, Json.nameText (fst p)) ps.
Proof.
  revert value. induction ps as [|[n v] ps IH]; intros value; simpl; [done|].
  destruct (Json.lookupLast ps propertyName) as [v'|].
  - intros _. apply elem_of_cons. right. by apply (IH v').
  - destruct (String.eqb (Json.nameText n) propertyName) eqn:Heq; [|done].
    intros _. apply String.eqb_eq in Heq as <-. apply elem_of_cons. by left.
Qed.

Lemma Json_getPropertyValue_propertyNames (v value : Json.Value) propertyName :
  Json.getPropertyValue v propertyName = Some value →
  propertyName ∈ Json.propertyNames v.
Proof.
  unfold Json.getPropertyValue, Json.propertyNames. rewrite Js_uniq_elem.
  apply Json_lookupLast_name.
Qed.

Lemma foldl_app_flat_map {A B} (f : A → list B) (l : list A) (acc : list B) :
  foldl (λ acc x, acc ++ f x) acc l = acc ++ flat_map f l.
Proof.
  revert acc. induction l as [|x l IH]; intros acc; simpl.
  - by rewrite app_nil_r.
  - by rewrite IH, app_assoc.
Qed.

Lemma flat_map_nil {A B} (f : A → list B) (l : list A) :
  flat_map f l = [] ↔ ∀ x, x ∈ l → f x = [].
Proof.
  induction l as [|x l IH]; simpl.
  - split; [by intros _ x ?%elem_of_nil | done].
  - split.
    + intros [Hx Hl]%app_eq_nil x' [->|Hin]%elem_of_cons; [done|]. by apply IH.
    + intros H. rewrite (H x) by by left. apply IH. intros x' Hx'. apply H. by right.
Qed.

Lemma filter_nil {A} (f : A → bool) (l : list A) :
  List.filter f l = [] ↔ ∀ x, x ∈ l → f x = false.
Proof.
  induction l as [|x l IH]; simpl.
  - split; [by intros _ x ?%elem_of_nil | done].
  - destruct (f x) eqn:Hx; split.
    + done.
    + intros H. specialize (H x (list_elem_of_here _ _)). congruence.
    + intros Hl x' [->|Hin]%elem_of_cons; [done|]. by apply IH.
    + intros H. apply IH. intros x' Hx'. apply H. by right.
Qed.

(** X6.  The check of the required properties always returns and leaves the
    state as it is.  It has nothing to report exactly when every property
    that the type requires is there ([@context] may be missing from an
    inline interface) and none of them is an empty array; and every issue it
    reports is an empty range. *)
Theorem getMissingRequiredPropertiesIssues_none
    (jsonValue : Json.Value) (type : string) (isInlineInterface : bool) (r : Resolver) :
  ∃ issues,
    getMissingRequiredPropertiesIssues jsonValue type isInlineInterface r = Ok issues r ∧
    (issues = [] ↔
       (∀ property, property ∈ getRequiredPropertiesFromType type →
          Json.hasProperty jsonValue property = true ∨
          (isInlineInterface = true ∧ property = "@context")) ∧
       (∀ property span, property ∈ getRequiredPropertiesFromType type →
          Json.getPropertyValue jsonValue property ≠ Some (Json.ArrayValue span []))) ∧
    Forall (λ issue, startIndex issue = endIndex issue) issues.
Proof.
  unfold getMissingRequiredPropertiesIssues. cbv zeta.
  set (required := getRequiredPropertiesFromType type).
  set (missing := List.filter _ required).
  set (issues0 := if negb (Nat.eqb (length missing) 0) then _ else []).
  pose (empty := λ propertyName,
          if negb (Js.includes propertyName required) then []
          else match Json.getPropertyValue jsonValue propertyName with
               | Some (Json.ArrayValue span []) =>
                   [{| startIndex := Json.startIndex span;
                       endIndex := Json.startIndex span;
                       message := propertyName +:+ " cannot be empty." |}]
               | _ => []
               end).
  rewrite (forEach_pure _ _ (λ issues propertyName, issues ++ empty propertyName)).
  2:{ intros issues propertyName Hin. unfold empty.
      destruct (negb (Js.includes propertyName required)); [by rewrite app_nil_r|].
      destruct (Json_propertyNames_value _ _ Hin) as [value ->].
      destruct value as [|? [|? ?]| | | |]; by rewrite ?app_nil_r. }
  rewrite foldl_app_flat_map. eexists. split; [reflexivity|]. split.
  - split.
    + intros [H0 Hempty]%app_eq_nil. split.
      * assert (Hmissing : missing = []).
        { subst issues0. destruct missing; [done|]. simpl in H0. done. }
        intros property Hin. pose proof (proj1 (filter_nil _ _) Hmissing property Hin) as H.
        simpl in H. apply andb_false_iff in H as [H|H].
        -- left. by apply negb_false_iff.
        -- right. apply negb_false_iff, andb_true_iff in H as [-> Heq].
           by apply String.eqb_eq in Heq.
      * intros property span Hin Hvalue.
        pose proof (proj1 (flat_map_nil _ _) Hempty property
                      (Json_getPropertyValue_propertyNames _ _ _ Hvalue)) as H.
        unfold empty in H. rewrite Hvalue in H.
        apply Js_includes_elem in Hin. by rewrite Hin in H.
    + intros [Hpresent Hfull]. apply app_nil. split.
      * assert (Hmissing : missing = []); [|subst issues0; by rewrite Hmissing].
        apply filter_nil. intros property Hin. simpl.
        destruct (Hpresent property Hin) as [->|[-> ->]]; [done|simpl].
        by rewrite andb_false_r.
      * apply flat_map_nil. intros property Hin. unfold empty.
        destruct (Js.includes property required) eqn:Hreq; [simpl|done].
        apply Js_includes_elem in Hreq.
        destruct (Json.getPropertyValue jsonValue property) as [value|] eqn:Hvalue; [|done].
        destruct value as [|span [|? ?]| | | |]; try done.
        by destruct (Hfull property span Hreq).
  - apply Forall_app. split.
    + subst issues0. destruct (negb _); by repeat constructor.
    + apply Forall_forall. intros issue Hin. apply list_elem_of_In in Hin.
      apply in_flat_map in Hin as (property & _ & Hin).
      apply list_elem_of_In in Hin. unfold empty in Hin.
      destruct (negb (Js.includes property required)); [by apply elem_of_nil in Hin|].
      destruct (Json.getPropertyValue jsonValue property) as [value|];
        [|by apply elem_of_nil in Hin].
      destruct value as [|span [|? ?]| | | |]; try by apply elem_of_nil in Hin.
      by apply list_elem_of_singleton in Hin as ->.
Qed.

Lemma getMissingRequiredPropertiesIssues_none_witness :
  ∃ issues,
    getMissingRequiredPropertiesIssues Sample2.telemetry "Telemetry" false newResolver =
      Ok issues newResolver ∧
    issues ≠ [] ∧
    Forall (λ issue, startIndex issue = endIndex issue) issues.
Proof.
  destruct (getMissingRequiredPropertiesIssues_none Sample2.telemetry "Telemetry" false
              newResolver) as (issues & Hrun & Hnone & Hspan).
  exists issues. split; [exact Hrun|]. split; [|exact Hspan].
  intros [_ Hfull]%Hnone.
  by apply (Hfull "schema" (Sample.span 49 51)); [apply Js_includes_elem|].
Defined.

(** X7.  Whatever the resolver knows of the types, an issue of the check
    for unexpected properties is about a property name of the object that is
    neither [@type] nor [@id] nor a required property of the type (of any of
    the types, when there are several). *)
Theorem getUnexpectedPropertiesIssues_expected
    (graph : DigitalTwinMetaModelGraph) (fuel : nat)
    (dtContext : DigitalTwinMetaModelContext) (jsonValue : Json.Value)
    (type : TypeResult) (r r' : Resolver) (issues : list Issue) :
  getUnexpectedPropertiesIssues graph fuel dtContext jsonValue type r = Ok issues r' →
  Forall (λ issue, ∃ property,
            message issue = property +:+ " is unexpected." ∧
            property ∈ Json.propertyNames jsonValue ∧
            property ≠ "@type" ∧ property ≠ "@id" ∧
            match type with
            | OneType t => property ∉ getRequiredPropertiesFromType t
            | ManyTypes types =>
                ∀ t, t ∈ types → property ∉ getRequiredPropertiesFromType t
            end)
         issues.
Proof.
  unfold getUnexpectedPropertiesIssues.
  intros (properties & r1 & Hproperties & Hloop)%bind_Ok. cbv zeta in Hloop.
  assert (Hexpected : ∀ t ra known rb,
            expectedProperties graph fuel dtContext t ra = Ok known rb →
            ∀ p, p ∈ getRequiredPropertiesFromType t → p ∈ known).
  { intros t ra known rb (typed & rc & _ & [<- _]%ret_Ok)%bind_Ok p Hp.
    apply elem_of_app. by right. }
  assert (Hcovered : ∀ p,
            match type with
            | OneType t => p ∈ getRequiredPropertiesFromType t
            | ManyTypes types =>
                ∃ t, t ∈ types ∧ p ∈ getRequiredPropertiesFromType t
            end → p ∈ properties).
  { destruct type as [t|types]; [intros p; by eapply Hexpected|].
    intros p (t & Ht & Hp). revert Ht Hp.
    assert (Hgrow : ∀ types acc ra out rb,
              forEach types acc (λ properties currentType,
                current <- expectedProperties graph fuel dtContext currentType ;;
                ret (properties ++ current)) ra = Ok out rb →
              (∀ q, q ∈ acc → q ∈ out) ∧
              (∀ t q, t ∈ types → q ∈ getRequiredPropertiesFromType t → q ∈ out)).
    { clear. intros types. induction types as [|t types IH]; intros acc ra out rb H.
      - apply ret_Ok in H as [<- _]. split; [done|]. by intros t q ?%elem_of_nil.
      - simpl in H. apply bind_Ok in H as (acc1 & r1 & Hstep & Hrest).
        apply bind_Ok in Hstep as (known & r2 & Hknown & [<- _]%ret_Ok).
        destruct (IH _ _ _ _ Hrest) as [Hacc Htypes]. split.
        + intros q Hq. apply Hacc, elem_of_app. by left.
        + intros t' q [->|Ht']%elem_of_cons Hq; [|by eapply Htypes].
          apply Hacc, elem_of_app. right.
          apply bind_Ok in Hknown as (typed & rc & _ & [<- _]%ret_Ok).
          apply elem_of_app. by right. }
    intros Ht Hp. by eapply (Hgrow _ _ _ _ _ Hproperties). }
  refine (forEach_invariant _ _ _ _ _ _ _ _ (Forall_nil_2 _) Hloop).
  intros acc [i property] ra acc' rb Hin Hacc. simpl.
  destruct (negb (String.eqb property "@type") && negb (String.eqb property "@id") &&
            negb (Js.includes property (Js.uniq properties))) eqn:Htest.
  2:{ by intros [<- _]%ret_Ok. }
  destruct (Json.properties jsonValue !! i) as [[name value]|]; [|done].
  intros [<- _]%ret_Ok. apply Forall_app. split; [done|]. constructor; [|done].
  apply andb_true_iff in Htest as [[Htype Hid]%andb_true_iff Hnew].
  apply negb_true_iff, String.eqb_neq in Htype, Hid.
  apply negb_true_iff, Js_includes_false in Hnew. rewrite Js_uniq_elem in Hnew.
  exists property. split; [done|]. split.
  { apply indexed_elem in Hin. by eapply list_elem_of_lookup_2. }
  split; [done|]. split; [done|].
  destruct type as [t|types].
  - intros Hp. by apply Hnew, Hcovered.
  - intros t Ht Hp. apply Hnew, Hcovered. by exists t.
Qed.

Lemma getUnexpectedPropertiesIssues_expected_witness :
  ∃ issues r',
    getUnexpectedPropertiesIssues Sample.graph 5 Sample.context Sample2.telemetry
      (OneType "Telemetry") newResolver = Ok issues r' ∧
    map message issues = ["color is unexpected."] ∧
    Forall (λ issue, ∃ property,
              message issue = property +:+ " is unexpected." ∧
              property ∈ Json.propertyNames Sample2.telemetry ∧
              property ≠ "@type" ∧ property ≠ "@id" ∧
              property ∉ getRequiredPropertiesFromType "Telemetry")
           issues.
Proof.
  destruct (getUnexpectedPropertiesIssues Sample.graph 5 Sample.context Sample2.telemetry
              (OneType "Telemetry") newResolver) as [issues r'| |] eqn:H;
    [|vm_compute in H; discriminate..].
  exists issues, r'. split; [reflexivity|]. split.
  - vm_compute in H. by injection H as <- <-.
  - exact (getUnexpectedPropertiesIssues_expected _ _ _ _ _ _ _ _ H).
Defined.

Lemma isValidStringValue_sensitive (value : string) (range : list string) :
  _isValidStringValue value range false = true ↔ value ∈ range.
Proof.
  unfold _isValidStringValue. rewrite existsb_exists. split.
  - intros (x & Hin & Heq). apply String.eqb_eq in Heq as <-.
    by apply list_elem_of_In.
  - intros Hin. exists value. split; [by apply list_elem_of_In|].
    apply String.eqb_refl.
Qed.

Lemma isValidStringValue_insensitive (value : string) (range : list string) :
  _isValidStringValue value range true = true ↔
  Js.toLowerCase value ∈ map Js.toLowerCase range.
Proof.
  unfold _isValidStringValue. rewrite existsb_exists. split.
  - intros (x & Hin & Heq). apply String.eqb_eq in Heq as <-.
    apply list_elem_of_fmap. exists x. split; [done | by apply list_elem_of_In].
  - intros (x & Heq & Hin)%list_elem_of_fmap. exists x.
    split; [by apply list_elem_of_In|]. rewrite Heq. apply String.eqb_refl.
Qed.

(** X8.  [_isValidStringValue] is membership in the range: of the value as
    it is, or of its lower-case form among the lower-case forms when the
    case is to be ignored. *)
Theorem isValidStringValue_membership (value : string) (range : list string) :
  (_isValidStringValue value range false = true ↔ value ∈ range) ∧
  (_isValidStringValue value range true = true ↔
     Js.toLowerCase value ∈ map Js.toLowerCase range).
Proof.
  split; [apply isValidStringValue_sensitive | apply isValidStringValue_insensitive].
Qed.

(** X9.  For a key other than [@context] and [@id] whose short name has
    values, none of them [XMLSchema#string], a string is accepted exactly
    when it is one of the values, letter for letter; otherwise there is one
    issue, on the span of the string, that lists the values.  A key without
    values is not checked. *)
Theorem getStringIssues_enumeration
    (graph : DigitalTwinMetaModelGraph) (uri1 uri2 uri3 : string) (fuel : nat)
    (dtContext : DigitalTwinMetaModelContext) (document : TextDocument)
    (jsonValue : Json.Value) (isInlineInterface : bool) (key : string)
    (values : Arr string) (r r1 : Resolver) :
  Js.truthy key = true → key ≠ "@context" → key ≠ "@id" →
  getStringValuesFromShortName graph fuel dtContext key r = Ok values r1 →
  "XMLSchema#string" ∉ items values →
  ∃ issues,
    getStringIssues graph uri1 uri2 uri3 fuel dtContext document jsonValue
                    isInlineInterface (Some key) r = Ok issues r1 ∧
    (items values = [] → issues = []) ∧
    (Json.toFriendlyString jsonValue ∈ items values → issues = []) ∧
    (items values ≠ [] → Json.toFriendlyString jsonValue ∉ items values →
     issues = [{| startIndex := Json.startIndex (Json.span jsonValue);
                  endIndex := Json.endIndex (Json.span jsonValue);
                  message := "Invalid value. Valid values:" +:+ Js.newline +:+
                             Js.join Js.newline (items values) |}]).
Proof.
  intros Hkey Hcontext Hid Hvalues Hstring.
  apply String.eqb_neq in Hcontext, Hid. apply Js_includes_false in Hstring.
  unfold getStringIssues. change (given (Some key)) with (Js.truthy key).
  rewrite Hkey. change (negb true) with false. cbv beta iota zeta.
  change (default "" (Some key)) with key. rewrite Hcontext, Hid. cbv beta iota.
  unfold bind. rewrite Hvalues. unfold ret at 1. cbv beta iota. cbn [fst snd].
  destruct (Nat.eqb (length (items values)) 0) eqn:Hlength.
  { apply Nat.eqb_eq, length_zero_iff_nil in Hlength.
    rewrite Hlength. eexists. split; [reflexivity|]. repeat split; try done;
      by intros ?%elem_of_nil. }
  apply Nat.eqb_neq in Hlength. rewrite Hstring.
  assert (Hsome : items values ≠ []).
  { intros Hnil. by rewrite Hnil in Hlength. }
  destruct (_isValidStringValue (Json.toFriendlyString jsonValue) (items values) false)
    eqn:Hvalid; simpl negb; cbv iota; (eexists; split; [reflexivity|]).
  - repeat split; try done. intros _ Hnot.
    by apply isValidStringValue_sensitive in Hvalid.
  - repeat split; try done. intros Hin.
    apply isValidStringValue_sensitive in Hin. congruence.
Qed.

Lemma getStringIssues_enumeration_witness :
  ∃ values r1 issues,
    getStringValuesFromShortName Sample.graph 5 Sample.context "unit" newResolver =
      Ok values r1 ∧
    items values = ["kelvin"; "celsius"; "kelvin"; "celsius"] ∧
    getStringIssues Sample.graph "u1" "u2" "u3" 5 Sample.context Sample.document
      (Json.StringValue (Sample.span 4 16) "fahrenheit") false (Some "unit") newResolver =
      Ok issues r1 ∧
    map message issues =
      ["Invalid value. Valid values:" +:+ Js.newline +:+
       Js.join Js.newline ["kelvin"; "celsius"; "kelvin"; "celsius"]].
Proof.
  destruct (getStringValuesFromShortName Sample.graph 5 Sample.context "unit" newResolver)
    as [values r1| |] eqn:H; [|vm_compute in H; discriminate..].
  assert (Hitems : items values = ["kelvin"; "celsius"; "kelvin"; "celsius"]).
  { vm_compute in H. by injection H as <- <-. }
  assert (Hstring : "XMLSchema#string" ∉ items values).
  { rewrite Hitems. apply Js_includes_false. reflexivity. }
  destruct (getStringIssues_enumeration Sample.graph "u1" "u2" "u3" 5 Sample.context
              Sample.document (Json.StringValue (Sample.span 4 16) "fahrenheit")
              false "unit" values newResolver r1 eq_refl ltac:(discriminate)
              ltac:(discriminate) H Hstring)
    as (issues & Hissues & _ & _ & Hnot).
  exists values, r1, issues. split; [reflexivity|]. split; [exact Hitems|].
  split; [exact Hissues|]. rewrite Hnot.
  - simpl. by rewrite Hitems.
  - by rewrite Hitems.
  - rewrite Hitems. apply Js_includes_false. reflexivity.
Defined.

(** X10.  The value of [@context] is checked without the resolver: it is
    accepted exactly when, the case of its letters aside, it is the context
    URI of the IoT model or the one that the place asks for: that of an
    interface inside an inline interface and in a file named
    [*.interface.json], that of a capability model elsewhere. *)
Theorem getStringIssues_context
    (graph : DigitalTwinMetaModelGraph)
    (ContextUris_interface ContextUris_capabilityModel ContextUris_iotModel : string)
    (fuel : nat) (dtContext : DigitalTwinMetaModelContext) (document : TextDocument)
    (jsonValue : Json.Value) (isInlineInterface : bool) (r : Resolver) :
  let contextUri :=
    if isInlineInterface || Js.endsWith (fileName document) ".interface.json"
    then ContextUris_interface else ContextUris_capabilityModel in
  contextUri ≠ "XMLSchema#string" → ContextUris_iotModel ≠ "XMLSchema#string" →
  ∃ issues,
    getStringIssues graph ContextUris_interface ContextUris_capabilityModel
                    ContextUris_iotModel fuel dtContext document jsonValue
                    isInlineInterface (Some "@context") r = Ok issues r ∧
    (issues = [] ↔
     Js.toLowerCase (Json.toFriendlyString jsonValue) ∈
       [Js.toLowerCase contextUri; Js.toLowerCase ContextUris_iotModel]).
Proof.
  intros contextUri Hcontext Hmodel. unfold getStringIssues.
  change (given (Some "@context")) with true. change (negb true) with false.
  cbv beta iota zeta. change (default "" (Some "@context")) with "@context".
  change (String.eqb "@context" "@context") with true. cbv beta iota.
  assert (Huri : (if isInlineInterface then ContextUris_interface
                  else if Js.endsWith (fileName document) ".interface.json"
                       then ContextUris_interface else ContextUris_capabilityModel)
                 = contextUri).
  { subst contextUri. by destruct isInlineInterface. }
  rewrite Huri. unfold bind, ret at 1. cbv beta iota. cbn [fst snd].
  change (length [contextUri; ContextUris_iotModel] =? 0) with false. cbv iota.
  assert (Hno : Js.includes "XMLSchema#string" [contextUri; ContextUris_iotModel] = false).
  { apply Js_includes_false. intros [Heq|[Heq|[]%elem_of_nil]%elem_of_cons]%elem_of_cons;
      by symmetry in Heq. }
  rewrite Hno.
  destruct (_isValidStringValue (Json.toFriendlyString jsonValue)
              [contextUri; ContextUris_iotModel] true) eqn:Hvalid;
    simpl negb; cbv iota; (eexists; split; [reflexivity|]).
  - split; [intros _|done]. by apply isValidStringValue_insensitive in Hvalid.
  - split; [done|]. intros Hin.
    apply (isValidStringValue_insensitive _ [contextUri; ContextUris_iotModel]) in Hin.
    congruence.
Qed.

Lemma getStringIssues_context_witness :
  ∃ issues,
    getStringIssues Sample.graph "http://azureiot.com/v1/contexts/Interface.json"
      "http://azureiot.com/v1/contexts/CapabilityModel.json"
      "http://azureiot.com/v1/contexts/IoTModel.json" 0 Sample.context Sample.document
      (Json.StringValue (Sample.span 13 61) "HTTP://azureiot.com/v1/contexts/interface.json")
      false (Some "@context") newResolver = Ok issues newResolver ∧
    (issues = [] ↔
     Js.toLowerCase "HTTP://azureiot.com/v1/contexts/interface.json" ∈
       [Js.toLowerCase "http://azureiot.com/v1/contexts/Interface.json";
        Js.toLowerCase "http://azureiot.com/v1/contexts/IoTModel.json"]).
Proof.
  apply (getStringIssues_context Sample.graph
           "http://azureiot.com/v1/contexts/Interface.json"
           "http://azureiot.com/v1/contexts/CapabilityModel.json"
           "http://azureiot.com/v1/contexts/IoTModel.json" 0 Sample.context
           Sample.document
           (Json.StringValue (Sample.span 13 61)
              "HTTP://azureiot.com/v1/contexts/interface.json") false newResolver);
    discriminate.
Defined.

(** X11.  The pass over the value types reports numbers only: every issue
    of [getTypeIssues] lies on the span of a number of the document whose
    literal is not an integer. *)
Theorem getTypeIssues_numbers
    (graph : DigitalTwinMetaModelGraph) (fuel : nat)
    (dtContext : DigitalTwinMetaModelContext) (document : TextDocument)
    (jsonValue : Json.Value) (jsonKey : option string) (isArrayElement : bool)
    (r r' : Resolver) (issues : list Issue) :
  getTypeIssues graph fuel dtContext document jsonValue jsonKey isArrayElement r =
    Ok issues r' →
  Forall (λ issue, ∃ span text,
            within (Json.NumberValue span text) jsonValue ∧
            Js.notInteger (Js.Number text) = true ∧
            startIndex issue = Json.startIndex span ∧
            endIndex issue = Json.endIndex span)
         issues.
Proof.
  pose (Q := λ (v : Json.Value) (issue : Issue), ∃ span text,
          within (Json.NumberValue span text) v ∧
          Js.notInteger (Js.Number text) = true ∧
          startIndex issue = Json.startIndex span ∧
          endIndex issue = Json.endIndex span).
  change (getTypeIssues graph fuel dtContext document jsonValue jsonKey isArrayElement r =
            Ok issues r' → Forall (Q jsonValue) issues).
  revert jsonValue jsonKey isArrayElement r r' issues.
  induction fuel as [|fuel IH]; intros jsonValue jsonKey isArrayElement r r' issues H;
    [done|].
  rewrite getTypeIssues_S in H. apply bind_Ok in H as (resolved & r1 & _ & H).
  destruct resolved as [rawValueTypes|]; [|apply ret_Ok in H as [<- _]; constructor].
  destruct jsonValue as [span ps|span elements| |span text| |];
    try (apply ret_Ok in H as [<- _]; constructor).
  - refine (forEach_invariant _ _ _ _ _ _ _ _ (Forall_nil_2 _) H).
    intros acc key ra acc' rb _ Hacc Hstep.
    destruct (Json.getPropertyValue (Json.ObjectValue span ps) key) as [value|] eqn:Hvalue;
      [|done].
    apply bind_Ok in Hstep as (valueIssues & rc & Hcall & [<- _]%ret_Ok).
    apply Forall_app. split; [done|].
    eapply Forall_impl; [exact (IH _ _ _ _ _ _ Hcall)|].
    intros issue (s & t & Hwithin & Hrest). exists s, t. split; [|done].
    destruct (Json_lookupLast_elem _ _ _ Hvalue) as [name Hin].
    by apply (within_property _ span ps (name, value)).
  - refine (forEach_invariant _ _ _ _ _ _ _ _ (Forall_nil_2 _) H).
    intros acc element ra acc' rb Hin Hacc Hstep.
    apply bind_Ok in Hstep as (elementIssues & rc & Hcall & [<- _]%ret_Ok).
    apply Forall_app. split; [done|].
    eapply Forall_impl; [exact (IH _ _ _ _ _ _ Hcall)|].
    intros issue (s & t & Hwithin & Hrest). exists s, t. split; [|done].
    by apply (within_element _ span elements element).
  - cbv zeta in H.
    change (Json.toFriendlyString (Json.NumberValue span text)) with text in H.
    change (Json.span (Json.NumberValue span text)) with span in H.
    destruct (negb (Js.includes "float" rawValueTypes) &&
              negb (Js.includes "double" rawValueTypes));
      [|apply ret_Ok in H as [<- _]; constructor].
    destruct (Js.notInteger (Js.Number text)) eqn:Hnot;
      apply ret_Ok in H as [<- _]; constructor; [|constructor].
    exists span, text. split; [constructor | done].
Qed.

Lemma getTypeIssues_numbers_witness :
  ∃ issues r',
    getTypeIssues Sample.graph 5 Sample.context Sample.document Sample.thermostat
      None false newResolver = Ok issues r' ∧
    map message issues = ["Invalid value. Valid value is int."] ∧
    Forall (λ issue, ∃ span text,
              within (Json.NumberValue span text) Sample.thermostat ∧
              Js.notInteger (Js.Number text) = true ∧
              startIndex issue = Json.startIndex span ∧
              endIndex issue = Json.endIndex span)
           issues.
Proof.
  destruct (getTypeIssues Sample.graph 5 Sample.context Sample.document Sample.thermostat
              None false newResolver) as [issues r'| |] eqn:H;
    [|vm_compute in H; discriminate..].
  exists issues, r'. split; [reflexivity|]. split.
  - vm_compute in H. by injection H as <- <-.
  - exact (getTypeIssues_numbers _ _ _ _ _ _ _ _ _ _ H).
Defined.

(** X12.  An object whose [@type] is a string is checked against the types
    that are valid at its place: no type issue when the string is one of
    them, one issue on the span of the string otherwise.  At the root of a
    document the valid type is the one that goes with the name of the file:
    that of an interface for [*.interface.json], that of a capability model
    for any other. *)
Theorem getInvalidTypeIssues_string
    (graph : DigitalTwinMetaModelGraph)
    (ModelType_Interface ModelType_CapabilityModel : string) (fuel : nat)
    (dtContext : DigitalTwinMetaModelContext) (document : TextDocument)
    (jsonValue : Json.Value) (jsonKey : option string) (span : Json.Span)
    (text : string) (types : list string) (r r1 : Resolver) :
  Json.getPropertyValue jsonValue "@type" = Some (Json.StringValue span text) →
  typesFor graph ModelType_Interface ModelType_CapabilityModel fuel dtContext document
           jsonKey r = Ok (Some types) r1 →
  getInvalidTypeIssues graph ModelType_Interface ModelType_CapabilityModel fuel
                       dtContext document jsonValue jsonKey r =
    Ok (if Js.includes text types then None
        else Some [{| startIndex := Json.startIndex span;
                      endIndex := Json.endIndex span;
                      message := "Invalid type. Valid types:" +:+ Js.newline +:+
                                 Js.join Js.newline types |}]) r1 ∧
  (jsonKey = None →
   r1 = r ∧
   types = [if Js.endsWith (fsPath document) ".interface.json"
            then ModelType_Interface else ModelType_CapabilityModel]).
Proof.
  intros Htype Htypes. split.
  - unfold getInvalidTypeIssues, bind at 1. rewrite Htypes.
    unfold getType, Json.hasProperty, bind. rewrite Htype. simpl.
    destruct (Js.includes text types); reflexivity.
  - intros ->. unfold typesFor in Htypes. simpl in Htypes.
    by apply ret_Ok in Htypes as [[= <-] <-].
Qed.

Lemma getInvalidTypeIssues_string_witness :
  getInvalidTypeIssues Sample.graph "Interface" "CapabilityModel" 0 Sample.context
    Sample.document Sample.thermostat None newResolver =
    Ok (Some [{| startIndex := 10; endIndex := 21;
                 message := "Invalid type. Valid types:" +:+ Js.newline +:+ "Interface" |}])
       newResolver ∧
  (@None string = None →
   newResolver = newResolver ∧
   ["Interface"] = [if Js.endsWith (fsPath Sample.document) ".interface.json"
                    then "Interface" else "CapabilityModel"]).
Proof.
  apply (getInvalidTypeIssues_string Sample.graph "Interface" "CapabilityModel" 0
           Sample.context Sample.document Sample.thermostat None (Sample.span 10 21)
           "Telemetry" ["Interface"] newResolver newResolver); reflexivity.
Defined.

(** ** The caches only grow *)

Lemma extends_refl r : extends r r.
Proof. by constructor. Qed.

Lemma extends_trans r1 r2 r3 : extends r1 r2 → extends r2 r3 → extends r1 r3.
Proof.
  intros [] []. constructor; try (by etrans).
  intros id key Hkey Htruthy. auto.
Qed.

Lemma grows_keeps {A} (m : M A) : grows m → ∀ r0, keeps (extends r0) m.
Proof. intros Hm r0 r a r' H0 H. eapply extends_trans; [exact H0 | by eapply Hm]. Qed.

Lemma keeps_grows {A} (m : M A) : (∀ r0, keeps (extends r0) m) → grows m.
Proof. intros Hm r a r' H. eapply Hm; [apply extends_refl | exact H]. Qed.

Lemma grows_alloc {A} (l : list A) : grows (alloc l).
Proof. intros r a r' [-> ->]%alloc_Ok. constructor; simpl; try done. lia. Qed.

Lemma extends_setPropertyNameFromId r0 r id key u r' :
  extends r0 r →
  (∀ k, PropertyNameFromId (cache r0) !! id = Some k → Js.truthy k = false) →
  setPropertyNameFromId id key r = Ok u r' → extends r0 r'.
Proof.
  intros [] Hfalsy ->%modifyCache_Ok. constructor; simpl; try done.
  intros id' k Hk Htruthy. destruct (decide (id' = id)) as [->|Hne].
  - rewrite (Hfalsy _ Hk) in Htruthy. done.
  - rewrite lookup_insert_ne by done. auto.
Qed.

Lemma extends_setTypesFromId r0 r id v u r' :
  extends r0 r → TypesFromId (cache r0) !! id = None →
  setTypesFromId id v r = Ok u r' → extends r0 r'.
Proof.
  intros [] Hnone ->%modifyCache_Ok. constructor; simpl; try done.
  by apply insert_subseteq_r.
Qed.

Lemma extends_setValueTypesFromId r0 r id v u r' :
  extends r0 r → ValueTypesFromId (cache r0) !! id = None →
  setValueTypesFromId id v r = Ok u r' → extends r0 r'.
Proof.
  intros [] Hnone ->%modifyCache_Ok. constructor; simpl; try done.
  by apply insert_subseteq_r.
Qed.

Lemma extends_setStringValuesFromId r0 r id v u r' :
  extends r0 r → StringValuesFromId (cache r0) !! id = None →
  setStringValuesFromId id v r = Ok u r' → extends r0 r'.
Proof.
  intros [] Hnone ->%modifyCache_Ok. constructor; simpl; try done.
  by apply insert_subseteq_r.
Qed.

Lemma extends_setPropertiesFromId r0 r id v u r' :
  extends r0 r → PropertiesFromId (cache r0) !! id = None →
  setPropertiesFromId id v r = Ok u r' → extends r0 r'.
Proof.
  intros [] Hnone ->%modifyCache_Ok. constructor; simpl; try done.
  by apply insert_subseteq_r.
Qed.

Lemma extends_setTypedPropertiesFromId r0 r id v u r' :
  extends r0 r → TypedPropertiesFromId (cache r0) !! id = None →
  setTypedPropertiesFromId id v r = Ok u r' → extends r0 r'.
Proof.
  intros [] Hnone ->%modifyCache_Ok. constructor; simpl; try done.
  by apply insert_subseteq_r.
Qed.

Lemma extends_setShortNameFromLabel r0 r label v u r' :
  extends r0 r → ShortNameFromLabel (cache r0) !! label = None →
  setShortNameFromLabel label v r = Ok u r' → extends r0 r'.
Proof.
  intros [] Hnone ->%modifyCache_Ok. constructor; simpl; try done.
  by apply insert_subseteq_r.
Qed.

Section Growth.

Variable graph : DigitalTwinMetaModelGraph.
Variable dtContext : DigitalTwinMetaModelContext.

Lemma grows_getPropertyNameFromId id : grows (getPropertyNameFromId dtContext id).
Proof.
  intros r name r'. unfold getPropertyNameFromId. rewrite bind_cached.
  destruct (PropertyNameFromId (cache r) !! id) as [key|] eqn:Hhit.
  - destruct (Js.truthy key) eqn:Hkey; [intros [_ <-]%ret_Ok; apply extends_refl|].
    destruct (findPropertyName dtContext id); [|intros [_ <-]%ret_Ok; apply extends_refl].
    intros (u & r1 & Hset & [_ <-]%ret_Ok)%bind_Ok.
    refine (extends_setPropertyNameFromId _ _ _ _ _ _ (extends_refl r) _ Hset).
    intros k Hk. congruence.
  - destruct (findPropertyName dtContext id); [|intros [_ <-]%ret_Ok; apply extends_refl].
    intros (u & r1 & Hset & [_ <-]%ret_Ok)%bind_Ok.
    refine (extends_setPropertyNameFromId _ _ _ _ _ _ (extends_refl r) _ Hset).
    intros k Hk. congruence.
Qed.

Lemma grows_getShortNameFromLabel label : grows (getShortNameFromLabel dtContext label).
Proof.
  intros r name r'. unfold getShortNameFromLabel. rewrite bind_cached.
  destruct (ShortNameFromLabel (cache r) !! label) as [hit|] eqn:Hhit.
  - intros [_ <-]%ret_Ok. apply extends_refl.
  - destruct (List.find _ _) as [[key item]|]; [|destruct (negb _)]; intros H;
      apply bind_Ok in H as (u & r1 & Hset & [_ <-]%ret_Ok);
      exact (extends_setShortNameFromLabel _ _ _ _ _ _ (extends_refl r) Hhit Hset).
Qed.

Lemma grows_getPropertiesFromId fuel id :
  grows (getPropertiesFromId graph fuel dtContext id).
Proof.
  revert id. induction fuel as [|fuel IH]; intros id r keys r';
    rewrite getPropertiesFromId_unfold, bind_cached;
    (destruct (PropertiesFromId (cache r) !! id) as [hit|] eqn:Hhit;
     [intros [_ <-]%ret_Ok; apply extends_refl|]); [done|].
  intros (properties & r1 & Hloop & H)%bind_Ok.
  apply bind_Ok in H as (stored & r2 & Hstored & H).
  apply bind_Ok in H as (u & r3 & Hset & [_ <-]%ret_Ok).
  refine (extends_setPropertiesFromId _ _ _ _ _ _ _ Hhit Hset).
  eapply (grows_keeps _ (grows_alloc _)); [|exact Hstored].
  revert Hloop. apply keeps_if; [apply keeps_ret| |apply extends_refl].
  apply keeps_forEach. intros properties' edge.
  apply keeps_if.
  - apply keeps_bind; [apply grows_keeps, grows_getPropertyNameFromId|].
    intros; apply keeps_ret.
  - apply keeps_if; [|apply keeps_ret].
    apply keeps_bind; [apply grows_keeps, IH | intros; apply keeps_ret].
Qed.

Lemma grows_getTypesFromId fuel id : grows (getTypesFromId graph fuel dtContext id).
Proof.
  revert id. induction fuel as [|fuel IH]; intros id r types r';
    rewrite getTypesFromId_unfold, bind_cached;
    (destruct (TypesFromId (cache r) !! id) as [hit|] eqn:Hhit;
     [intros [_ <-]%ret_Ok; apply extends_refl|]); [done|].
  intros (types1 & r1 & Hloop & H)%bind_Ok.
  apply bind_Ok in H as (types2 & r2 & Hlabel & H).
  apply bind_Ok in H as (stored & r3 & Hstored & H).
  apply bind_Ok in H as (u & r4 & Hset & [_ <-]%ret_Ok).
  refine (extends_setTypesFromId _ _ _ _ _ _ _ Hhit Hset).
  eapply (grows_keeps _ (grows_alloc _)); [|exact Hstored].
  assert (H1 : extends r r1).
  { revert Hloop. apply keeps_forEach; [|apply extends_refl]. intros types' edge.
    apply keeps_bind.
    - apply keeps_if; [|apply keeps_ret].
      apply keeps_bind; [apply grows_keeps, IH | intros; apply keeps_ret].
    - intros types''. apply keeps_if; [|apply keeps_ret].
      apply keeps_bind; [apply grows_keeps, IH | intros; apply keeps_ret]. }
  revert Hlabel. apply keeps_if; [|apply keeps_ret|exact H1].
  apply keeps_bind; [apply grows_keeps, grows_getShortNameFromLabel|].
  intros [shortName|]; apply keeps_ret.
Qed.

Lemma grows_getStringValuesFromId fuel id :
  grows (getStringValuesFromId graph fuel dtContext id).
Proof.
  revert id. induction fuel as [|fuel IH]; intros id r values r';
    rewrite getStringValuesFromId_unfold, bind_cached;
    (destruct (StringValuesFromId (cache r) !! id) as [hit|] eqn:Hhit;
     [intros [_ <-]%ret_Ok; apply extends_refl|]); [done|].
  intros (found & r1 & Hloop & H)%bind_Ok. cbv zeta in H.
  assert (H1 : extends r r1).
  { revert Hloop. apply keeps_forEach; [|apply extends_refl]. intros acc edge. cbv zeta.
    repeat (apply keeps_bind; [apply keeps_if;
      [apply keeps_bind; [apply grows_keeps, IH | intros; apply keeps_ret]
      |apply keeps_ret]|intros ?]).
    apply keeps_ret. }
  destruct (Nat.eqb (length found.1) 0); [destruct found.2|].
  - apply bind_Ok in H as (stored & r2 & Hstored & H).
    apply bind_Ok in H as (u & r3 & Hset & Hlast).
    eapply (grows_keeps _ (grows_alloc _)); [|exact Hlast].
    refine (extends_setStringValuesFromId _ _ _ _ _ _ _ Hhit Hset).
    by eapply (grows_keeps _ (grows_alloc _)); [|exact Hstored].
  - apply bind_Ok in H as (stored & r2 & Hstored & H).
    apply bind_Ok in H as (u & r3 & Hset & [_ <-]%ret_Ok).
    refine (extends_setStringValuesFromId _ _ _ _ _ _ _ Hhit Hset).
    by eapply (grows_keeps _ (grows_alloc _)); [|exact Hstored].
  - apply bind_Ok in H as (stored & r2 & Hstored & H).
    apply bind_Ok in H as (u & r3 & Hset & [_ <-]%ret_Ok).
    refine (extends_setStringValuesFromId _ _ _ _ _ _ _ Hhit Hset).
    by eapply (grows_keeps _ (grows_alloc _)); [|exact Hstored].
Qed.

Lemma grows_getValueTypesFromId fuel id :
  grows (getValueTypesFromId graph fuel dtContext id).
Proof.
  intros r valueTypes r'. unfold getValueTypesFromId.
  destruct (negb (Js.truthy id)); [apply grows_alloc|]. rewrite bind_cached.
  destruct (ValueTypesFromId (cache r) !! id) as [hit|] eqn:Hhit;
    [intros [_ <-]%ret_Ok; apply extends_refl|].
  intros (values & r1 & Hvalues & H)%bind_Ok.
  apply bind_Ok in H as (stored & r2 & Hstored & H).
  apply bind_Ok in H as (u & r3 & Hset & [_ <-]%ret_Ok).
  refine (extends_setValueTypesFromId _ _ _ _ _ _ _ Hhit Hset).
  eapply (grows_keeps _ (grows_alloc _)); [|exact Hstored].
  by eapply grows_getStringValuesFromId.
Qed.

Lemma grows_getTypedPropertiesFromId fuel id :
  grows (getTypedPropertiesFromId graph fuel dtContext id).
Proof.
  intros r results r'. unfold getTypedPropertiesFromId. rewrite bind_cached.
  destruct (TypedPropertiesFromId (cache r) !! id) as [hit|] eqn:Hhit;
    [intros [_ <-]%ret_Ok; apply extends_refl|].
  destruct (isInternationalizationFromId dtContext id).
  - intros (stored & r1 & Hstored & (u & r2 & Hset & [_ <-]%ret_Ok)%bind_Ok)%bind_Ok.
    refine (extends_setTypedPropertiesFromId _ _ _ _ _ _ _ Hhit Hset).
    by eapply grows_alloc.
  - intros (keys & r1 & Hkeys & (results1 & r2 & Hloop & H)%bind_Ok)%bind_Ok.
    apply bind_Ok in H as (stored & r3 & Hstored & (u & r4 & Hset & [_ <-]%ret_Ok)%bind_Ok).
    refine (extends_setTypedPropertiesFromId _ _ _ _ _ _ _ Hhit Hset).
    eapply (grows_keeps _ (grows_alloc _)); [|exact Hstored].
    revert Hloop. apply keeps_forEach; [|by eapply grows_getPropertiesFromId].
    intros results' key. destruct (getIdFromShortName dtContext key); [|apply keeps_ret].
    apply keeps_if; [|apply keeps_ret].
    apply keeps_bind; [|intros; apply keeps_ret].
    apply keeps_if; [apply keeps_ret|].
    apply keeps_bind; [apply grows_keeps, grows_getValueTypesFromId|].
    intros; apply keeps_ret.
Qed.

Lemma grows_getTypedPropertiesFromType fuel type :
  grows (getTypedPropertiesFromType graph fuel dtContext type).
Proof.
  unfold getTypedPropertiesFromType. cbv zeta.
  destruct (negb _); [apply grows_alloc | apply grows_getTypedPropertiesFromId].
Qed.

Lemma grows_getPropertiesFromType fuel type :
  grows (getPropertiesFromType graph fuel dtContext type).
Proof.
  unfold getPropertiesFromType. cbv zeta.
  destruct (negb _); [apply grows_alloc | apply grows_getPropertiesFromId].
Qed.

Lemma grows_getStringValuesFromShortName fuel shortName :
  grows (getStringValuesFromShortName graph fuel dtContext shortName).
Proof.
  unfold getStringValuesFromShortName.
  destruct (getIdFromShortName dtContext shortName); [|apply grows_alloc].
  destruct (String.eqb _ _); [apply grows_alloc|].
  destruct (negb _); [apply grows_alloc | apply grows_getStringValuesFromId].
Qed.

End Growth.

(** ** The diagnostics reach the resolver through four queries *)

Section Through.

Variable graph : DigitalTwinMetaModelGraph.
Variables (uri1 uri2 uri3 interface capabilityModel inlineKey : string).
Variable dtContext : DigitalTwinMetaModelContext.
Variable document : TextDocument.

(** A property of the state of the resolver that the four queries keep. *)
Variable P : Resolver → Prop.
Hypothesis Ptypes : ∀ fuel id, keeps P (getTypesFromId graph fuel dtContext id).
Hypothesis PstringValues : ∀ fuel shortName,
  keeps P (getStringValuesFromShortName graph fuel dtContext shortName).
Hypothesis Ptyped : ∀ fuel type,
  keeps P (getTypedPropertiesFromType graph fuel dtContext type).
Hypothesis PvalueTypes : ∀ fuel id,
  keeps P (getValueTypesFromId graph fuel dtContext id).

Lemma through_typesFor fuel jsonKey :
  keeps P (typesFor graph interface capabilityModel fuel dtContext document jsonKey).
Proof.
  unfold typesFor. apply keeps_if; [|apply keeps_ret].
  destruct (getIdFromShortName _ _); [|apply keeps_ret].
  apply keeps_if; [|apply keeps_ret].
  apply keeps_bind; [apply Ptypes | intros; apply keeps_ret].
Qed.

Lemma through_getType fuel jsonValue jsonKey :
  keeps P (getType graph interface capabilityModel fuel dtContext document jsonValue jsonKey).
Proof.
  unfold getType. cbv zeta.
  assert (Hinferred : keeps P
            (types <- typesFor graph interface capabilityModel fuel dtContext document
                        jsonKey ;;
             match types with
             | Some [type] => ret (Some (OneType type))
             | _ => ret None
             end)).
  { apply keeps_bind; [apply through_typesFor|].
    intros [[|type [|? ?]]|]; apply keeps_ret. }
  apply keeps_if; [|done].
  destruct (Json.getPropertyValue jsonValue "@type") as [typeValue|]; [|apply keeps_throw].
  destruct typeValue; try done; apply keeps_ret.
Qed.

Lemma through_getStringIssues fuel jsonValue isInlineInterface jsonKey :
  keeps P (getStringIssues graph uri1 uri2 uri3 fuel dtContext document jsonValue
                        isInlineInterface jsonKey).
Proof.
  unfold getStringIssues. apply keeps_if; [apply keeps_ret|]. cbv zeta.
  apply keeps_bind.
  - repeat (apply keeps_if; [apply keeps_ret|]).
    apply keeps_bind; [apply PstringValues | intros; apply keeps_ret].
  - intros found. repeat apply keeps_if; apply keeps_ret.
Qed.

Lemma through_getArrayElementNameIssues jsonValue isInlineInterface :
  keeps P (getArrayElementNameIssues jsonValue isInlineInterface).
Proof.
  unfold getArrayElementNameIssues. apply keeps_bind; [|intros; apply keeps_ret].
  apply keeps_forEach. intros acc elementValue. cbv zeta.
  destruct elementValue; try apply keeps_ret.
  apply keeps_if; [|apply keeps_ret].
  destruct (Json.getPropertyValue _ _) as [nameValue|]; [|apply keeps_throw].
  destruct nameValue; try apply keeps_ret. apply keeps_if; apply keeps_ret.
Qed.

Lemma through_getMissingRequiredPropertiesIssues jsonValue type isInlineInterface :
  keeps P (getMissingRequiredPropertiesIssues jsonValue type isInlineInterface).
Proof.
  unfold getMissingRequiredPropertiesIssues. cbv zeta.
  apply keeps_forEach. intros issues propertyName.
  apply keeps_if; [apply keeps_ret|].
  destruct (Json.getPropertyValue _ _) as [propertyValue|]; [|apply keeps_throw].
  destruct propertyValue as [|? [|? ?]| | | |]; apply keeps_ret.
Qed.

Lemma through_getUnexpectedPropertiesIssues fuel jsonValue type :
  keeps P (getUnexpectedPropertiesIssues graph fuel dtContext jsonValue type).
Proof.
  unfold getUnexpectedPropertiesIssues.
  assert (Hexpected : ∀ t, keeps P (expectedProperties graph fuel dtContext t)).
  { intros t. unfold expectedProperties.
    apply keeps_bind; [apply Ptyped | intros; apply keeps_ret]. }
  apply keeps_bind.
  - destruct type as [t|types]; [apply Hexpected|].
    apply keeps_forEach. intros properties currentType.
    apply keeps_bind; [apply Hexpected | intros; apply keeps_ret].
  - intros properties. cbv zeta. apply keeps_forEach. intros issues entry.
    apply keeps_if; [|apply keeps_ret].
    destruct (Json.properties jsonValue !! entry.1) as [[name value]|];
      [apply keeps_ret | apply keeps_throw].
Qed.

Lemma through_getInvalidTypeIssues fuel jsonValue jsonKey :
  keeps P (getInvalidTypeIssues graph interface capabilityModel fuel dtContext document
                             jsonValue jsonKey).
Proof.
  unfold getInvalidTypeIssues. apply keeps_bind; [apply through_typesFor|].
  intros [types|]; [|apply keeps_ret].
  apply keeps_bind; [apply through_getType|].
  intros [[t|ts]|]; [| |apply keeps_ret].
  - apply keeps_if; [|apply keeps_ret].
    destruct (Json.getPropertyValue _ _); [apply keeps_ret | apply keeps_throw].
  - destruct (Json.getPropertyValue _ _) as [typeValue|]; [|apply keeps_throw].
    cbv zeta. apply keeps_bind.
    + apply keeps_forEach. intros issues entry. cbv zeta.
      destruct (Json.elements typeValue !! entry.1); [|apply keeps_throw].
      repeat apply keeps_if; apply keeps_ret.
    + intros issues. apply keeps_if; apply keeps_ret.
Qed.

Lemma through_issues fuel :
  (∀ jsonValue isInlineInterface jsonKey,
     keeps P (getJsonValueIssues graph uri1 uri2 uri3 interface capabilityModel inlineKey
             fuel dtContext document jsonValue isInlineInterface jsonKey)) ∧
  (∀ jsonValue isInlineInterface jsonKey,
     keeps P (getArrayIssues graph uri1 uri2 uri3 interface capabilityModel inlineKey
             fuel dtContext document jsonValue isInlineInterface jsonKey)) ∧
  (∀ jsonValue isInlineInterface jsonKey,
     keeps P (getObjectIssues graph uri1 uri2 uri3 interface capabilityModel inlineKey
             fuel dtContext document jsonValue isInlineInterface jsonKey)).
Proof.
  induction fuel as [|fuel (IHvalue & IHarray & IHobject)].
  - split; [|split]; intros jsonValue isInlineInterface jsonKey; apply keeps_outOfFuel.
  - split; [|split]; intros jsonValue isInlineInterface jsonKey.
    + rewrite getJsonValueIssues_S. destruct jsonValue; try apply keeps_ret.
      * apply IHobject.
      * apply keeps_bind; [apply IHarray|]. intros arrayIssues.
        apply keeps_bind; [apply through_getArrayElementNameIssues | intros; apply keeps_ret].
      * apply through_getStringIssues.
    + rewrite getArrayIssues_S. apply keeps_forEach. intros issues elementValue.
      apply keeps_bind; [apply IHvalue | intros; apply keeps_ret].
    + rewrite getObjectIssues_S. apply keeps_bind; [apply through_getInvalidTypeIssues|].
      intros [typeIssues|]; [apply keeps_ret|].
      apply keeps_bind; [apply through_getType|]. intros type. cbv zeta.
      assert (Hchecked : ∀ type : TypeResult, keeps P
        (issues <-
           match type with
           | ManyTypes types =>
               forEach types [] (λ issues currentType,
                 missingRequiredPropertiesIssues <-
                   getMissingRequiredPropertiesIssues jsonValue currentType
                     isInlineInterface ;;
                 ret (issues ++ missingRequiredPropertiesIssues))
           | OneType type =>
               getMissingRequiredPropertiesIssues jsonValue type isInlineInterface
           end ;;
         unexpectedPropertiesIssues <-
           getUnexpectedPropertiesIssues graph fuel dtContext jsonValue type ;;
         forEach (Json.propertyNames jsonValue) (issues ++ unexpectedPropertiesIssues)
           (λ issues propertyName,
              match Json.getPropertyValue jsonValue propertyName with
              | Some propertyValue =>
                  childIssues <-
                    getJsonValueIssues graph uri1 uri2 uri3 interface capabilityModel
                      inlineKey fuel dtContext document propertyValue
                      (if isInlineInterface then isInlineInterface
                       else keyIs jsonKey "implements" && String.eqb propertyName "schema")
                      (Some (if isInlineInterface then propertyName
                             else if keyIs jsonKey "implements" &&
                                     String.eqb propertyName "schema"
                                  then inlineKey else propertyName)) ;;
                  ret (issues ++ childIssues)
              | None => throw
              end))).
      { intros type'. apply keeps_bind.
        - destruct type' as [t|types]; [apply through_getMissingRequiredPropertiesIssues|].
          apply keeps_forEach. intros issues currentType.
          apply keeps_bind; [apply through_getMissingRequiredPropertiesIssues|].
          intros; apply keeps_ret.
        - intros issues. apply keeps_bind; [apply through_getUnexpectedPropertiesIssues|].
          intros unexpected. apply keeps_forEach. intros issues' propertyName.
          destruct (Json.getPropertyValue _ _); [|apply keeps_throw].
          apply keeps_bind; [apply IHvalue | intros; apply keeps_ret]. }
      destruct type as [[t|types]|];
        [|exact (Hchecked (ManyTypes types))|apply keeps_ret].
      apply keeps_if; [exact (Hchecked (OneType t)) | apply keeps_ret].
Qed.

Lemma through_getTypeIssues fuel :
  ∀ jsonValue jsonKey isArrayElement,
    keeps P (getTypeIssues graph fuel dtContext document jsonValue jsonKey isArrayElement).
Proof.
  induction fuel as [|fuel IH]; intros jsonValue jsonKey isArrayElement.
  - apply keeps_outOfFuel.
  - rewrite getTypeIssues_S. apply keeps_bind.
    + repeat (apply keeps_if; [apply keeps_ret|]).
      destruct (getIdFromShortName _ _); [|apply keeps_ret].
      apply keeps_if; [|apply keeps_ret].
      apply keeps_bind; [apply PvalueTypes | intros; apply keeps_ret].
    + intros [rawValueTypes|]; [|apply keeps_ret].
      destruct jsonValue; try apply keeps_ret.
      * apply keeps_forEach. intros issues key.
        destruct (Json.getPropertyValue _ _); [|apply keeps_throw].
        apply keeps_bind; [apply IH | intros; apply keeps_ret].
      * apply keeps_forEach. intros issues element.
        apply keeps_bind; [apply IH | intros; apply keeps_ret].
      * cbv zeta. repeat apply keeps_if; apply keeps_ret.
Qed.

Lemma through_getIssues parse fuel :
  keeps P (getIssues graph uri1 uri2 uri3 interface capabilityModel inlineKey parse
                  fuel dtContext document).
Proof.
  unfold getIssues. destruct (parse (getText document)) as [[[value|]]|];
    try apply keeps_ret.
  simpl Json.value. apply keeps_bind; [apply through_issues|]. intros issues.
  apply keeps_bind; [apply through_getTypeIssues | intros; apply keeps_ret].
Qed.

End Through.

(** ** What a diagnostics pass does to the resolver *)

Section Passes.

Variable graph : DigitalTwinMetaModelGraph.
Variables (uri1 uri2 uri3 interface capabilityModel inlineKey : string).
Variable dtContext : DigitalTwinMetaModelContext.
Variable document : TextDocument.
Variable parse : string → option Json.ParseResult.

Lemma kept_getIssues fuel :
  keeps (coherent graph dtContext)
        (getIssues graph uri1 uri2 uri3 interface capabilityModel inlineKey parse
                   fuel dtContext document).
Proof.
  apply through_getIssues.
  - apply kept_getTypesFromId.
  - apply kept_getStringValuesFromShortName.
  - apply kept_getTypedPropertiesFromType.
  - apply kept_getValueTypesFromId.
Qed.

Lemma grows_getIssues fuel :
  grows (getIssues graph uri1 uri2 uri3 interface capabilityModel inlineKey parse
                   fuel dtContext document).
Proof.
  apply keeps_grows. intros r0. apply through_getIssues.
  - intros fuel' id. apply grows_keeps, grows_getTypesFromId.
  - intros fuel' shortName. apply grows_keeps, grows_getStringValuesFromShortName.
  - intros fuel' type. apply grows_keeps, grows_getTypedPropertiesFromType.
  - intros fuel' id. apply grows_keeps, grows_getValueTypesFromId.
Qed.

End Passes.

Lemma getValueTypesFromId_stored graph fuel dtContext id r valueTypes r' :
  Js.truthy id = true →
  getValueTypesFromId graph fuel dtContext id r = Ok valueTypes r' →
  ValueTypesFromId (cache r') !! id = Some valueTypes.
Proof.
  intros Hid. unfold getValueTypesFromId. rewrite Hid. change (negb true) with false. cbv beta iota.
  rewrite bind_cached.
  destruct (ValueTypesFromId (cache r) !! id) as [hit|] eqn:Hhit.
  - by intros [<- <-]%ret_Ok.
  - intros (values & r1 & _ & H)%bind_Ok.
    apply bind_Ok in H as (stored & r2 & _ & H).
    apply bind_Ok in H as (u & r3 & Hset & [<- <-]%ret_Ok).
    apply modifyCache_Ok in Hset as ->. simpl. apply lookup_insert_eq.
Qed.

Lemma getValueTypesFromId_hit graph fuel dtContext id r valueTypes :
  Js.truthy id = true →
  ValueTypesFromId (cache r) !! id = Some valueTypes →
  getValueTypesFromId graph fuel dtContext id r = Ok valueTypes r.
Proof.
  intros Hid H. unfold getValueTypesFromId. rewrite Hid. change (negb true) with false. cbv beta iota.
  by rewrite bind_cached, H.
Qed.

(** X13.  The diagnostics reach the caches of the resolver only through
    [getTypesFromId], [getStringValuesFromShortName],
    [getTypedPropertiesFromType] and [getValueTypesFromId]: a property of the
    state that these four keep, whenever they return, holds after a whole
    pass of [getIssues] when it held before. *)
Theorem getIssues_through
    (graph : DigitalTwinMetaModelGraph)
    (uri1 uri2 uri3 interface capabilityModel inlineKey : string)
    (parse : string → option Json.ParseResult) (fuel : nat)
    (dtContext : DigitalTwinMetaModelContext) (document : TextDocument)
    (P : Resolver → Prop) (r r' : Resolver) (issues : list Issue) :
  (∀ fuel id, keeps P (getTypesFromId graph fuel dtContext id)) →
  (∀ fuel shortName,
     keeps P (getStringValuesFromShortName graph fuel dtContext shortName)) →
  (∀ fuel type, keeps P (getTypedPropertiesFromType graph fuel dtContext type)) →
  (∀ fuel id, keeps P (getValueTypesFromId graph fuel dtContext id)) →
  P r →
  getIssues graph uri1 uri2 uri3 interface capabilityModel inlineKey parse
            fuel dtContext document r = Ok issues r' →
  P r'.
Proof.
  intros Htypes Hvalues Htyped HvalueTypes HP H.
  by eapply (through_getIssues graph uri1 uri2 uri3 interface capabilityModel inlineKey
               dtContext document P Htypes Hvalues Htyped HvalueTypes parse fuel).
Qed.

Lemma getIssues_through_witness :
  ∃ issues r',
    getIssues Sample.graph "i" "c" "m" "Interface" "CapabilityModel" "@inline"
      Sample.parsed 6 Sample.context Sample.document newResolver = Ok issues r' ∧
    1 ≤ allocated r'.
Proof.
  destruct (getIssues Sample.graph "i" "c" "m" "Interface" "CapabilityModel" "@inline"
              Sample.parsed 6 Sample.context Sample.document newResolver)
    as [issues r'| |] eqn:H; [|vm_compute in H; discriminate..].
  exists issues, r'. split; [reflexivity|].
  refine (getIssues_through Sample.graph "i" "c" "m" "Interface" "CapabilityModel"
            "@inline" Sample.parsed 6 Sample.context Sample.document
            (λ r, 1 ≤ allocated r) newResolver r' issues _ _ _ _ _ H).
  - intros fuel id r a r1 Hr Hrun.
    pose proof (extends_allocated _ _ (grows_getTypesFromId _ _ _ _ _ _ _ Hrun)). lia.
  - intros fuel shortName r a r1 Hr Hrun.
    pose proof (extends_allocated _ _
                  (grows_getStringValuesFromShortName _ _ _ _ _ _ _ Hrun)). lia.
  - intros fuel type r a r1 Hr Hrun.
    pose proof (extends_allocated _ _
                  (grows_getTypedPropertiesFromType _ _ _ _ _ _ _ Hrun)). lia.
  - intros fuel id r a r1 Hr Hrun.
    pose proof (extends_allocated _ _ (grows_getValueTypesFromId _ _ _ _ _ _ _ Hrun)). lia.
  - simpl. lia.
Defined.

(** X14.  A diagnostics pass under the context of the caches leaves them
    coherent: what the resolver has then cached for the properties is what
    the graph and the context determine. *)
Theorem getIssues_coherent
    (graph : DigitalTwinMetaModelGraph)
    (uri1 uri2 uri3 interface capabilityModel inlineKey : string)
    (parse : string → option Json.ParseResult) (fuel : nat)
    (dtContext : DigitalTwinMetaModelContext) (document : TextDocument)
    (r r' : Resolver) (issues : list Issue) :
  coherent graph dtContext r →
  getIssues graph uri1 uri2 uri3 interface capabilityModel inlineKey parse
            fuel dtContext document r = Ok issues r' →
  coherent graph dtContext r'.
Proof. apply kept_getIssues. Qed.

Lemma getIssues_coherent_witness :
  ∃ issues r',
    getIssues Sample.graph "i" "c" "m" "Interface" "CapabilityModel" "@inline"
      Sample.parsed 6 Sample.context Sample.document newResolver = Ok issues r' ∧
    coherent Sample.graph Sample.context r'.
Proof.
  destruct (getIssues Sample.graph "i" "c" "m" "Interface" "CapabilityModel" "@inline"
              Sample.parsed 6 Sample.context Sample.document newResolver)
    as [issues r'| |] eqn:H; [|vm_compute in H; discriminate..].
  exists issues, r'. split; [reflexivity|].
  exact (getIssues_coherent _ _ _ _ _ _ _ _ _ _ _ _ _ _ (coherent_new _ _) H).
Defined.

(** X15.  No query and no diagnostics pass takes an entry out of a cache or
    puts another array in its place: when one of them returns, every entry
    that was a hit before is still there, unchanged. *)
Theorem caches_only_grow
    (graph : DigitalTwinMetaModelGraph)
    (uri1 uri2 uri3 interface capabilityModel inlineKey : string)
    (parse : string → option Json.ParseResult) (fuel : nat)
    (dtContext : DigitalTwinMetaModelContext) (document : TextDocument)
    (r r' : Resolver) :
  (∀ id keys, getPropertiesFromId graph fuel dtContext id r = Ok keys r' →
              extends r r') ∧
  (∀ id types, getTypesFromId graph fuel dtContext id r = Ok types r' →
               extends r r') ∧
  (∀ id values, getStringValuesFromId graph fuel dtContext id r = Ok values r' →
                extends r r') ∧
  (∀ id valueTypes, getValueTypesFromId graph fuel dtContext id r = Ok valueTypes r' →
                    extends r r') ∧
  (∀ id results, getTypedPropertiesFromId graph fuel dtContext id r = Ok results r' →
                 extends r r') ∧
  (∀ type keys, getPropertiesFromType graph fuel dtContext type r = Ok keys r' →
                extends r r') ∧
  (∀ issues,
     getIssues graph uri1 uri2 uri3 interface capabilityModel inlineKey parse
               fuel dtContext document r = Ok issues r' →
     extends r r').
Proof.
  split; [|split; [|split; [|split; [|split; [|split]]]]].
  - intros id keys. apply grows_getPropertiesFromId.
  - intros id types. apply grows_getTypesFromId.
  - intros id values. apply grows_getStringValuesFromId.
  - intros id valueTypes. apply grows_getValueTypesFromId.
  - intros id results. apply grows_getTypedPropertiesFromId.
  - intros type keys. apply grows_getPropertiesFromType.
  - intros issues. apply grows_getIssues.
Qed.

Lemma caches_only_grow_witness :
  ∃ issues r',
    getIssues Sample.graph "i" "c" "m" "Interface" "CapabilityModel" "@inline"
      Sample.parsed 6 Sample.context Sample.document newResolver = Ok issues r' ∧
    extends newResolver r'.
Proof.
  destruct (getIssues Sample.graph "i" "c" "m" "Interface" "CapabilityModel" "@inline"
              Sample.parsed 6 Sample.context Sample.document newResolver)
    as [issues r'| |] eqn:H; [|vm_compute in H; discriminate..].
  exists issues, r'. split; [reflexivity|].
  destruct (caches_only_grow Sample.graph "i" "c" "m" "Interface" "CapabilityModel"
              "@inline" Sample.parsed 6 Sample.context Sample.document newResolver r')
    as (_ & _ & _ & _ & _ & _ & Hpass).
  exact (Hpass issues H).
Defined.

(** X16.  An answer of the resolver stays: once a query has returned for an
    id, it returns the same array for it, and leaves the state alone, in any
    later state whose caches hold what the caches held then, whatever has
    been asked or checked in between and whatever the fuel.
    ([getStringValuesFromId] returns the array that it stored, with the same
    values; [getValueTypesFromId] caches nothing for an empty id.) *)
Theorem answers_stay
    (graph : DigitalTwinMetaModelGraph) (dtContext : DigitalTwinMetaModelContext)
    (fuel fuel' : nat) (id : string) (r r1 r2 : Resolver) :
  extends r1 r2 →
  (∀ keys, getPropertiesFromId graph fuel dtContext id r = Ok keys r1 →
           getPropertiesFromId graph fuel' dtContext id r2 = Ok keys r2) ∧
  (∀ types, getTypesFromId graph fuel dtContext id r = Ok types r1 →
            getTypesFromId graph fuel' dtContext id r2 = Ok types r2) ∧
  (∀ values, getStringValuesFromId graph fuel dtContext id r = Ok values r1 →
             ∃ stored, getStringValuesFromId graph fuel' dtContext id r2 = Ok stored r2 ∧
                       items stored = items values) ∧
  (∀ valueTypes, Js.truthy id = true →
                 getValueTypesFromId graph fuel dtContext id r = Ok valueTypes r1 →
                 getValueTypesFromId graph fuel' dtContext id r2 = Ok valueTypes r2) ∧
  (∀ results, getTypedPropertiesFromId graph fuel dtContext id r = Ok results r1 →
              getTypedPropertiesFromId graph fuel' dtContext id r2 = Ok results r2).
Proof.
  intros Hextends. split; [|split; [|split; [|split]]].
  - intros keys H%getPropertiesFromId_stored. apply getPropertiesFromId_hit.
    by eapply lookup_weaken; [|apply Hextends].
  - intros types H%getTypesFromId_stored. apply getTypesFromId_hit.
    by eapply lookup_weaken; [|apply Hextends].
  - intros values (stored & H & Hitems)%getStringValuesFromId_stored.
    exists stored. split; [|done]. apply getStringValuesFromId_hit.
    by eapply lookup_weaken; [|apply Hextends].
  - intros valueTypes Hid H. apply getValueTypesFromId_stored in H; [|done].
    apply getValueTypesFromId_hit; [done|].
    by eapply lookup_weaken; [|apply Hextends].
  - intros results H%getTypedPropertiesFromId_stored.
    apply getTypedPropertiesFromId_hit.
    by eapply lookup_weaken; [|apply Hextends].
Qed.

Lemma answers_stay_witness :
  ∃ keys r1 issues r2,
    getPropertiesFromId Sample.graph 3 Sample.context "v/Telemetry" newResolver =
      Ok keys r1 ∧
    getIssues Sample.graph "i" "c" "m" "Interface" "CapabilityModel" "@inline"
      Sample.parsed 6 Sample.context Sample.document r1 = Ok issues r2 ∧
    getPropertiesFromId Sample.graph 0 Sample.context "v/Telemetry" r2 = Ok keys r2.
Proof.
  destruct (getPropertiesFromId Sample.graph 3 Sample.context "v/Telemetry" newResolver)
    as [keys r1| |] eqn:H1; [|vm_compute in H1; discriminate..].
  destruct (getIssues Sample.graph "i" "c" "m" "Interface" "CapabilityModel" "@inline"
              Sample.parsed 6 Sample.context Sample.document r1)
    as [issues r2| |] eqn:H2.
  - exists keys, r1, issues, r2. split; [reflexivity|]. split; [exact H2|].
    pose proof (grows_getIssues _ _ _ _ _ _ _ _ _ _ _ _ _ _ H2) as Hextends.
    exact (proj1 (answers_stay Sample.graph Sample.context 3 0 "v/Telemetry"
                    newResolver r1 r2 Hextends) keys H1).
  - vm_compute in H1. injection H1 as <- <-. vm_compute in H2. discriminate.
  - vm_compute in H1. injection H1 as <- <-. vm_compute in H2. discriminate.
Defined.

(** ** Value types and values of a leaf *)

(** [getStringValuesFromId] leaves the cache of the value types alone. *)
Lemma getStringValuesFromId_valueTypes graph dtContext
    (Q : gmap string (Arr string) → Prop) fuel id :
  keeps (λ r, Q (ValueTypesFromId (cache r)))
        (getStringValuesFromId graph fuel dtContext id).
Proof.
  set (P := λ r, Q (ValueTypesFromId (cache r))).
  assert (Halloc : ∀ A (l : list A), keeps P (alloc l)).
  { intros A l ra a rb Ha [-> ->]%alloc_Ok. exact Ha. }
  assert (Hset : ∀ key v, keeps P (setStringValuesFromId key v)).
  { intros key v ra u rb Ha ->%modifyCache_Ok. exact Ha. }
  revert id. induction fuel as [|fuel IH]; intros id r values r' HQ;
    rewrite getStringValuesFromId_unfold, bind_cached;
    (destruct (StringValuesFromId (cache r) !! id) as [hit|] eqn:Hhit;
     [by intros [_ <-]%ret_Ok|]); [done|].
  intros (found & r1 & Hloop & H)%bind_Ok. cbv zeta in H.
  assert (H1 : P r1).
  { revert Hloop. apply (keeps_forEach (P:=P)); [|exact HQ]. intros acc edge. cbv zeta.
    repeat (apply keeps_bind; [apply keeps_if;
      [apply keeps_bind; [apply IH | intros; apply keeps_ret]
      |apply keeps_ret]|intros ?]).
    apply keeps_ret. }
  revert H. repeat apply keeps_if;
    try (apply keeps_bind; [apply Halloc|]; intros ?;
         apply keeps_bind; [apply Hset|]; intros ?;
         first [apply Halloc | apply keeps_ret]);
    exact H1.
Qed.

Lemma valueTypeOf_primitive (value : string) :
  Forall (λ t, t ∈ primitiveTypes) (valueTypeOf value).
Proof.
  unfold valueTypeOf, primitiveTypes.
  repeat (destruct (String.eqb value _); [repeat constructor|]). constructor.
Qed.

(** X17.  The value types of an id are names of primitive types: from
    caches that hold only such names, [getValueTypesFromId] returns only
    [boolean], [int], [long], [float], [double] and [string], and leaves
    caches that hold only such names. *)
Theorem getValueTypesFromId_primitive
    (graph : DigitalTwinMetaModelGraph) (fuel : nat)
    (dtContext : DigitalTwinMetaModelContext) (id : string)
    (r r' : Resolver) (valueTypes : Arr string) :
  primitiveValueTypes r →
  getValueTypesFromId graph fuel dtContext id r = Ok valueTypes r' →
  Forall (λ t, t ∈ primitiveTypes) (items valueTypes) ∧ primitiveValueTypes r'.
Proof.
  intros Hr. unfold getValueTypesFromId.
  destruct (negb (Js.truthy id)).
  { intros [-> ->]%alloc_Ok. split; [constructor | exact Hr]. }
  rewrite bind_cached.
  destruct (ValueTypesFromId (cache r) !! id) as [hit|] eqn:Hhit.
  { intros [<- <-]%ret_Ok. split; [by eapply Hr | exact Hr]. }
  intros (values & r1 & Hvalues & H)%bind_Ok.
  apply bind_Ok in H as (stored & r2 & [-> ->]%alloc_Ok & H).
  apply bind_Ok in H as (u & r3 & ->%modifyCache_Ok & [<- <-]%ret_Ok).
  assert (Hitems : Forall (λ t, t ∈ primitiveTypes)
                          (flat_map valueTypeOf (items values))).
  { apply Forall_forall. intros t Hin. apply list_elem_of_In in Hin.
    apply in_flat_map in Hin as (value & _ & Hin). apply list_elem_of_In in Hin.
    revert t Hin. apply Forall_forall, valueTypeOf_primitive. }
  split; [exact Hitems|].
  pose proof (getStringValuesFromId_valueTypes graph dtContext
                (λ m, ∀ id valueTypes, m !! id = Some valueTypes →
                        Forall (λ t, t ∈ primitiveTypes) (items valueTypes))
                fuel id r values r1 Hr Hvalues) as Hr1.
  intros id' valueTypes'. simpl. destruct (decide (id' = id)) as [->|Hne].
  - rewrite lookup_insert_eq. by intros [= <-].
  - rewrite lookup_insert_ne by done. apply Hr1.
Qed.

Lemma getValueTypesFromId_primitive_witness :
  ∃ valueTypes r',
    getValueTypesFromId Sample.graph 3 Sample.context "v/count" newResolver =
      Ok valueTypes r' ∧
    items valueTypes = ["int"] ∧
    Forall (λ t, t ∈ primitiveTypes) (items valueTypes) ∧ primitiveValueTypes r'.
Proof.
  destruct (getValueTypesFromId Sample.graph 3 Sample.context "v/count" newResolver)
    as [valueTypes r'| |] eqn:H; [|vm_compute in H; discriminate..].
  exists valueTypes, r'. split; [reflexivity|]. split.
  - vm_compute in H. by injection H as <- <-.
  - refine (getValueTypesFromId_primitive _ _ _ _ _ _ _ _ H).
    intros id valueTypes' Hin. simpl in Hin. by rewrite lookup_empty in Hin.
Defined.

Lemma foldl_hasProperty (id : string) (edges : list GraphEdge)
    (values : list string) (hasProperty : bool) :
  foldl (λ (acc : list string * bool) edge,
           (acc.1, if isDomainOf edge id then true else acc.2))
        (values, hasProperty) edges =
  (values, hasProperty || existsb (λ edge, isDomainOf edge id) edges).
Proof.
  revert hasProperty. induction edges as [|edge edges IH]; intros hasProperty; simpl.
  - by rewrite orb_false_r.
  - rewrite IH. destruct (isDomainOf edge id); simpl; [|done].
    by rewrite orb_true_r.
Qed.

Lemma getStringValuesFromId_leaf_run
    (graph : DigitalTwinMetaModelGraph) (fuel : nat)
    (dtContext : DigitalTwinMetaModelContext) (id : string) (r : Resolver) :
  StringValuesFromId (cache r) !! id = None →
  Forall (λ edge, isRangeFrom edge id = false ∧ isSubClassTo edge id = false ∧
                  isTypeTo edge id = false) (Edges graph) →
  ∃ values r',
    getStringValuesFromId graph (S fuel) dtContext id r = Ok values r' ∧
    items values =
      (if existsb (λ edge, isDomainOf edge id) (Edges graph) then []
       else if Js.truthy (getShortNameFromId dtContext id)
            then [getShortNameFromId dtContext id] else []) ∧
    ∀ other, other ≠ id →
      StringValuesFromId (cache r') !! other = StringValuesFromId (cache r) !! other.
Proof.
  intros Hmiss Hleaf. rewrite getStringValuesFromId_unfold, bind_cached, Hmiss.
  unfold bind at 1.
  rewrite (forEach_pure _ _ (λ (acc : list string * bool) edge,
             (acc.1, if isDomainOf edge id then true else acc.2))).
  2:{ intros acc edge Hin. rewrite Forall_forall in Hleaf.
      destruct (Hleaf edge Hin) as (-> & -> & ->). reflexivity. }
  rewrite foldl_hasProperty. cbv zeta. cbn [fst snd]. simpl orb. simpl length.
  simpl Nat.eqb. cbv iota.
  destruct (existsb (λ edge, isDomainOf edge id) (Edges graph)).
  - eexists _, _. split; [reflexivity|]. split; [reflexivity|].
    intros other Hother. simpl. by rewrite lookup_insert_ne.
  - eexists _, _. split; [reflexivity|]. split.
    + simpl. by destruct (Js.truthy _).
    + intros other Hother. simpl. by rewrite lookup_insert_ne.
Qed.



Lemma find_None {A} (f : A → bool) (l : list A) :
  (∀ x, x ∈ l → f x = false) → List.find f l = None.
Proof.
  induction l as [|x l IH]; intros H; simpl; [done|].
  rewrite (H x) by by left. apply IH. intros y Hy. apply H. by right.
Qed.

(** X19.  The id of an XSD datatype, [http://www.w3.org/2001/XMLSchema#]
    followed by one of the six names, has that name as its only value type
    when it is not cached yet, no [range] edge leaves it, no [subClassOf],
    [type] or [domain] edge arrives at it, and the context gives it no short
    name. *)
Theorem getValueTypesFromId_xsd
    (graph : DigitalTwinMetaModelGraph) (fuel : nat)
    (dtContext : DigitalTwinMetaModelContext) (name : string) (r : Resolver) :
  let id := "http://www.w3.org/2001/XMLSchema#" +:+ name in
  name ∈ primitiveTypes →
  ValueTypesFromId (cache r) !! id = None →
  StringValuesFromId (cache r) !! id = None →
  Forall (λ edge, isRangeFrom edge id = false ∧ isSubClassTo edge id = false ∧
                  isTypeTo edge id = false ∧ isDomainOf edge id = false)
         (Edges graph) →
  Forall (λ kv, isKeyword kv.1 = true ∨ vocab dtContext +:+ pathOf kv.2 ≠ id)
         (entries dtContext) →
  ∃ valueTypes r',
    getValueTypesFromId graph (S fuel) dtContext id r = Ok valueTypes r' ∧
    items valueTypes = [name].
Proof.
  intros id Hname HvalueTypes Hvalues Hedges Hcontext.
  assert (Hshort : getShortNameFromId dtContext id = "XMLSchema#" +:+ name).
  { unfold getShortNameFromId. rewrite find_None.
    - unfold primitiveTypes in Hname. subst id.
      repeat (apply elem_of_cons in Hname as [->|Hname]; [reflexivity|]).
      by apply elem_of_nil in Hname.
    - intros [key item] Hin. rewrite Forall_forall in Hcontext.
      destruct (Hcontext _ Hin) as [Hkey|Hne]; cbn [fst snd] in *.
      + by rewrite Hkey.
      + apply String.eqb_neq in Hne. rewrite String.eqb_sym in Hne.
        rewrite Hne. apply andb_false_r. }
  destruct (getStringValuesFromId_leaf_run graph fuel dtContext id r Hvalues)
    as (values & r1 & Hrun & Hitems & _).
  { eapply Forall_impl; [exact Hedges|]. by intros edge (? & ? & ? & _). }
  assert (Hdomain : existsb (λ edge, isDomainOf edge id) (Edges graph) = false).
  { apply not_true_iff_false. intros (edge & Hin & Hedge)%existsb_exists.
    rewrite Forall_forall in Hedges. apply list_elem_of_In in Hin.
    destruct (Hedges edge Hin) as (_ & _ & _ & Hnot). congruence. }
  rewrite Hdomain, Hshort in Hitems.
  unfold getValueTypesFromId.
  assert (Js.truthy id = true) as ->. { reflexivity. }
  change (negb true) with false. cbv beta iota. rewrite bind_cached, HvalueTypes.
  unfold bind at 1. rewrite Hrun. eexists _, _. split; [reflexivity|].
  simpl. rewrite Hitems. unfold primitiveTypes in Hname.
  repeat (apply elem_of_cons in Hname as [->|Hname]; [reflexivity|]).
  by apply elem_of_nil in Hname.
Qed.

Lemma getValueTypesFromId_xsd_witness :
  ∃ valueTypes r',
    getValueTypesFromId Sample.graph 1 Sample.context
      ("http://www.w3.org/2001/XMLSchema#" +:+ "float") newResolver =
      Ok valueTypes r' ∧
    items valueTypes = ["float"].
Proof.
  apply (getValueTypesFromId_xsd Sample.graph 0 Sample.context "float" newResolver).
  - apply (bool_decide_unpack _). by vm_compute.
  - reflexivity.
  - reflexivity.
  - apply (bool_decide_unpack _). by vm_compute.
  - apply (bool_decide_unpack _). by vm_compute.
Defined.

(** ** The typed properties of a type *)

(** X20.  Asked for a type for the first time (the type being no language
    container), [getTypedPropertiesFromType] describes, in their order,
    those of the properties given by [getPropertiesFromType] that the
    context resolves to an id which is not empty.  A property is marked as
    required exactly when the table of [getRequiredPropertiesFromType] has it
    for the short name of the type, and the five array properties are typed
    [array]. *)
Theorem getTypedPropertiesFromType_labels
    (graph : DigitalTwinMetaModelGraph) (fuel : nat)
    (dtContext : DigitalTwinMetaModelContext) (typeName : string)
    (r r' : Resolver) (results : Arr TypedProperty) :
  let id := getIdFromType dtContext typeName in
  let shortName := getShortNameFromId dtContext id in
  TypedPropertiesFromId (cache r) !! id = None →
  isInternationalizationFromId dtContext id = false →
  getTypedPropertiesFromType graph fuel dtContext typeName r = Ok results r' →
  ∃ keys r1,
    getPropertiesFromType graph fuel dtContext typeName r = Ok keys r1 ∧
    map label (items results) =
      List.filter (λ key, match getIdFromShortName dtContext key with
                          | Some id' => Js.truthy id'
                          | None => false
                          end) (items keys) ∧
    Forall (λ p, required p =
                   Js.includes (label p)
                     (if Js.truthy shortName
                      then getRequiredPropertiesFromType shortName else []) ∧
                 (isArrayFromShortName (label p) = true → type p = "array"))
           (items results).
Proof.
  intros id shortName Hmiss Hlanguage.
  unfold getTypedPropertiesFromType, getPropertiesFromType. cbv zeta. fold id.
  destruct (negb (Js.truthy id)).
  { intros [-> ->]%alloc_Ok. eexists _, _. split; [reflexivity|]. by split. }
  unfold getTypedPropertiesFromId. rewrite bind_cached, Hmiss, Hlanguage.
  intros (keys & r1 & Hkeys & (results1 & r2 & Hloop & H)%bind_Ok)%bind_Ok.
  apply bind_Ok in H as (stored & r3 & [-> ->]%alloc_Ok & H).
  apply bind_Ok in H as (u & r4 & _ & [<- _]%ret_Ok).
  exists keys, r1. split; [exact Hkeys|]. simpl items. fold shortName in Hloop.
  set (requiredProperties := if Js.truthy shortName
                             then getRequiredPropertiesFromType shortName else []) in *.
  set (Q := λ p : TypedProperty,
         required p = Js.includes (label p) requiredProperties ∧
         (isArrayFromShortName (label p) = true → type p = "array")).
  set (resolves := λ key, match getIdFromShortName dtContext key with
                          | Some id' => Js.truthy id'
                          | None => false
                          end).
  match type of Hloop with forEach _ _ ?b _ = _ => set (body := b) in Hloop end.
  assert (Hgen : ∀ keys acc ra out rb,
            forEach keys acc body ra = Ok out rb →
            map label out = map label acc ++ List.filter resolves keys ∧
            (Forall Q acc → Forall Q out)).
  { clear. intros keys. induction keys as [|key keys IH]; intros acc ra out rb H.
    - apply ret_Ok in H as [<- _]. simpl. by rewrite app_nil_r.
    - rewrite forEach_cons in H.
      destruct (body acc key ra) as [acc1 r1| |] eqn:Hstep; [|done..].
      apply IH in H as [Hlabels HQ]. unfold body in Hstep. simpl List.filter.
      unfold resolves at 1.
      destruct (getIdFromShortName dtContext key) as [id'|];
        [destruct (Js.truthy id')|].
      + apply bind_Ok in Hstep as (t & r2 & Ht & [<- _]%ret_Ok).
        rewrite Hlabels, map_app, <- app_assoc. split; [done|].
        intros Hacc. apply HQ, Forall_app. split; [done|].
        constructor; [|done]. split; [done|]. simpl. intros Harray.
        rewrite Harray in Ht. by apply ret_Ok in Ht as [<- _].
      + by apply ret_Ok in Hstep as [<- _].
      + by apply ret_Ok in Hstep as [<- _]. }
  destruct (Hgen _ _ _ _ _ Hloop) as [Hlabels HQ]. split; [exact Hlabels|].
  by apply HQ.
Qed.

Lemma getTypedPropertiesFromType_labels_witness :
  ∃ results r' keys r1,
    getTypedPropertiesFromType Sample.graph 4 Sample.context "Telemetry" newResolver =
      Ok results r' ∧
    getPropertiesFromType Sample.graph 4 Sample.context "Telemetry" newResolver =
      Ok keys r1 ∧
    items keys = ["comment"; "count"; "displayName"; "name"; "ratio"; "unit"] ∧
    map label (items results) = items keys ∧
    map type (items results) = [""; "int"; ""; "string"; "float"; ""] ∧
    map required (items results) = [false; false; false; true; false; false].
Proof.
  destruct (getTypedPropertiesFromType Sample.graph 4 Sample.context "Telemetry"
              newResolver) as [results r'| |] eqn:H; [|vm_compute in H; discriminate..].
  destruct (getTypedPropertiesFromType_labels Sample.graph 4 Sample.context "Telemetry"
              newResolver r' results eq_refl eq_refl H)
    as (keys & r1 & Hkeys & Hlabels & _).
  exists results, r', keys, r1. split; [reflexivity|]. split; [exact Hkeys|].
  assert (Hitems : items keys =
                     ["comment"; "count"; "displayName"; "name"; "ratio"; "unit"]).
  { vm_compute in Hkeys. by injection Hkeys as <- _. }
  split; [exact Hitems|]. split.
  - rewrite Hlabels, Hitems. reflexivity.
  - vm_compute in H. injection H as <- _. split; reflexivity.
Defined.

(** ** Objects without a type *)

(** X21.  An object that has no [@type] and stands where the valid types
    are not exactly one (several, none, or a key that the context does not
    know) gets one issue, [@type is missing], on its own span; nothing
    else of it is checked. *)
Theorem getObjectIssues_type_missing
    (graph : DigitalTwinMetaModelGraph)
    (uri1 uri2 uri3 interface capabilityModel inlineKey : string) (fuel : nat)
    (dtContext : DigitalTwinMetaModelContext) (document : TextDocument)
    (jsonValue : Json.Value) (isInlineInterface : bool) (jsonKey : option string)
    (types : option (list string)) (r r1 : Resolver) :
  Json.hasProperty jsonValue "@type" = false →
  typesFor graph interface capabilityModel fuel dtContext document jsonKey r =
    Ok types r1 →
  (∀ t, types ≠ Some [t]) →
  getObjectIssues graph uri1 uri2 uri3 interface capabilityModel inlineKey (S fuel)
                  dtContext document jsonValue isInlineInterface jsonKey r =
    Ok [{| startIndex := Json.startIndex (Json.span jsonValue);
           endIndex := Json.endIndex (Json.span jsonValue);
           message := "@type is missing" |}] r1.
Proof.
  intros Hhas Htypes Hmany.
  assert (Hagain : typesFor graph interface capabilityModel fuel dtContext document
                     jsonKey r1 = Ok types r1).
  { destruct types as [ts|]; [by eapply typesFor_again|].
    revert Htypes. unfold typesFor. destruct (given jsonKey); [|done].
    destruct (getIdFromShortName _ _) as [id|]; [|by intros [_ <-]%ret_Ok].
    destruct (Js.truthy id); [|by intros [_ <-]%ret_Ok].
    by intros (found & r2 & _ & [[=] _]%ret_Ok)%bind_Ok. }
  assert (Htype : getType graph interface capabilityModel fuel dtContext document
                    jsonValue jsonKey r1 = Ok None r1).
  { unfold getType. rewrite Hhas. unfold bind. rewrite Hagain.
    destruct types as [[|t [|? ?]]|]; try reflexivity. by destruct (Hmany t). }
  rewrite getObjectIssues_S. unfold bind at 1.
  assert (getInvalidTypeIssues graph interface capabilityModel fuel dtContext document
            jsonValue jsonKey r = Ok None r1) as ->.
  { unfold getInvalidTypeIssues, bind at 1. rewrite Htypes.
    destruct types as [ts|]; [|reflexivity]. unfold bind. by rewrite Htype. }
  unfold bind. by rewrite Htype.
Qed.

Lemma getObjectIssues_type_missing_witness :
  getObjectIssues Sample.graph "i" "c" "m" "Interface" "CapabilityModel" "@inline" 1
    Sample.context Sample.document (Json.ObjectValue (Sample.span 9 11) []) false
    (Some "color") newResolver =
    Ok [{| startIndex := 9; endIndex := 11; message := "@type is missing" |}] newResolver.
Proof.
  apply (getObjectIssues_type_missing Sample.graph "i" "c" "m" "Interface"
           "CapabilityModel" "@inline" 0 Sample.context Sample.document
           (Json.ObjectValue (Sample.span 9 11) []) false (Some "color") None
           newResolver newResolver); [reflexivity | reflexivity | discriminate].
Defined.
